(** * RoopeRobotti: Automower command-line client and telemetry logger

    A shallow embedding of the Python sources

      - [main.py]           polling logger (token manager [StaticAuth],
                            credential-file persistence, telemetry encoder,
                            metrics writer, polling loop),
      - [automower_ctl.py]  the full action CLI,
      - [amc_action.py]     the small pause/resume/park CLI,
      - [get_refresh_token.py]  the first-login script (its [update_dotenv]),

    together with the properties of the specification that concern them.

    Modelling conventions.
      - Text is [string]; the Python string helpers below are defined on
        ASCII text (code points below 128), larger code points are passed
        through unchanged.
      - Wall-clock readings ([time.time()]) are rationals [Q]; the sum
        that gives the expiry of a token is rounded to the nearest double.
      - Everything the programs do to the outside (HTTP requests, prints,
        log records, file writes, sleeps) is appended, in program order, to
        the [trace] of the [world]; everything the outside decides (HTTP
        answers, the clock, how reading and writing the credential file
        fare) is a field of the [world].
      - Python exceptions are values of [exn]; code runs in the state and
        error monad [M]. *)

From Stdlib Require Import Ascii String QArith.
From stdpp Require Import base option list gmap strings pretty.

Local Open Scope string_scope.
Local Open Scope Z_scope.

(** ** Python primitives *)

Module Py.

(** Truthiness of [str] and of [Optional[str]]. *)
Definition truthy_str (s : string) : bool :=
  match s with EmptyString => false | String _ _ => true end.

Definition truthy (o : option string) : bool :=
  match o with None => false | Some s => truthy_str s end.

(** [x or y] on optional text. *)
Definition or_else (x y : option string) : option string :=
  if truthy x then x else y.

(** [x or "text"]. *)
Definition or_str (x : option string) (y : string) : string :=
  match x with
  | Some s => if truthy_str s then s else y
  | None => y
  end.

(** [str.join]. *)
Definition join (sep : string) (l : list string) : string :=
  String.concat sep l.

(** [str.startswith] and [str.endswith]. *)
Definition startswith (p s : string) : bool := String.prefix p s.

Fixpoint endswith_char (c : ascii) (s : string) : bool :=
  match s with
  | EmptyString => false
  | String a EmptyString => if Ascii.eqb a c then true else false
  | String _ rest => endswith_char c rest
  end.

(** [sub in s]. *)
Fixpoint contains (sub s : string) : bool :=
  if String.prefix sub s then true
  else match s with
       | EmptyString => false
       | String _ rest => contains sub rest
       end.

(** [str.isspace] on one ASCII character: TAB, LF, VT, FF, CR, the four
    separators FS GS RS US, and SPACE. *)
Definition isspace (c : ascii) : bool :=
  let n := nat_of_ascii c in
  ((9 <=? n) && (n <=? 13) || (28 <=? n) && (n <=? 32))%nat.

Fixpoint lstrip (s : string) : string :=
  match s with
  | EmptyString => EmptyString
  | String c rest => if isspace c then lstrip rest else s
  end.

Fixpoint rstrip (s : string) : string :=
  match s with
  | EmptyString => EmptyString
  | String c rest =>
      match rstrip rest with
      | EmptyString => if isspace c then EmptyString else String c EmptyString
      | r => String c r
      end
  end.

(** [str.strip()]. *)
Definition strip (s : string) : string := rstrip (lstrip s).

(** Line boundaries of [str.splitlines] in ASCII: LF, VT, FF, CR (CR LF
    counts once), FS, GS, RS. *)
Definition is_linebreak (c : ascii) : bool :=
  let n := nat_of_ascii c in
  ((10 <=? n) && (n <=? 13) || (28 <=? n) && (n <=? 30))%nat.

Definition is_cr (c : ascii) : bool := (nat_of_ascii c =? 13)%nat.
Definition is_lf (c : ascii) : bool := (nat_of_ascii c =? 10)%nat.

Fixpoint splitlines_from (cur : string) (s : string) : list string :=
  match s with
  | EmptyString => if truthy_str cur then [cur] else []
  | String c rest =>
      if is_linebreak c then
        match rest with
        | String c2 rest2 =>
            if is_cr c && is_lf c2
            then cur :: splitlines_from EmptyString rest2
            else cur :: splitlines_from EmptyString rest
        | EmptyString => cur :: splitlines_from EmptyString rest
        end
      else splitlines_from (cur ++ String c EmptyString) rest
  end.

(** [str.splitlines()]. *)
Definition splitlines (s : string) : list string :=
  splitlines_from EmptyString s.

(** [str.split("\n")]: the pieces between line feeds, a last empty piece
    included. *)
Fixpoint split_lf_from (cur : string) (s : string) : list string :=
  match s with
  | EmptyString => [cur]
  | String c rest =>
      if is_lf c then cur :: split_lf_from EmptyString rest
      else split_lf_from (cur ++ String c EmptyString) rest
  end.

Definition split_lf (s : string) : list string := split_lf_from EmptyString s.

(** [str.upper()] on ASCII letters. *)
Definition upper_char (c : ascii) : ascii :=
  let n := nat_of_ascii c in
  if ((97 <=? n) && (n <=? 122))%nat then ascii_of_nat (n - 32) else c.

Fixpoint upper (s : string) : string :=
  match s with
  | EmptyString => EmptyString
  | String c rest => String (upper_char c) (upper rest)
  end.

(** Text-mode reading ([open(p, "r")], [Path.read_text]) with universal
    newlines: CR LF and a lone CR are read as LF. *)
Fixpoint universal_newlines (s : string) : string :=
  match s with
  | EmptyString => EmptyString
  | String c rest =>
      if is_cr c then
        match rest with
        | String c2 rest2 =>
            if is_lf c2
            then String (ascii_of_nat 10) (universal_newlines rest2)
            else String (ascii_of_nat 10) (universal_newlines rest)
        | EmptyString => String (ascii_of_nat 10) EmptyString
        end
      else String c (universal_newlines rest)
  end.

(** *** Floating point *)

(** [p / q] rounded to the nearest integer, a tie to the even one. *)
Definition round_half_even (p q : Z) : Z :=
  let k := p / q in
  let r := p mod q in
  match 2 * r ?= q with
  | Lt => k
  | Gt => k + 1
  | Eq => if Z.even k then k else k + 1
  end.

(** What stands for the two infinities among the rationals: the first
    power of two beyond every double. *)
Definition float_inf : Q := inject_Z (2 ^ 1024).

(** The double nearest to a rational (IEEE 754 binary64, round to nearest,
    ties to even, gradual underflow). *)
Definition float_round (x : Q) : Q :=
  let n := Qnum x in
  let d := Zpos (Qden x) in
  if n =? 0 then 0%Q
  else
    let a := Z.abs n in
    let e0 := Z.log2 a - Z.log2 d - 52 in
    (* [a / (d * 2^e0)] lies between [2^51] and [2^53] *)
    let scaled e := (a * 2 ^ Z.max 0 (- e), d * 2 ^ Z.max 0 e) in
    let e1 := if fst (scaled e0) <? 2 ^ 52 * snd (scaled e0)
              then e0 - 1 else e0 in
    let e := Z.max e1 (-1074) in
    let m := round_half_even (fst (scaled e)) (snd (scaled e)) in
    let mag := (inject_Z m * (if 0 <=? e then inject_Z (2 ^ e)
                              else 1 / inject_Z (2 ^ (- e))))%Q in
    let r := if Qle_bool float_inf mag then float_inf else Qred mag in
    if n <? 0 then (- r)%Q else r.

(** [float(n)] as the mixed sum [x + n] computes it: an integer beyond the
    doubles is refused. *)
Definition overflows (n : Z) : bool := 2 ^ 1024 - 2 ^ 970 <=? Z.abs n.

(** The sum of two doubles. *)
Definition float_add (x y : Q) : Q := float_round (x + y).

(** *** Integers from text *)

Definition is_digit (c : ascii) : bool :=
  let n := nat_of_ascii c in ((48 <=? n) && (n <=? 57))%nat.

Definition is_octdigit (c : ascii) : bool :=
  let n := nat_of_ascii c in ((48 <=? n) && (n <=? 55))%nat.

Definition is_letter (c : ascii) : bool :=
  let n := nat_of_ascii c in
  ((65 <=? n) && (n <=? 90) || (97 <=? n) && (n <=? 122))%nat.

Definition digit_value (c : ascii) : Z := Z.of_nat (nat_of_ascii c) - 48.

(** Decimal digits, single underscores allowed between them. *)
Fixpoint digits_from (acc : Z) (after_digit : bool) (s : string) : option Z :=
  match s with
  | EmptyString => if after_digit then Some acc else None
  | String c rest =>
      if is_digit c then digits_from (10 * acc + digit_value c) true rest
      else if Ascii.eqb c "_" && after_digit then
        match rest with
        | String c2 _ => if is_digit c2 then digits_from acc false rest else None
        | EmptyString => None
        end
      else None
  end.

(** [int(s)] on ASCII text: blanks around, a sign, digits.  [None] is
    [ValueError]. *)
Definition int_of_str (s : string) : option Z :=
  match strip s with
  | String "+" rest => digits_from 0 false rest
  | String "-" rest => option_map Z.opp (digits_from 0 false rest)
  | t => digits_from 0 false t
  end.

(** [str.isidentifier] on ASCII text. *)
Fixpoint all_chars (p : ascii -> bool) (s : string) : bool :=
  match s with
  | EmptyString => true
  | String c rest => p c && all_chars p rest
  end.

Definition isidentifier (s : string) : bool :=
  match s with
  | EmptyString => false
  | String c rest =>
      (is_letter c || Ascii.eqb c "_")
      && all_chars (fun x => is_letter x || is_digit x || Ascii.eqb x "_") rest
  end.

(** *** Replacement templates of [re.sub]

    The replacement text of [re.sub] is taken as it is when it holds no
    backslash; otherwise it is parsed as a template (CPython 3.11,
    [re._parser.parse_template]) for a pattern without groups: escapes
    stand for characters, [\g<0>] stands for the whole match, every other
    group reference and every unknown escape of a letter is an error.  The
    parser reads the text through a tokenizer that looks one token ahead,
    which is why a backslash at the very end is reported as soon as the
    token before it is taken. *)

Inductive token :=
  | TChar (c : ascii)
  | TEsc (c : ascii)
  | TDangling.

Fixpoint tokens (pos : nat) (s : string) : list (nat * token) :=
  match s with
  | EmptyString => []
  | String c rest =>
      if Ascii.eqb c "\" then
        match rest with
        | EmptyString => [(pos, TDangling)]
        | String c2 rest2 => (pos, TEsc c2) :: tokens (pos + 2) rest2
        end
      else (pos, TChar c) :: tokens (pos + 1) rest
  end.

(** The errors of the parser: [re.error] with its message and position,
    and the [IndexError] for a group name the pattern does not have. *)
Inductive template_error :=
  | BadTemplate (msg : string) (pos : nat)
  | UnknownGroup (name : string).

(** A parsed template: literal text and references to the whole match. *)
Inductive piece :=
  | Lit (s : string)
  | Whole.

Definition token_text (t : token) : string :=
  match t with
  | TChar c => String c EmptyString
  | TEsc c => String "\" (String c EmptyString)
  | TDangling => String "\" EmptyString
  end.

Section Template.

(** Length of the template. *)
Variable len : nat.

(** [Tokenizer.tell]: where the token looked at starts. *)
Definition tell (ts : list (nat * token)) : nat :=
  match ts with
  | (p, _) :: _ => p
  | [] => len
  end.

(** Taking a token makes the tokenizer read the next one. *)
Definition looked_at (ts : list (nat * token))
  : template_error + list (nat * token) :=
  match ts with
  | (_, TDangling) :: _ => inl (BadTemplate "bad escape (end of pattern)" (len - 1))
  | _ => inr ts
  end.

(** [Tokenizer.getuntil(">", "group name")]. *)
Fixpoint getuntil (ts : list (nat * token)) (result : string)
  : template_error + (string * list (nat * token)) :=
  match ts with
  | [] =>
      if truthy_str result
      then inl (BadTemplate "missing >, unterminated name"
                            (len - String.length result))
      else inl (BadTemplate "missing group name" len)
  | (_, t) :: rest =>
      match looked_at rest with
      | inl e => inl e
      | inr _ =>
          match t with
          | TChar ">" =>
              if truthy_str result then inr (result, rest)
              else inl (BadTemplate "missing group name" (tell rest - 1))
          | _ => getuntil rest (result ++ token_text t)
          end
      end
  end.

(** [chr(n)] for [n] below 256, as UTF-8. *)
Definition chr (n : Z) : string :=
  if n <? 128 then String (ascii_of_nat (Z.to_nat n)) EmptyString
  else String (ascii_of_nat (Z.to_nat (192 + n / 64)))
         (String (ascii_of_nat (Z.to_nat (128 + n mod 64))) EmptyString).

Definition escape_char (c : ascii) : option Z :=
  if Ascii.eqb c "a" then Some 7
  else if Ascii.eqb c "b" then Some 8
  else if Ascii.eqb c "f" then Some 12
  else if Ascii.eqb c "n" then Some 10
  else if Ascii.eqb c "r" then Some 13
  else if Ascii.eqb c "t" then Some 9
  else if Ascii.eqb c "v" then Some 11
  else if Ascii.eqb c "\" then Some 92
  else None.

(** A following token that is a digit of the given kind, taken. *)
Definition take_digit (p : ascii -> bool) (ts : list (nat * token))
  : template_error + option (ascii * list (nat * token)) :=
  match ts with
  | (_, TChar d) :: rest =>
      if p d then
        match looked_at rest with
        | inl e => inl e
        | inr _ => inr (Some (d, rest))
        end
      else inr None
  | _ => inr None
  end.

Definition group_reference (name : string) (rest : list (nat * token))
  : template_error + piece :=
  let pos := (tell rest - (String.length name + 1))%nat in
  if isidentifier name then inl (UnknownGroup name)
  else
    match int_of_str name with
    | Some index =>
        if index <? 0 then
          inl (BadTemplate ("bad character in group name '" ++ name ++ "'") pos)
        else if 0 <? index then
          inl (BadTemplate ("invalid group reference " ++ pretty index) pos)
        else inr Whole
    | None =>
        inl (BadTemplate ("bad character in group name '" ++ name ++ "'") pos)
    end.

Fixpoint parse (fuel : nat) (ts : list (nat * token)) (acc : list piece)
  : template_error + list piece :=
  match fuel with
  | O => inr (rev acc)
  | S fuel =>
      match ts with
      | [] => inr (rev acc)
      | (_, t) :: rest =>
          match looked_at rest with
          | inl e => inl e
          | inr _ =>
              match t with
              | TDangling =>
                  inl (BadTemplate "bad escape (end of pattern)" (len - 1))
              | TChar c => parse fuel rest (Lit (String c EmptyString) :: acc)
              | TEsc c =>
                  if Ascii.eqb c "g" then
                    match rest with
                    | (_, TChar "<") :: rest1 =>
                        match looked_at rest1 with
                        | inl e => inl e
                        | inr _ =>
                            match getuntil rest1 EmptyString with
                            | inl e => inl e
                            | inr (name, rest2) =>
                                match group_reference name rest2 with
                                | inl e => inl e
                                | inr p => parse fuel rest2 (p :: acc)
                                end
                            end
                        end
                    | _ => inl (BadTemplate "missing <" (tell rest))
                    end
                  else if Ascii.eqb c "0" then
                    match take_digit is_octdigit rest with
                    | inl e => inl e
                    | inr None => parse fuel rest (Lit (chr 0) :: acc)
                    | inr (Some (d1, rest1)) =>
                        match take_digit is_octdigit rest1 with
                        | inl e => inl e
                        | inr None =>
                            parse fuel rest1 (Lit (chr (digit_value d1)) :: acc)
                        | inr (Some (d2, rest2)) =>
                            parse fuel rest2
                                  (Lit (chr ((8 * digit_value d1 + digit_value d2)
                                             mod 256)) :: acc)
                        end
                    end
                  else if is_digit c then
                    match take_digit is_digit rest with
                    | inl e => inl e
                    | inr None =>
                        inl (BadTemplate ("invalid group reference "
                                          ++ pretty (digit_value c))
                                         (tell rest - 1))
                    | inr (Some (d1, rest1)) =>
                        let two := 10 * digit_value c + digit_value d1 in
                        if is_octdigit c && is_octdigit d1 then
                          match take_digit is_octdigit rest1 with
                          | inl e => inl e
                          | inr None =>
                              inl (BadTemplate ("invalid group reference "
                                                ++ pretty two)
                                               (tell rest1 - 2))
                          | inr (Some (d2, rest2)) =>
                              let v := 64 * digit_value c + 8 * digit_value d1
                                       + digit_value d2 in
                              if 255 <? v then
                                inl (BadTemplate
                                       ("octal escape value \"
                                        ++ String c (String d1 (String d2 EmptyString))
                                        ++ " outside of range 0-0o377")
                                       (tell rest2 - 4))
                              else parse fuel rest2 (Lit (chr v) :: acc)
                          end
                        else
                          inl (BadTemplate ("invalid group reference "
                                            ++ pretty two)
                                           (tell rest1 - 2))
                    end
                  else
                    match escape_char c with
                    | Some n => parse fuel rest (Lit (chr n) :: acc)
                    | None =>
                        if is_letter c then
                          inl (BadTemplate ("bad escape \" ++ String c EmptyString)
                                           (tell rest - 2))
                        else parse fuel rest (Lit (token_text t) :: acc)
                    end
              end
          end
      end
  end.

End Template.

(** [re._parser.parse_template] for a pattern without groups. *)
Definition parse_template (repl : string)
  : template_error + list piece :=
  let ts := tokens 0 repl in
  let len := String.length repl in
  match looked_at len ts with
  | inl e => inl e
  | inr _ => parse len (S (length ts)) ts []
  end.

(** [re._parser.expand_template] on one match. *)
Fixpoint expand_template (ps : list piece) (matched : string) : string :=
  match ps with
  | [] => EmptyString
  | Lit s :: rest => s ++ expand_template rest matched
  | Whole :: rest => matched ++ expand_template rest matched
  end.

(** [str(x)] of an optional text: [None] prints as the word None. *)
Definition str_opt (o : option string) : string :=
  match o with Some s => s | None => "None" end.

(** [str(n)] of an integer. *)
Definition str_int (n : Z) : string := pretty n.

Definition NL : string := String (ascii_of_nat 10) EmptyString.

End Py.

(** ** Exceptions and results *)

(** The argument of [SystemExit]: a message or a status. *)
Inductive exit_arg :=
  | ExitMsg (msg : string)
  | ExitCode (n : Z).

(** The Python exceptions the programs raise or receive.  [SystemExit] and
    [KeyboardInterrupt] derive from [BaseException] only; the others derive
    from [Exception]. *)
Inductive exn :=
  | ClientResponseError (status : Z) (url : string)
  | ClientConnectionError (detail : string)
  | ContentTypeError
  | KeyError (key : string)
  | TypeError (detail : string)
  | OSError (detail : string)
  | ReError (detail : string)
  | IndexError (detail : string)
  | AttributeError (detail : string)
  | OverflowError (detail : string)
  | UnicodeError (detail : string)
  | InfluxApiError (status : Z)
  | SystemExit (arg : exit_arg)
  | KeyboardInterrupt.

(** [isinstance(e, Exception)]: what an [except Exception] clause catches. *)
Definition is_Exception (e : exn) : bool :=
  match e with
  | SystemExit _ | KeyboardInterrupt => false
  | _ => true
  end.

Inductive res (A : Type) :=
  | Ok (a : A)
  | Raise (e : exn).
Arguments Ok {A} a.
Arguments Raise {A} e.

(** ** Wire data *)

(** JSON values as the action payloads use them. *)
#[local] Unset Elimination Schemes.
Inductive json :=
  | JStr (s : string)
  | JInt (n : Z)
  | JObj (members : list (string * json)).
#[local] Set Elimination Schemes.

(** The device objects of [GET /v1/mowers], field by field; a missing JSON
    member (what [dict.get] answers with [None]) is [None].  The scalar
    members of the [battery], [settings], [cutting] and [metadata] objects
    are read through [(attrs.get(obj) or {}).get(member)] only and are kept
    as one optional field each. *)
Module Api.

Record work_area := {
  wa_name : option string;
  wa_workAreaId : option Z }.

Record system_info := {
  sys_name : option string;
  sys_model : option string }.

Record capabilities := {
  cap_headlights : option bool;
  cap_canConfirmError : option bool;
  cap_workAreas : option bool }.

Record mower_state := {
  mw_activity : option string;
  mw_state : option string;
  mw_mode : option string }.

Record position := {
  pos_latitude : option Q;
  pos_longitude : option Q }.

Record attributes := {
  at_system : option system_info;
  at_capabilities : option capabilities;
  at_workAreas : option (list work_area);
  at_mower : option mower_state;
  at_battery_batteryPercent : option Q;
  at_positions : option (list position);
  at_settings_cuttingHeight : option Q;
  at_cutting_height : option Q;
  at_metadata_connected : option bool }.

Record mower := {
  m_id : option string;
  m_attributes : option attributes }.

Record mowers_payload := {
  data : option (list mower) }.

(** The JSON body of the token endpoint. *)
Record token_response := {
  access_token : option string;
  refresh_token : option string;
  expires_in : option Z }.

(** [x or {}]: a missing object reads as the empty object. *)
Definition no_system : system_info :=
  {| sys_name := None; sys_model := None |}.
Definition no_capabilities : capabilities :=
  {| cap_headlights := None; cap_canConfirmError := None;
     cap_workAreas := None |}.
Definition no_mower_state : mower_state :=
  {| mw_activity := None; mw_state := None; mw_mode := None |}.
Definition no_position : position :=
  {| pos_latitude := None; pos_longitude := None |}.
Definition no_attributes : attributes :=
  {| at_system := None; at_capabilities := None; at_workAreas := None;
     at_mower := None; at_battery_batteryPercent := None;
     at_positions := None;
     at_settings_cuttingHeight := None; at_cutting_height := None;
     at_metadata_connected := None |}.

(** [it.get("attributes") or {}]. *)
Definition attrs_of (it : mower) : attributes :=
  default no_attributes (m_attributes it).

(** [((it.get("attributes") or {}).get("system") or {}).get("name")]. *)
Definition name_of (it : mower) : option string :=
  sys_name (default no_system (at_system (attrs_of it))).

End Api.

(** ** Effects *)

(** Values of the metrics point: [fields] as built by the poller (any may be
    [None]) and as stored in the point. *)
Inductive field_value :=
  | FNone
  | FBool (b : bool)
  | FInt (n : Z)
  | FFloat (q : Q)
  | FStr (s : string).

Inductive point_value :=
  | PBool (b : bool)
  | PInt (n : Z)
  | PFloat (q : Q)
  | PStr (s : string).

Record point := {
  p_measurement : string;
  p_tags : list (string * option string);
  p_fields : gmap string point_value;
  p_time : Q }.

(** What the programs send out. *)
Inductive request :=
  | PostToken (refresh_token client_id client_secret : string)
  | GetMowers (access_token : option string) (api_key : string)
  | PostAction (access_token app_key : string) (mower_id : option string)
               (payload : json)
  | InfluxWrite (bucket : string) (record : point).

(** What comes back: an HTTP answer (status, text, decoded body) or an
    exception raised by the client library while waiting. *)
Inductive body :=
  | BodyToken (t : Api.token_response)
  | BodyMowers (m : Api.mowers_payload)
  | BodyOther.

Inductive outcome :=
  | Responded (status : Z) (text : string) (b : body)
  | Failed (e : exn).

Inductive level := TRACE | DEBUG | INFO | WARNING | ERROR.

(** Arguments of a log call. *)
(** One part of the poller's summary line, before formatting. *)
Inductive summary_part :=
  | SText (label : string) (v : option string)
  | SPercent (label : string) (v : option Q)
  | SPos (lat lng : Q).

Inductive log_arg :=
  | AStr (s : string)
  | AInt (n : Z)
  | AExn (e : exn)
  | AItem (it : Api.mower)
  | ASummary (parts : list summary_part).

(** The effects, as they enter the trace.  [EvTruncate] is the opening of
    the credential file for writing, which empties it; [EvWrite] is the
    writing of a text into it.  The programs do nothing else to a file:
    they create no temporary file and rename nothing. *)
Inductive event :=
  | EvRequest (r : request)
  | EvStdout (line : string)
  | EvStderr (line : string)
  | EvStderrExn (prefix : string) (e : exn)
  | EvLog (l : level) (fmt : string) (args : list log_arg)
  | EvTruncate
  | EvWrite (text : string)
  | EvSleep (secs : Z).

(** The token manager object of [main.py] (class [StaticAuth]). *)
Record StaticAuth := {
  client_id : string;
  client_secret : string;
  api_key : string;
  refresh_token : string;
  _access_token : option string;
  _expires_at : Q }.

(** What the file system does when the credential file is read and when it
    is written.  A read goes through, is refused, or meets bytes that are
    not UTF-8.  A write goes through, or the opening for writing is refused
    (the file stays as it is), or the opening succeeds, which empties the
    file, and the writing of the text then fails. *)
(** What the file system has in store for the credential file.  A read of
    the existing file goes through, is refused, or meets bytes that are not
    UTF-8.  A write goes through, or the opening for writing is refused and
    the file stays as it is, or the opening goes through, which empties the
    file, and the writing then fails (a full disk, here). *)
Inductive read_mode := ReadOk | ReadDenied | ReadUndecodable.
Inductive write_mode := WriteOk | OpenRefused | WriteFails.

Record file_io := {
  io_read : read_mode;
  io_write : write_mode }.

(** The state a run threads through: the credential file [.env] (absent or
    its text) and what reading and writing it meet, the process
    environment, the clock, the answers of the remote services as a
    function of what happened so far, the one [StaticAuth] object of the
    poller, and the trace of effects. *)
Record world := {
  env_file : option string;
  env_io : file_io;
  environ : gmap string string;
  clock : Q;
  net : list event -> request -> outcome;
  auth : StaticAuth;
  trace : list event }.

Definition set_env_file (f : option string) (w : world) : world :=
  {| env_file := f; env_io := env_io w; environ := environ w;
     clock := clock w; net := net w; auth := auth w; trace := trace w |}.

Definition set_clock (t : Q) (w : world) : world :=
  {| env_file := env_file w; env_io := env_io w;
     environ := environ w; clock := t; net := net w; auth := auth w;
     trace := trace w |}.

Definition set_auth (a : StaticAuth) (w : world) : world :=
  {| env_file := env_file w; env_io := env_io w;
     environ := environ w; clock := clock w; net := net w; auth := a;
     trace := trace w |}.

Definition add_event (e : event) (w : world) : world :=
  {| env_file := env_file w; env_io := env_io w;
     environ := environ w; clock := clock w; net := net w; auth := auth w;
     trace := trace w ++ [e] |}.

(** The credential file is at the program's disposal: reading it and
    rewriting it both go through. *)
Definition env_writable (w : world) : bool :=
  match io_read (env_io w), io_write (env_io w) with
  | ReadOk, WriteOk => true
  | _, _ => false
  end.

(** The monad of the programs. *)
Definition M (A : Type) : Type := world -> res A * world.

Definition ret {A} (a : A) : M A := fun w => (Ok a, w).

Definition bind {A B} (m : M A) (k : A -> M B) : M B :=
  fun w => match m w with
           | (Ok a, w') => k a w'
           | (Raise e, w') => (Raise e, w')
           end.

Definition raise {A} (e : exn) : M A := fun w => (Raise e, w).

(** [try: body / except Exception as e: handler(e)]. *)
Definition try_except {A} (body : M A) (handler : exn -> M A) : M A :=
  fun w => match body w with
           | (Ok a, w') => (Ok a, w')
           | (Raise e, w') =>
               if is_Exception e then handler e w' else (Raise e, w')
           end.

Definition emit (e : event) : M unit := fun w => (Ok tt, add_event e w).

Definition get_world : M world := fun w => (Ok w, w).

Declare Scope py_scope.
Delimit Scope py_scope with py.
Notation "'let*' x := c1 'in' c2" := (bind c1 (fun x => c2))
  (at level 10, x name, c1 at level 100, c2 at level 200) : py_scope.
Notation "c1 ;; c2" := (bind c1 (fun _ => c2))
  (at level 100, c2 at level 200, right associativity) : py_scope.
Local Open Scope py_scope.

(** [for x in xs: body(x)]. *)
Fixpoint for_each {A} (xs : list A) (body : A -> M unit) : M unit :=
  match xs with
  | [] => ret tt
  | x :: rest => body x ;; for_each rest body
  end.

Definition print (line : string) : M unit := emit (EvStdout line).
Definition eprint (line : string) : M unit := emit (EvStderr line).
Definition log (l : level) (fmt : string) (args : list log_arg) : M unit :=
  emit (EvLog l fmt args).

(** One HTTP exchange: the request is recorded, the remote side answers. *)
Definition http (r : request) : M outcome :=
  fun w => (Ok (net w (trace w) r), add_event (EvRequest r) w).

(** The credential file.  It is read in text mode ([Path.read_text],
    [open(path, "r").read]), so line ends come out as LF.  Opening it for
    writing truncates it before any text is written ([Path.write_text],
    [open(path, "w").write]); the writing itself can still fail, and then
    the file is left empty.  (On the platforms where the programs run a
    text written in text mode is stored as it is.) *)
Definition path_exists : M bool :=
  fun w => (Ok (bool_decide (is_Some (env_file w))), w).

Definition read_text : M string :=
  fun w => match env_file w with
           | Some t =>
               match io_read (env_io w) with
               | ReadOk => (Ok (Py.universal_newlines t), w)
               | ReadDenied => (Raise (OSError "Permission denied"), w)
               | ReadUndecodable =>
                   (Raise (UnicodeError "invalid start byte"), w)
               end
           | None => (Raise (OSError "No such file or directory"), w)
           end.

Definition write_text (text : string) : M unit :=
  fun w =>
    match io_write (env_io w) with
    | WriteOk =>
        let w1 := add_event EvTruncate (set_env_file (Some "") w) in
        (Ok tt, add_event (EvWrite text) (set_env_file (Some text) w1))
    | OpenRefused => (Raise (OSError "Permission denied"), w)
    | WriteFails =>
        (Raise (OSError "No space left on device"),
         add_event EvTruncate (set_env_file (Some "") w))
    end.

(** [time.time()]. *)
Definition time_time : M Q := fun w => (Ok (clock w), w).

(** [await asyncio.sleep(secs)]: the clock moves on by [secs]. *)
Definition sleep (secs : Z) : M unit :=
  fun w => (Ok tt, add_event (EvSleep secs)
                     (set_clock (clock w + inject_Z secs)%Q w)).

Definition get_auth : M StaticAuth := fun w => (Ok (auth w), w).
Definition put_auth (a : StaticAuth) : M unit := fun w => (Ok tt, set_auth a w).

Definition AUTH_TOKEN_URL : string :=
  "https://api.authentication.husqvarnagroup.dev/v1/oauth2/token".
Definition AMC_BASE : string := "https://api.amc.husqvarna.dev".

(** ** main.py: the polling logger *)

Module Main.

Record Config := {
  cfg_client_id : string;
  cfg_client_secret : string;
  cfg_api_key : string;
  cfg_refresh_token : string;
  poll_seconds : Z;
  influx_url : string;
  influx_token : string;
  influx_org : string;
  influx_bucket : string;
  measurement : string }.

(** *** Persist rotated refresh token *)

Definition KEY : string := "HUSQ_REFRESH_TOKEN=".

(** The [for i, ln in enumerate(lines)] loop with its [break]: the first
    line that, stripped, starts with the key is overwritten; [None] when
    the loop runs to its [else]. *)
Fixpoint replace_first (lines : list string) (new_rt : string)
  : option (list string) :=
  match lines with
  | [] => None
  | ln :: rest =>
      if Py.startswith KEY (Py.strip ln)
      then Some ((KEY ++ new_rt) :: rest)
      else option_map (cons ln) (replace_first rest new_rt)
  end.

Definition updated_lines (lines : list string) (new_rt : string)
  : list string :=
  match replace_first lines new_rt with
  | Some lines' => lines'
  | None => lines ++ [KEY ++ new_rt]
  end.

Definition _persist_refresh_token_to_env (new_rt : string) : M unit :=
  try_except
    (let* ex := path_exists in
     if negb ex then write_text (KEY ++ new_rt ++ Py.NL)
     else
       let* text := read_text in
       let lines := Py.splitlines text in
       write_text (Py.join Py.NL (updated_lines lines new_rt) ++ Py.NL))
    (fun e =>
       log WARNING "Could not persist rotated refresh token to .env: %s"
           [AExn e]).

(** *** OAuth (refresh -> access) *)

Definition StaticAuth_init (cid csecret akey rt : string) : StaticAuth :=
  {| client_id := cid; client_secret := csecret; api_key := akey;
     refresh_token := rt; _access_token := None; _expires_at := 0%Q |}.

Definition set_token (tok : string) (a : StaticAuth) : StaticAuth :=
  {| client_id := client_id a; client_secret := client_secret a;
     api_key := api_key a; refresh_token := refresh_token a;
     _access_token := Some tok; _expires_at := _expires_at a |}.

Definition set_expiry (exp : Q) (a : StaticAuth) : StaticAuth :=
  {| client_id := client_id a; client_secret := client_secret a;
     api_key := api_key a; refresh_token := refresh_token a;
     _access_token := _access_token a; _expires_at := exp |}.

(** [now + int(secs)]: the integer is converted to a double, which fails
    for an integer beyond the doubles, and the sum is rounded. *)
Definition expiry (now : Q) (secs : Z) : M Q :=
  if Py.overflows secs
  then raise (OverflowError "int too large to convert to float")
  else ret (Py.float_add now (Py.float_round (inject_Z secs))).

Definition set_refresh (rt : string) (a : StaticAuth) : StaticAuth :=
  {| client_id := client_id a; client_secret := client_secret a;
     api_key := api_key a; refresh_token := rt;
     _access_token := _access_token a; _expires_at := _expires_at a |}.

(** The test [not self._access_token or now >= self._expires_at - 30].
    The difference is taken as it is: the subtraction of doubles is exact
    for the initial expiry 0.0 and for every expiry between 30 and [2^54]
    seconds. *)
Definition needs_refresh (self : StaticAuth) (now : Q) : bool :=
  negb (Py.truthy (_access_token self))
  || Qle_bool (_expires_at self - 30)%Q now.

(** The block under [# Handle refresh-token rotation]; [new_rt] is
    [tok.get("refresh_token")]. *)
Definition handle_rotation (new_rt : option string) : M unit :=
  let* self := get_auth in
  match new_rt with
  | Some rt =>
      if Py.truthy_str rt && negb (String.eqb rt (refresh_token self))
      then
        put_auth (set_refresh rt self) ;;
        _persist_refresh_token_to_env rt ;;
        log DEBUG "Stored rotated refresh token." []
      else ret tt
  | None => ret tt
  end.

(** The body of the [if]: one exchange with the token endpoint. *)
Definition refresh_exchange (now : Q) : M unit :=
  let* self := get_auth in
  let* r := http (PostToken (refresh_token self) (client_id self)
                            (client_secret self)) in
  match r with
  | Failed e => raise e
  | Responded status txt b =>
      (if 400 <=? status
       then log ERROR "Token refresh failed %s: %s" [AInt status; AStr txt] ;;
            raise (ClientResponseError status AUTH_TOKEN_URL)
       else ret tt) ;;
      match b with
      | BodyToken tok =>
          match Api.access_token tok with
          | None => raise (KeyError "access_token")
          | Some at_ =>
              put_auth (set_token at_ self) ;;
              let secs := default 300 (Api.expires_in tok) in
              let* exp := expiry now secs in
              put_auth (set_expiry exp (set_token at_ self)) ;;
              log DEBUG "Refreshed access token; expires_in=%ss" [AInt secs] ;;
              handle_rotation (Api.refresh_token tok)
          end
      | _ => raise ContentTypeError
      end
  end.

Definition async_get_access_token : M (option string) :=
  let* now := time_time in
  let* self := get_auth in
  (if needs_refresh self now then refresh_exchange now else ret tt) ;;
  let* self' := get_auth in
  ret (_access_token self').

(** *** Influx helper *)

Record InfluxWriter := {
  enabled : bool;
  iw_cfg : Config }.

(** [InfluxWriter.__init__]; [installed] tells whether the optional
    [influxdb_client] package could be imported. *)
Definition InfluxWriter_init (installed : bool) (cfg : Config)
  : M InfluxWriter :=
  let en := Py.truthy_str (influx_token cfg) && installed in
  (if negb en
   then log INFO "InfluxDB disabled (no token or client not installed)." []
   else ret tt) ;;
  ret {| enabled := en; iw_cfg := cfg |}.

(** One round of the loop over [fields.items()].  For a truth value the
    loop calls [p.boolean_field(k, v)], a method the class [Point] of the
    client library does not have: the call raises [AttributeError]. *)
Definition add_field (k : string) (v : field_value)
           (p : gmap string point_value) : res (gmap string point_value) :=
  match v with
  | FNone => Ok p
  | FBool b =>
      Raise (AttributeError "'Point' object has no attribute 'boolean_field'")
  | FInt n => Ok (<[k := PInt n]> p)
  | FFloat q => Ok (<[k := PFloat q]> p)
  | FStr s => Ok (<[k := PStr s]> p)
  end.

(** The loop itself; once a round has raised, nothing more is done.  Only
    a truth value makes a round raise, and always the same exception, so
    the order in which the dictionary is gone through does not show in the
    result. *)
Definition add_fields (fields : gmap string field_value)
  : res (gmap string point_value) :=
  map_fold (fun k v acc => match acc with
                           | Ok p => add_field k v p
                           | Raise e => Raise e
                           end)
           (Ok ∅) fields.

Definition build_point (cfg : Config) (mower_id : string)
           (name : option string) (fields : gmap string field_value)
           (ts : Q) : res point :=
  match add_fields fields with
  | Ok fs =>
      Ok {| p_measurement := measurement cfg;
            p_tags := [("mower_id", Some mower_id); ("name", name)];
            p_fields := fs;
            p_time := ts |}
  | Raise e => Raise e
  end.

Definition write (self : InfluxWriter) (mower_id : string)
           (name : option string) (fields : gmap string field_value)
           (ts : Q) : M unit :=
  if negb (enabled self) then ret tt
  else
    match build_point (iw_cfg self) mower_id name fields ts with
    | Raise e => raise e
    | Ok p =>
        let* r := http (InfluxWrite (influx_bucket (iw_cfg self)) p) in
        match r with
        | Failed e => raise e
        | Responded status _ _ =>
            if 400 <=? status then raise (InfluxApiError status) else ret tt
        end
    end.

(** *** Automower REST fetch *)

Definition fetch_mowers (api_key : string) : M Api.mowers_payload :=
  let* access_token := async_get_access_token in
  let* r := http (GetMowers access_token api_key) in
  match r with
  | Failed e => raise e
  | Responded status text b =>
      log TRACE "AMC /v1/mowers raw: %s" [AStr text] ;;
      (if 400 <=? status
       then log ERROR "AMC /v1/mowers failed %s: %s" [AInt status; AStr text] ;;
            raise (ClientResponseError status (AMC_BASE ++ "/v1/mowers"))
       else ret tt) ;;
      match b with
      | BodyMowers payload => ret payload
      | _ => raise ContentTypeError
      end
  end.

Definition table : gmap string Z :=
  list_to_map
    [("UNKNOWN", 0); ("PARKED", 1); ("PAUSED", 2); ("STOPPED", 3);
     ("IN_OPERATION", 4); ("MOWING", 5); ("GOING_HOME", 6); ("LEAVING", 7);
     ("CHARGING", 8); ("ERROR", 9); ("SLEEPING", 10); ("FATAL_ERROR", 11);
     ("RESTRICTED", 12); ("DISCONNECTED", 13);
     ("MANUAL_START_REQUIRED", 14); ("AUTO", 20); ("MAIN_AREA", 21);
     ("SECONDARY_AREA", 22); ("HOME", 23)].

Definition _enum_num (val : option string) : option Z :=
  match val with
  | None => None
  | Some s => Some (default 0 (table !! Py.upper s))
  end.

(** [(attrs.get("positions") or [{}])[-1] if attrs.get("positions") else {}]. *)
Definition last_position (attrs : Api.attributes) : Api.position :=
  match Api.at_positions attrs with
  | Some (p :: ps) => List.last ps p
  | _ => Api.no_position
  end.

Definition _summary_line (name : option string) (attrs : Api.attributes)
  : list summary_part :=
  let batt := Api.at_battery_batteryPercent attrs in
  let mower := default Api.no_mower_state (Api.at_mower attrs) in
  let act := Api.mw_activity mower in
  let state := Api.mw_state mower in
  let mode := Api.mw_mode mower in
  let pos := last_position attrs in
  let parts := [SText "name" name; SPercent "battery" batt;
                SText "state" state; SText "activity" act;
                SText "mode" mode] in
  match Api.pos_latitude pos, Api.pos_longitude pos with
  | Some lat, Some lng => parts ++ [SPos lat lng]
  | _, _ => parts
  end.

(** *** Main polling *)

Definition opt_float (o : option Q) : field_value :=
  match o with Some q => FFloat q | None => FNone end.
Definition opt_str (o : option string) : field_value :=
  match o with Some s => FStr s | None => FNone end.
Definition opt_int (o : option Z) : field_value :=
  match o with Some n => FInt n | None => FNone end.
Definition opt_bool (o : option bool) : field_value :=
  match o with Some b => FBool b | None => FNone end.

(** [a or b] on optional numbers: zero is falsy. *)
Definition num_or (a b : option Q) : option Q :=
  match a with
  | Some q => if Qeq_bool q 0 then b else a
  | None => b
  end.

(** The [fields] dictionary of one device. *)
Definition fields_of (attrs : Api.attributes) : gmap string field_value :=
  let battery := Api.at_battery_batteryPercent attrs in
  let mower := default Api.no_mower_state (Api.at_mower attrs) in
  let pos := last_position attrs in
  let conn := Api.at_metadata_connected attrs in
  let activity := Api.mw_activity mower in
  let state := Api.mw_state mower in
  let mode := Api.mw_mode mower in
  let lat := Api.pos_latitude pos in
  let lng := Api.pos_longitude pos in
  let height := num_or (Api.at_settings_cuttingHeight attrs)
                       (Api.at_cutting_height attrs) in
  list_to_map
    [("battery_percent", opt_float battery);
     ("cutting_height", opt_float height);
     ("connected", opt_bool conn);
     ("activity", opt_str activity);
     ("state", opt_str state);
     ("mode", opt_str mode);
     ("activity_num", opt_int (_enum_num activity));
     ("state_num", opt_int (_enum_num state));
     ("mode_num", opt_int (_enum_num mode));
     ("lat", opt_float lat);
     ("lng", opt_float lng)].

Definition poll_item (influx : InfluxWriter) (now : Q) (item : Api.mower)
  : M unit :=
  let mower_id := Api.m_id item in
  let attrs := Api.attrs_of item in
  let name := Py.or_else (Api.name_of item) mower_id in
  (* the summary line is the message itself *)
  log INFO "%s" [ASummary (_summary_line name attrs)] ;;
  log DEBUG "Raw mower item: %r" [AItem item] ;;
  write influx (Py.or_str mower_id "unknown") name (fields_of attrs) now.

Definition run_once (cfg : Config) (influx : InfluxWriter) : M Z :=
  if negb (Py.truthy_str (cfg_client_id cfg)
           && Py.truthy_str (cfg_client_secret cfg)
           && Py.truthy_str (cfg_api_key cfg)
           && Py.truthy_str (cfg_refresh_token cfg))
  then
    log ERROR
        "Missing required env vars (HUSQ_CLIENT_ID/SECRET/APP_KEY/REFRESH_TOKEN)."
        [] ;;
    ret 2
  else
    let* payload := fetch_mowers (cfg_api_key cfg) in
    match default [] (Api.data payload) with
    | [] =>
        log WARNING
            "No mowers returned. Is this Husqvarna account linked to any mowers?"
            [] ;;
        ret 1
    | data =>
        let* now := time_time in
        for_each data (poll_item influx now) ;;
        ret 0
    end.

(** One turn of the [while True] of [run_loop]. *)
Definition loop_turn (cfg : Config) (influx : InfluxWriter) : M unit :=
  try_except (run_once cfg influx ;; ret tt)
             (fun e => log ERROR "Polling error: %s" [AExn e]) ;;
  sleep (Z.max 1 (poll_seconds cfg)).

(** [run_loop], cut after [turns] turns: the loop has no exit of its own,
    so [Ok tt] means that it is still going round. *)
Fixpoint run_loop (turns : nat) (cfg : Config) (influx : InfluxWriter)
  : M unit :=
  match turns with
  | O => ret tt
  | S n => loop_turn cfg influx ;; run_loop n cfg influx
  end.

End Main.

(** ** automower_ctl.py: the action CLI *)

Module Ctl.

(** *** Config *)

Record Config := {
  cfg_client_id : string;
  cfg_client_secret : string;
  cfg_app_key : string;
  cfg_refresh_token : string }.

(** [os.environ.get(k, "").strip()]. *)
Definition g (k : string) : M string :=
  let* w := get_world in
  ret (Py.strip (default "" (environ w !! k))).

Definition missing_of (entries : list (string * string)) : list string :=
  map fst (filter (fun kv => Py.truthy_str (snd kv) = false) entries).

Definition read_cfg : M Config :=
  let* cid := g "HUSQ_CLIENT_ID" in
  let* csecret := g "HUSQ_CLIENT_SECRET" in
  let* akey := g "HUSQ_APP_KEY" in
  let* rt := g "HUSQ_REFRESH_TOKEN" in
  let cfg := {| cfg_client_id := cid; cfg_client_secret := csecret;
                cfg_app_key := akey; cfg_refresh_token := rt |} in
  match missing_of [("HUSQ_CLIENT_ID", cid); ("HUSQ_CLIENT_SECRET", csecret);
                    ("HUSQ_APP_KEY", akey); ("HUSQ_REFRESH_TOKEN", rt)] with
  | [] => ret cfg
  | missing =>
      raise (SystemExit (ExitMsg ("Missing env vars in .env: "
                                  ++ Py.join ", " missing)))
  end.

(** *** Auth *)

Definition get_access_token (cfg : Config)
  : M (string * option string * Z) :=
  let* r := http (PostToken (cfg_refresh_token cfg) (cfg_client_id cfg)
                            (cfg_client_secret cfg)) in
  match r with
  | Failed e => raise e
  | Responded status txt b =>
      (if 400 <=? status
       then eprint ("ERROR: token refresh failed " ++ Py.str_int status
                    ++ ": " ++ txt) ;;
            raise (ClientResponseError status AUTH_TOKEN_URL)
       else ret tt) ;;
      match b with
      | BodyToken js =>
          match Api.access_token js with
          | None => raise (KeyError "access_token")
          | Some access =>
              ret (access, Api.refresh_token js,
                   default 300 (Api.expires_in js))
          end
      | _ => raise ContentTypeError
      end
  end.

Definition KEY : string := "HUSQ_REFRESH_TOKEN=".

(** [str(e)] of the errors of the template parser. *)
Definition template_exn (e : Py.template_error) : exn :=
  match e with
  | Py.BadTemplate msg pos => ReError (msg ++ " at position " ++ pretty pos)
  | Py.UnknownGroup name => IndexError ("unknown group name '" ++ name ++ "'")
  end.

(** What a match is replaced by: the replacement text as it is when it has
    no backslash, the expansion of the template otherwise. *)
Definition replacement (repl : string) : res (string -> string) :=
  if Py.contains "\" repl then
    match Py.parse_template repl with
    | inl e => Raise (template_exn e)
    | inr ps => Ok (Py.expand_template ps)
    end
  else Ok (fun _ => repl).

(** [re.sub(r"^HUSQ_REFRESH_TOKEN=.*$", repl, text, flags=re.MULTILINE)]:
    with [re.MULTILINE] the pattern matches exactly the pieces between
    line feeds that start with the key, each from its first to its last
    character, and every match is replaced.  A replacement that holds a
    backslash is a template; it is parsed before the text is searched, so
    its errors are raised whether or not a line matches. *)
Definition re_sub_entry (repl text : string) : M string :=
  match replacement repl with
  | Raise e => raise e
  | Ok by_ =>
      ret (Py.join Py.NL
             (map (fun ln => if Py.startswith KEY ln then by_ ln else ln)
                  (Py.split_lf text)))
  end.

Definition _persist_rotated_rt (new_rt : string) : M unit :=
  try_except
    (let* ex := path_exists in
     let* text := (if ex then read_text else ret "") in
     let* text' :=
       (if Py.contains KEY text
        then re_sub_entry (KEY ++ new_rt) text
        else
          let text1 :=
            if Py.truthy_str text && negb (Py.endswith_char "010" text)
            then text ++ Py.NL else text in
          ret (text1 ++ KEY ++ new_rt ++ Py.NL)) in
     write_text text' ;;
     print "Note: refresh token rotated and saved to .env")
    (fun e => emit (EvStderrExn "Warning: couldn't persist rotated token: " e)).

(** *** API helpers *)

Definition get_mowers (access_token app_key : string)
  : M Api.mowers_payload :=
  let* r := http (GetMowers (Some access_token) app_key) in
  match r with
  | Failed e => raise e
  | Responded status txt b =>
      (if 400 <=? status
       then eprint ("ERROR: GET /v1/mowers " ++ Py.str_int status
                    ++ ": " ++ txt) ;;
            raise (ClientResponseError status (AMC_BASE ++ "/v1/mowers"))
       else ret tt) ;;
      match b with
      | BodyMowers payload => ret payload
      | _ => raise ContentTypeError
      end
  end.

Definition has_id (mower_id : string) (it : Api.mower) : bool :=
  bool_decide (Api.m_id it = Some mower_id).

Definition has_name (mower_name : string) (it : Api.mower) : bool :=
  bool_decide (Api.name_of it = Some mower_name).

(** One line of the candidate list. *)
Definition candidate_line (it : Api.mower) : string :=
  "- " ++ Py.or_str (Api.name_of it) "(no-name)" ++ "  ("
       ++ Py.str_opt (Api.m_id it) ++ ")".

Definition pick_mower (mowers : Api.mowers_payload)
           (mower_id mower_name : option string) : M Api.mower :=
  let items := default [] (Api.data mowers) in
  match items with
  | [] => raise (SystemExit (ExitMsg "No mowers visible on this account."))
  | first :: others =>
      if Py.truthy mower_id then
        let wanted := default "" mower_id in
        match List.find (has_id wanted) items with
        | Some it => ret it
        | None =>
            raise (SystemExit (ExitMsg ("Mower id '" ++ wanted
                                        ++ "' not found.")))
        end
      else if Py.truthy mower_name then
        let wanted := default "" mower_name in
        match List.find (has_name wanted) items with
        | Some it => ret it
        | None =>
            raise (SystemExit (ExitMsg ("Mower name '" ++ wanted
                                        ++ "' not found.")))
        end
      else if (length items =? 1)%nat then ret first
      else
        eprint "Multiple mowers found; choose one with --mower-id or --mower-name:" ;;
        for_each items (fun it => eprint (candidate_line it)) ;;
        raise (SystemExit (ExitCode 2))
  end.

Definition str_opt_int (o : option Z) : string :=
  match o with Some n => Py.str_int n | None => "None" end.

(** [int(wa.get("workAreaId"))]. *)
Definition int_of_area (wa : Api.work_area) : M Z :=
  match Api.wa_workAreaId wa with
  | Some n => ret n
  | None => raise (TypeError "int() argument must not be None")
  end.

Definition find_work_area_id (mower : Api.mower) (name_or_id : string)
  : M Z :=
  let attrs := Api.attrs_of mower in
  let areas := default [] (Api.at_workAreas attrs) in
  match List.find (fun wa => bool_decide (Api.wa_name wa = Some name_or_id))
                  areas with
  | Some wa => int_of_area wa
  | None =>
      match List.find
              (fun wa => String.eqb (str_opt_int (Api.wa_workAreaId wa))
                                    name_or_id) areas with
      | Some wa => int_of_area wa
      | None =>
          raise (SystemExit (ExitMsg ("Work area '" ++ name_or_id
                                      ++ "' not found on this mower.")))
      end
  end.

Definition action_url (mower_id : option string) : string :=
  AMC_BASE ++ "/v1/mowers/" ++ Py.str_opt mower_id ++ "/actions".

Definition post_action (access_token app_key : string)
           (mower_id : option string) (payload : json) : M unit :=
  let* r := http (PostAction access_token app_key mower_id payload) in
  match r with
  | Failed e => raise e
  | Responded status body _ =>
      if 400 <=? status
      then eprint ("ERROR: POST /v1/mowers/" ++ Py.str_opt mower_id
                   ++ "/actions " ++ Py.str_int status ++ ": " ++ body) ;;
           raise (ClientResponseError status (action_url mower_id))
      else ret tt
  end.

(** *** Action wrappers *)

(** [{"data": {"type": t}}] and [{"data": {"type": t, "attributes": a}}]. *)
Definition action (t : string) : json :=
  JObj [("data", JObj [("type", JStr t)])].

Definition action_with (t : string) (attrs : list (string * json)) : json :=
  JObj [("data", JObj [("type", JStr t); ("attributes", JObj attrs)])].

Definition do_pause (tok app_key : string) (mower_id : option string)
  : M unit :=
  post_action tok app_key mower_id (action "Pause") ;;
  print "OK: mower paused".

Definition do_resume (tok app_key : string) (mower_id : option string)
           (fallback_start : bool) : M unit :=
  try_except
    (post_action tok app_key mower_id (action "ResumeSchedule"))
    (fun e =>
       if fallback_start
       then post_action tok app_key mower_id (action "Start")
       else raise e) ;;
  print "OK: mower resumed".

Definition do_start (tok app_key : string) (mower_id : option string)
           (work_area_id duration : option Z) : M unit :=
  let attrs :=
    app (match work_area_id with
         | Some n => [("workAreaId", JInt n)]
         | None => []
         end)
        (match duration with
         | Some n => [("duration", JInt n)]
         | None => []
         end) in
  let payload :=
    match attrs with
    | [] => action "Start"
    | _ => action_with "Start" attrs
    end in
  post_action tok app_key mower_id payload ;;
  let area_txt :=
    match work_area_id with
    | Some n => " in work area " ++ Py.str_int n
    | None => ""
    end in
  let dur_txt :=
    match duration with
    | Some n => " for " ++ Py.str_int n ++ " min"
    | None => ""
    end in
  print ("OK: mower started" ++ area_txt ++ dur_txt).

(** The request that [do_park] builds. *)
Definition park_payload (duration : option Z) (until_next : bool) : json :=
  if until_next then action "ParkUntilNextSchedule"
  else match duration with
       | None => action "ParkUntilFurtherNotice"
       | Some n => action_with "Park" [("duration", JInt n)]
       end.

Definition do_park (tok app_key : string) (mower_id : option string)
           (duration : option Z) (until_next : bool) : M unit :=
  post_action tok app_key mower_id (park_payload duration until_next) ;;
  if until_next then print "OK: mower parked until next schedule"
  else match duration with
       | None => print "OK: mower parked (until further notice)"
       | Some n => print ("OK: mower parked for " ++ Py.str_int n
                          ++ " minutes")
       end.

Definition do_confirm_error (tok app_key : string)
           (mower_id : option string) : M unit :=
  post_action tok app_key mower_id (action "ConfirmError") ;;
  print "OK: error confirmed (if any)".

Definition do_set_cutting_height (tok app_key : string)
           (mower_id : option string) (height : Z) : M unit :=
  post_action tok app_key mower_id
              (action_with "settings" [("cuttingHeight", JInt height)]) ;;
  print ("OK: cutting height set to " ++ Py.str_int height).

Definition caps_of (mower : Api.mower) : Api.capabilities :=
  default Api.no_capabilities (Api.at_capabilities (Api.attrs_of mower)).

Definition do_set_headlight (tok app_key : string) (mower : Api.mower)
           (mode : string) : M unit :=
  let caps := caps_of mower in
  if negb (default false (Api.cap_headlights caps)) then
    let name := Py.or_else (Api.name_of mower) (Api.m_id mower) in
    eprint ("Model has no headlights capability (headlights=False) for '"
            ++ Py.str_opt name ++ "'.")
  else
    let mower_id := Api.m_id mower in
    post_action tok app_key mower_id
                (action_with "settings"
                             [("headlight", JObj [("mode", JStr mode)])]) ;;
    print ("OK: headlight mode set to " ++ mode).

(** *** Discovery / listing *)

Definition print_list_actions (mower : Api.mower) : M unit :=
  let attrs := Api.attrs_of mower in
  let sysinfo := default Api.no_system (Api.at_system attrs) in
  let caps := caps_of mower in
  let work_areas := default [] (Api.at_workAreas attrs) in
  let mower_name := Py.or_else (Api.sys_name sysinfo) (Api.m_id mower) in
  let model := default "(unknown)" (Api.sys_model sysinfo) in
  print ("Supported actions for " ++ Py.str_opt mower_name ++ " ("
         ++ model ++ "):") ;;
  print "- Pause" ;;
  print "- ResumeSchedule" ;;
  print "- Start [--duration N] [--work-area NAME|ID]" ;;
  print "- Park [--duration N]" ;;
  print "- ParkUntilNextSchedule" ;;
  print "- ParkUntilFurtherNotice" ;;
  (if default false (Api.cap_canConfirmError caps)
   then print "- ConfirmError"
   else print "- ConfirmError (not supported by this model)") ;;
  (if default false (Api.cap_workAreas caps)
   then
     print (Py.NL ++ "Work areas on this mower:") ;;
     for_each work_areas
              (fun wa => print ("  â€¢ " ++ Py.str_opt (Api.wa_name wa)
                                ++ " (id=" ++ str_opt_int (Api.wa_workAreaId wa)
                                ++ ")")) ;;
     print "Note: many backends require --duration when you pass --work-area."
   else ret tt) ;;
  (if default false (Api.cap_headlights caps)
   then
     print (Py.NL ++ "Settings (headlights supported):") ;;
     print "- set-headlight ALWAYS_ON|ALWAYS_OFF|EVENING_ONLY"
   else
     print (Py.NL ++ "Settings:") ;;
     print "- set-headlight (not supported on this model)") ;;
  print "- set-height <value>  (model-specific scale)" ;;
  let mower_state := default Api.no_mower_state (Api.at_mower attrs) in
  print (Py.NL ++ "Current state: state="
         ++ Py.str_opt (Api.mw_state mower_state) ++ ", activity="
         ++ Py.str_opt (Api.mw_activity mower_state)).

(** *** CLI *)

Inductive headlight_mode := ALWAYS_ON | ALWAYS_OFF | EVENING_ONLY.

Definition mode_text (m : headlight_mode) : string :=
  match m with
  | ALWAYS_ON => "ALWAYS_ON"
  | ALWAYS_OFF => "ALWAYS_OFF"
  | EVENING_ONLY => "EVENING_ONLY"
  end.

(** The subcommand that [build_parser] accepts, with its own flags. *)
Inductive command :=
  | CmdListActions
  | CmdPause
  | CmdResume (fallback_start : bool)
  | CmdStart (work_area : option string) (duration : option Z)
  | CmdPark (duration : option Z) (until_next : bool)
  | CmdConfirmError
  | CmdSetHeight (height : Z)
  | CmdSetHeadlight (mode : headlight_mode).

Record args := {
  arg_mower_id : option string;
  arg_mower_name : option string;
  arg_cmd : command }.

(** *** Main *)

(** [try: body / except aiohttp.ClientResponseError as e: ...; raise]:
    the status line goes to the error channel and the same exception is
    raised again (reading [e.response] fails and is passed over). *)
Definition reporting_http_errors (body : M unit) : M unit :=
  fun w => match body w with
           | (Raise (ClientResponseError status url), w') =>
               (Raise (ClientResponseError status url),
                add_event (EvStderr ("HTTP " ++ Py.str_int status ++ " on "
                                     ++ url)) w')
           | r => r
           end.

(** The token exchange at the start of [main] and the test that guards the
    persist call; the configuration object is handed back as it is after
    these lines. *)
Definition main_auth (cfg : Config) : M (string * Config) :=
  let* tok := get_access_token cfg in
  let '(access, rotated, _) := tok in
  (match rotated with
   | Some new_rt =>
       if Py.truthy_str new_rt
          && negb (String.eqb new_rt (cfg_refresh_token cfg))
       then _persist_rotated_rt new_rt
       else ret tt
   | None => ret tt
   end) ;;
  ret (access, cfg).

Definition dispatch (a : args) (access : string) (cfg : Config)
           (mower : Api.mower) : M unit :=
  let mid := Api.m_id mower in
  match arg_cmd a with
  | CmdListActions => print_list_actions mower
  | CmdPause => do_pause access (cfg_app_key cfg) mid
  | CmdResume fallback_start =>
      do_resume access (cfg_app_key cfg) mid fallback_start
  | CmdStart work_area duration =>
      let* wa_id :=
        (if Py.truthy work_area
         then let* n := find_work_area_id mower (default "" work_area) in
              ret (Some n)
         else ret None) in
      do_start access (cfg_app_key cfg) mid wa_id duration
  | CmdPark duration until_next =>
      do_park access (cfg_app_key cfg) mid duration until_next
  | CmdConfirmError => do_confirm_error access (cfg_app_key cfg) mid
  | CmdSetHeight height =>
      do_set_cutting_height access (cfg_app_key cfg) mid height
  | CmdSetHeadlight mode =>
      do_set_headlight access (cfg_app_key cfg) mower (mode_text mode)
  end.

Definition main (a : args) : M unit :=
  let* cfg := read_cfg in
  let* ac := main_auth cfg in
  let access := fst ac in
  let* mowers := get_mowers access (cfg_app_key cfg) in
  let* mower := pick_mower mowers (arg_mower_id a) (arg_mower_name a) in
  reporting_http_errors (dispatch a access cfg mower).

End Ctl.

(** ** The [if __name__ == "__main__"] block of both CLIs *)

Inductive process_end :=
  | Exit (status : Z)
  | Interrupted.

(** [sys.exit(e.code)] for a [SystemExit] (a text code is written to the
    error channel and the status is 1), status 1 after [ERROR: ...] for any
    other [Exception], status 0 when [main] returns. *)
Definition run_script (main : M unit) (w : world) : process_end * world :=
  match main w with
  | (Ok _, w') => (Exit 0, w')
  | (Raise (SystemExit (ExitCode n)), w') => (Exit n, w')
  | (Raise (SystemExit (ExitMsg msg)), w') =>
      (Exit 1, add_event (EvStderr msg) w')
  | (Raise KeyboardInterrupt, w') => (Interrupted, w')
  | (Raise e, w') => (Exit 1, add_event (EvStderrExn "ERROR: " e) w')
  end.

(** ** amc_action.py: the small CLI *)

Module Amc.

Record Config := {
  client_id : string;
  client_secret : string;
  app_key : string;
  refresh_token : string }.

(** [g] of [read_cfg]: a missing variable is reported, not refused. *)
Definition g (k : string) : M string :=
  let* w := get_world in
  let v := Py.strip (default "" (environ w !! k)) in
  (if negb (Py.truthy_str v)
   then eprint ("Missing " ++ k ++ " in .env")
   else ret tt) ;;
  ret v.

Definition read_cfg : M Config :=
  let* cid := g "HUSQ_CLIENT_ID" in
  let* csecret := g "HUSQ_CLIENT_SECRET" in
  let* akey := g "HUSQ_APP_KEY" in
  let* rt := g "HUSQ_REFRESH_TOKEN" in
  ret {| client_id := cid; client_secret := csecret; app_key := akey;
         refresh_token := rt |}.

Definition get_access_token (cfg : Config)
  : M (string * option string * Z) :=
  let* r := http (PostToken (refresh_token cfg) (client_id cfg)
                            (client_secret cfg)) in
  match r with
  | Failed e => raise e
  | Responded status txt b =>
      (if 400 <=? status
       then eprint ("Token refresh failed " ++ Py.str_int status
                    ++ ": " ++ txt) ;;
            raise (ClientResponseError status AUTH_TOKEN_URL)
       else ret tt) ;;
      match b with
      | BodyToken js =>
          match Api.access_token js with
          | None => raise (KeyError "access_token")
          | Some access =>
              ret (access, Api.refresh_token js,
                   default 300 (Api.expires_in js))
          end
      | _ => raise ContentTypeError
      end
  end.

(** The same routine, word for word, as in [automower_ctl.py]. *)
Definition _persist_rotated_rt (new_rt : string) : M unit :=
  Ctl._persist_rotated_rt new_rt.

Definition list_mowers (access_token app_key : string)
  : M Api.mowers_payload :=
  let* r := http (GetMowers (Some access_token) app_key) in
  match r with
  | Failed e => raise e
  | Responded status txt b =>
      (if 400 <=? status
       then eprint ("GET /v1/mowers " ++ Py.str_int status ++ ": " ++ txt) ;;
            raise (ClientResponseError status (AMC_BASE ++ "/v1/mowers"))
       else ret tt) ;;
      match b with
      | BodyMowers payload => ret payload
      | _ => raise ContentTypeError
      end
  end.

Definition candidate_line (it : Api.mower) : string :=
  "- " ++ Py.or_str (Api.name_of it) "(no-name)" ++ " ("
       ++ Py.str_opt (Api.m_id it) ++ ")".

(** [it["id"]]. *)
Definition id_of (it : Api.mower) : M string :=
  match Api.m_id it with
  | Some i => ret i
  | None => raise (KeyError "id")
  end.

Definition pick_mower (mowers : Api.mowers_payload)
           (mower_id mower_name : option string) : M string :=
  let items := default [] (Api.data mowers) in
  match items with
  | [] => raise (SystemExit (ExitMsg "No mowers visible on this account."))
  | first :: others =>
      if Py.truthy mower_id then
        let wanted := default "" mower_id in
        match List.find (Ctl.has_id wanted) items with
        | Some it => ret wanted
        | None =>
            raise (SystemExit (ExitMsg ("Mower id '" ++ wanted
                                        ++ "' not found.")))
        end
      else if Py.truthy mower_name then
        let wanted := default "" mower_name in
        match List.find (Ctl.has_name wanted) items with
        | Some it => id_of it
        | None =>
            raise (SystemExit (ExitMsg ("Mower name '" ++ wanted
                                        ++ "' not found.")))
        end
      else if (length items =? 1)%nat then id_of first
      else
        eprint "Multiple mowers found; use --mower-id or --mower-name:" ;;
        for_each items (fun it => eprint (candidate_line it)) ;;
        raise (SystemExit (ExitCode 2))
  end.

Definition post_action (access_token app_key mower_id : string)
           (payload : json) : M unit :=
  let* r := http (PostAction access_token app_key (Some mower_id) payload) in
  match r with
  | Failed e => raise e
  | Responded status body _ =>
      if 400 <=? status
      then eprint ("POST /v1/mowers/" ++ mower_id ++ "/actions "
                   ++ Py.str_int status ++ ": " ++ body) ;;
           raise (ClientResponseError status
                                      (Ctl.action_url (Some mower_id)))
      else ret tt
  end.

Inductive command :=
  | CmdPause
  | CmdResume (fallback_start : bool)
  | CmdPark (duration : option Z).

Record args := {
  arg_mower_id : option string;
  arg_mower_name : option string;
  arg_cmd : command }.

Definition missing_of (entries : list (string * string)) : list string :=
  map fst (filter (fun kv => Py.truthy_str (snd kv) = false) entries).

(** The request the [park] branch of [main] builds. *)
Definition park_payload (duration : option Z) : json :=
  match duration with
  | None => Ctl.action "ParkUntilFurtherNotice"
  | Some n => Ctl.action_with "Park" [("duration", JInt n)]
  end.

(** The [resume] branch of [main]. *)
Definition resume (access app_key mid : string) (fallback_start : bool)
  : M unit :=
  try_except
    (post_action access app_key mid (Ctl.action "ResumeSchedule"))
    (fun e =>
       if fallback_start
       then post_action access app_key mid (Ctl.action "Start")
       else raise e) ;;
  print "OK: mower resumed".

Definition main (a : args) : M unit :=
  let* cfg := read_cfg in
  match missing_of [("client_id", client_id cfg);
                    ("client_secret", client_secret cfg);
                    ("app_key", app_key cfg);
                    ("refresh_token", refresh_token cfg)] with
  | (_ :: _) as missing =>
      raise (SystemExit (ExitMsg ("Missing env vars in .env: "
                                  ++ Py.join ", " missing)))
  | [] =>
      let* tok := get_access_token cfg in
      let '(access, rotated, _) := tok in
      (match rotated with
       | Some new_rt =>
           if Py.truthy_str new_rt
              && negb (String.eqb new_rt (refresh_token cfg))
           then _persist_rotated_rt new_rt
           else ret tt
       | None => ret tt
       end) ;;
      let* mowers := list_mowers access (app_key cfg) in
      let* mid := pick_mower mowers (arg_mower_id a) (arg_mower_name a) in
      match arg_cmd a with
      | CmdPause =>
          post_action access (app_key cfg) mid (Ctl.action "Pause") ;;
          print "OK: mower paused"
      | CmdResume fallback_start =>
          resume access (app_key cfg) mid fallback_start
      | CmdPark duration =>
          post_action access (app_key cfg) mid (park_payload duration) ;;
          match duration with
          | None => print "OK: mower parked (until further notice)"
          | Some n => print ("OK: mower parked for " ++ Py.str_int n
                             ++ " minutes")
          end
      end
  end.

End Amc.

(** ** get_refresh_token.py: writing the first refresh token *)

Module Grt.

Definition KEY : string := "HUSQ_REFRESH_TOKEN=".

(** [update_dotenv]: the entry is written by index into the list of lines
    ([lines[i] = ...] at the first line that, stripped, starts with the
    key) or appended when the loop leaves [wrote] false.  Nothing is
    caught here: a failing file operation raises. *)
Definition update_dotenv (refresh_token : string) : M unit :=
  let* ex := path_exists in
  if negb ex then write_text (KEY ++ refresh_token ++ Py.NL)
  else
    let* text := read_text in
    let lines := Py.splitlines text in
    let lines' :=
      match list_find (fun line => Py.startswith KEY (Py.strip line) = true)
                      lines with
      | Some (i, _) => <[i := (KEY ++ refresh_token)%string]> lines
      | None => (lines ++ [(KEY ++ refresh_token)%string])%list
      end in
    write_text (Py.join Py.NL lines' ++ Py.NL).

End Grt.

(** ** main.py: the command line of the poller *)

Module MainCli.

(** What [parse_args] answers. *)
Record args := {
  arg_debug : bool;
  arg_trace : bool;
  arg_once : bool;
  arg_poll_seconds : option Z }.

Definition with_poll_seconds (n : Z) (cfg : Main.Config) : Main.Config :=
  {| Main.cfg_client_id := Main.cfg_client_id cfg;
     Main.cfg_client_secret := Main.cfg_client_secret cfg;
     Main.cfg_api_key := Main.cfg_api_key cfg;
     Main.cfg_refresh_token := Main.cfg_refresh_token cfg;
     Main.poll_seconds := n;
     Main.influx_url := Main.influx_url cfg;
     Main.influx_token := Main.influx_token cfg;
     Main.influx_org := Main.influx_org cfg;
     Main.influx_bucket := Main.influx_bucket cfg;
     Main.measurement := Main.measurement cfg |}.

(** [try: body / except KeyboardInterrupt: handler]. *)
Definition on_interrupt {A} (body handler : M A) : M A :=
  fun w => match body w with
           | (Raise KeyboardInterrupt, w') => handler w'
           | r => r
           end.

(** [main], from the parsed arguments on.  [read_config] is the reading of
    the environment (its [int()] of [POLL_SECONDS] is not modelled, so it is
    taken as a computation), [installed] tells whether [influxdb_client]
    could be imported, and [turns] cuts the loop as in [Main.run_loop]: the
    answer [None] means that the loop is still going round.  [setup_logging]
    only configures the logger; the debug record of the configuration is
    kept without its rendering of the object. *)
Definition main (read_config : M Main.Config) (installed : bool)
           (turns : nat) (a : args) : M (option Z) :=
  let* cfg0 := read_config in
  let cfg :=
    match arg_poll_seconds a with
    | Some n => with_poll_seconds n cfg0
    | None => cfg0
    end in
  let* influx := Main.InfluxWriter_init installed cfg in
  put_auth (Main.StaticAuth_init (Main.cfg_client_id cfg)
                                 (Main.cfg_client_secret cfg)
                                 (Main.cfg_api_key cfg)
                                 (Main.cfg_refresh_token cfg)) ;;
  log DEBUG "Config: %r" [] ;;
  on_interrupt
    (if arg_once a
     then let* code := Main.run_once cfg influx in ret (Some code)
     else Main.run_loop turns cfg influx ;; ret None)
    (log INFO "Interrupted by user." [] ;; ret (Some 130)).

End MainCli.

(** ** Sample inputs *)

Module Sample.

Definition token_body (rt : option string) : Api.token_response :=
  {| Api.access_token := Some "access-1"; Api.refresh_token := rt;
     Api.expires_in := Some 3600 |}.

Definition named (i n : string) (lights : option bool) : Api.mower :=
  {| Api.m_id := Some i;
     Api.m_attributes :=
       Some {| Api.at_system :=
                 Some {| Api.sys_name := Some n; Api.sys_model := None |};
               Api.at_capabilities :=
                 Some {| Api.cap_headlights := lights;
                         Api.cap_canConfirmError := None;
                         Api.cap_workAreas := None |};
               Api.at_workAreas := None; Api.at_mower := None;
               Api.at_battery_batteryPercent := None;
               Api.at_positions := None;
               Api.at_settings_cuttingHeight := None;
               Api.at_cutting_height := None;
               Api.at_metadata_connected := None |} |}.

Definition three_mowers : list Api.mower :=
  [named "1" "A" None; named "2" "B" (Some true); named "3" "C" (Some false)].

(** A remote side that rotates the refresh token, lists [mowers] and
    accepts every action. *)
Definition net_of (rt : option string) (mowers : list Api.mower)
           (tr : list event) (r : request) : outcome :=
  match r with
  | PostToken _ _ _ => Responded 200 "" (BodyToken (token_body rt))
  | GetMowers _ _ =>
      Responded 200 "" (BodyMowers {| Api.data := Some mowers |})
  | PostAction _ _ _ _ => Responded 202 "" BodyOther
  | InfluxWrite _ _ => Responded 204 "" BodyOther
  end.

(** A remote side that refuses [ResumeSchedule] and accepts the rest. *)
Definition net_no_resume (tr : list event) (r : request) : outcome :=
  match r with
  | PostAction _ _ _ (JObj [("data", JObj [("type", JStr t)])]) =>
      if String.eqb t "ResumeSchedule"
      then Responded 409 "not allowed" BodyOther
      else Responded 202 "" BodyOther
  | _ => net_of None three_mowers tr r
  end.

Definition env_text : string :=
  "HUSQ_CLIENT_ID=cid" ++ Py.NL ++ "HUSQ_REFRESH_TOKEN=rt-old" ++ Py.NL
  ++ "HUSQ_APP_KEY=key" ++ Py.NL.

Definition world_with (file : option string) (writable : bool)
           (answers : list event -> request -> outcome) : world :=
  {| env_file := file;
     env_io := {| io_read := ReadOk;
                  io_write := if writable then WriteOk else OpenRefused |};
     environ := list_to_map [("HUSQ_CLIENT_ID", "cid");
                             ("HUSQ_CLIENT_SECRET", "secret");
                             ("HUSQ_APP_KEY", "key");
                             ("HUSQ_REFRESH_TOKEN", "rt-old")];
     clock := 1000%Q; net := answers;
     auth := Main.StaticAuth_init "cid" "secret" "key" "rt-old";
     trace := [] |}.

Definition world0 : world :=
  world_with (Some env_text) true (net_of (Some "rt-new") three_mowers).

Definition world_read_only : world :=
  world_with (Some env_text) false (net_of (Some "rt-new") three_mowers).

(** The same world on a full disk: the file can be opened for writing but
    nothing can be written to it. *)
Definition world_disk_full : world :=
  {| env_file := Some env_text;
     env_io := {| io_read := ReadOk; io_write := WriteFails |};
     environ := environ world0; clock := clock world0; net := net world0;
     auth := auth world0; trace := [] |}.

(** A remote side whose device list cannot be reached, and one on which
    the wait for the device list is interrupted. *)
Definition net_down (tr : list event) (r : request) : outcome :=
  match r with
  | GetMowers _ _ => Failed (ClientConnectionError "connection refused")
  | _ => net_of None three_mowers tr r
  end.

Definition net_interrupted (tr : list event) (r : request) : outcome :=
  match r with
  | GetMowers _ _ => Failed KeyboardInterrupt
  | _ => net_of None three_mowers tr r
  end.

Definition poll_cfg (seconds : Z) : Main.Config :=
  {| Main.cfg_client_id := "cid"; Main.cfg_client_secret := "secret";
     Main.cfg_api_key := "key"; Main.cfg_refresh_token := "rt-old";
     Main.poll_seconds := seconds;
     Main.influx_url := "http://127.0.0.1:8086"; Main.influx_token := "";
     Main.influx_org := "home"; Main.influx_bucket := "automower";
     Main.measurement := "automower_status" |}.

Definition no_influx (cfg : Main.Config) : Main.InfluxWriter :=
  {| Main.enabled := false; Main.iw_cfg := cfg |}.

Definition world_no_resume : world :=
  world_with (Some env_text) true net_no_resume.

End Sample.

(** ** Observations on worlds and traces *)

Local Open Scope list_scope.

(** The requests of a trace, in order. *)
Definition requests_of (tr : list event) : list request :=
  omap (fun e => match e with EvRequest r => Some r | _ => None end) tr.

Definition is_token_post (r : request) : bool :=
  match r with PostToken _ _ _ => true | _ => false end.

(** How many exchanges with the token endpoint a trace holds. *)
Definition token_posts (tr : list event) : nat :=
  length (filter (fun r => is_token_post r = true) (requests_of tr)).

(** The pauses of a trace, in order. *)
Definition sleeps_of (tr : list event) : list Z :=
  omap (fun e => match e with EvSleep s => Some s | _ => None end) tr.

(** The operations on the credential file, in order. *)
Definition is_file_event (e : event) : bool :=
  match e with EvTruncate | EvWrite _ => true | _ => false end.

Definition file_events (tr : list event) : list event :=
  filter (fun e => is_file_event e = true) tr.

(** The lines written to the error channel, in order. *)
Definition stderr_of (tr : list event) : list string :=
  omap (fun e => match e with EvStderr s => Some s | _ => None end) tr.

(** What a run added to the trace. *)
Definition added (w w' : world) : list event :=
  drop (length (trace w)) (trace w').

(** The credential file after one operation on it, and after each prefix
    of a list of operations: the states a crash can leave behind. *)
Definition file_step (f : option string) (e : event) : option string :=
  match e with
  | EvTruncate => Some ""
  | EvWrite text => Some text
  | _ => f
  end.

Fixpoint crash_states (f : option string) (evs : list event)
  : list (option string) :=
  match evs with
  | [] => [f]
  | e :: rest => f :: crash_states (file_step f e) rest
  end.

(** The value a field leaves in the point, if any. *)
Definition to_point_value (v : field_value) : option point_value :=
  match v with
  | FNone => None
  | FBool b => Some (PBool b)
  | FInt n => Some (PInt n)
  | FFloat q => Some (PFloat q)
  | FStr s => Some (PStr s)
  end.

(** A dictionary of fields without a truth value, and the point the writer
    builds from such a dictionary. *)
Definition is_bool_field (v : field_value) : bool :=
  match v with FBool _ => true | _ => false end.

Definition bool_free (fields : gmap string field_value) : Prop :=
  map_Forall (fun _ v => is_bool_field v = false) fields.

Definition plain_point (cfg : Main.Config) (mower_id : string)
           (name : option string) (fields : gmap string field_value)
           (ts : Q) : point :=
  {| p_measurement := Main.measurement cfg;
     p_tags := [("mower_id"%string, Some mower_id); ("name"%string, name)];
     p_fields := omap to_point_value fields;
     p_time := ts |}.

Definition no_boolean_field : exn :=
  AttributeError "'Point' object has no attribute 'boolean_field'".


(** A run of [get_access_token] calls at the given clock readings; what a
    call returns or raises is left to its caller. *)
Fixpoint calls_at (times : list Q) (w : world) : world :=
  match times with
  | [] => w
  | t :: rest =>
      calls_at rest (snd (Main.async_get_access_token (set_clock t w)))
  end.

(** [m] only appends to the trace, and only events that pass [p]. *)
Definition appends (p : event -> bool) {A} (m : M A) : Prop :=
  forall w, exists evs,
    trace (snd (m w)) = trace w ++ evs /\ forallb p evs = true.

Definition not_request (e : event) : bool :=
  match e with EvRequest _ => false | _ => true end.

Definition not_sleep (e : event) : bool :=
  match e with EvSleep _ => false | _ => true end.

(** The text [_persist_refresh_token_to_env] writes over a file that is
    absent or holds [old]. *)
Definition main_new_text (old : option string) (new_rt : string) : string :=
  match old with
  | None => (Main.KEY ++ new_rt ++ Py.NL)%string
  | Some text =>
      (Py.join Py.NL (Main.updated_lines (Py.splitlines text) new_rt)
       ++ Py.NL)%string
  end.

(** The lines of that text. *)
Definition main_new_lines (old : option string) (new_rt : string)
  : list string :=
  match old with
  | None => [(Main.KEY ++ new_rt)%string]
  | Some text => Main.updated_lines (Py.splitlines text) new_rt
  end.

Definition is_entry_line (ln : string) : bool :=
  Py.startswith Main.KEY (Py.strip ln).

(** The world after a write of [text] that goes through. *)
Definition written (text : string) (w : world) : world :=
  add_event (EvWrite text)
    (set_env_file (Some text)
       (add_event EvTruncate (set_env_file (Some ""%string) w))).

(** The world after an opening for writing that went through and a write
    that then failed: the file is empty. *)
Definition truncated (w : world) : world :=
  add_event EvTruncate (set_env_file (Some ""%string) w).

(** The record the poller's persist routine logs when it caught [e]. *)
Definition persist_warning_of (e : exn) : event :=
  EvLog WARNING "Could not persist rotated refresh token to .env: %s"
        [AExn e].

Definition persist_warning : event :=
  persist_warning_of (OSError "Permission denied").

(** The text the programs get when they read the credential file. *)
Definition text_read (w : world) : option string :=
  Py.universal_newlines <$> env_file w.

(** What a read of an existing file raises, if anything. *)
Definition read_error (w : world) : option exn :=
  match env_file w with
  | None => None
  | Some _ =>
      match io_read (env_io w) with
      | ReadOk => None
      | ReadDenied => Some (OSError "Permission denied")
      | ReadUndecodable => Some (UnicodeError "invalid start byte")
      end
  end.

(** The world [_persist_refresh_token_to_env] leaves: the file rewritten
    when it could be read and written; otherwise a warning in the log, over
    the file as it was when the read or the opening failed, and over an
    empty file when the write failed after the opening. *)
Definition main_persisted (new_rt : string) (w : world) : world :=
  match read_error w with
  | Some e => add_event (persist_warning_of e) w
  | None =>
      match io_write (env_io w) with
      | WriteOk => written (main_new_text (text_read w) new_rt) w
      | OpenRefused => add_event persist_warning w
      | WriteFails =>
          add_event (persist_warning_of (OSError "No space left on device"))
                    (truncated w)
      end
  end.

(** A remote side whose token lives 30 seconds, and a world whose clock
    reads the double nearest to one tenth of a second. *)
Definition net_short_lived (tr : list event) (r : request) : outcome :=
  match r with
  | PostToken _ _ _ =>
      Responded 200 ""
        (BodyToken {| Api.access_token := Some "access-1";
                      Api.refresh_token := None;
                      Api.expires_in := Some 30 |})
  | _ => Sample.net_of None Sample.three_mowers tr r
  end.

Definition world_tenth : world :=
  set_clock (3602879701896397 # 36028797018963968)%Q
    (Sample.world_with (Some Sample.env_text) true net_short_lived).

(** What [now + int(expires_in)] raises for a lifetime beyond the
    doubles. *)
Definition lifetime_overflow : exn :=
  OverflowError "int too large to convert to float".

(** A remote side whose token reports a lifetime of [2^1024] seconds. *)
Definition net_long_lived (tr : list event) (r : request) : outcome :=
  match r with
  | PostToken _ _ _ =>
      Responded 200 ""
        (BodyToken {| Api.access_token := Some "access-1";
                      Api.refresh_token := Some "rt-new";
                      Api.expires_in := Some (2 ^ 1024) |})
  | _ => Sample.net_of None Sample.three_mowers tr r
  end.

Definition world_long_lived : world :=
  Sample.world_with (Some Sample.env_text) true net_long_lived.

(** The expiry stored after an exchange at the clock reading [now] that
    reported a lifetime of [secs] seconds. *)
Definition expiry_of (now : Q) (secs : Z) : Q :=
  Py.float_add now (Py.float_round (inject_Z secs)).

(** The world right after a successful exchange, before the rotation block
    runs: request sent, token cached, debug record written. *)
Definition exchanged (at_ : string) (secs : Z) (w : world) : world :=
  add_event
    (EvLog DEBUG "Refreshed access token; expires_in=%ss" [AInt secs])
    (set_auth (Main.set_expiry (expiry_of (clock w) secs)
                               (Main.set_token at_ (auth w)))
       (add_event (EvRequest (PostToken (refresh_token (auth w))
                                        (client_id (auth w))
                                        (client_secret (auth w)))) w)).

(** The text [_persist_rotated_rt] computes from what it read of the file
    ([old], nothing for an absent file); an exception when the replacement
    is a template with an error. *)
Definition ctl_new_text (old : option string) (new_rt : string)
  : res string :=
  let text := default ""%string old in
  if Py.contains Ctl.KEY text then
    match Ctl.replacement (Ctl.KEY ++ new_rt)%string with
    | Raise e => Raise e
    | Ok by_ =>
        Ok (Py.join Py.NL
              (map (fun ln => if Py.startswith Ctl.KEY ln then by_ ln else ln)
                   (Py.split_lf text)))
    end
  else
    Ok ((if Py.truthy_str text && negb (Py.endswith_char "010" text)
         then text ++ Py.NL else text)
        ++ Ctl.KEY ++ new_rt ++ Py.NL)%string.

(** The line the one-shot CLIs print to the error channel when their
    persist routine caught [e]. *)
Definition ctl_warning (e : exn) : event :=
  EvStderrExn "Warning: couldn't persist rotated token: " e.

(** The world [_persist_rotated_rt] leaves: the file rewritten and a note
    printed when the file could be read, the new text computed and the file
    written; otherwise a warning, over the file as it was, or over an empty
    file when the write failed after the opening. *)
Definition ctl_persisted (new_rt : string) (w : world) : world :=
  match read_error w with
  | Some e => add_event (ctl_warning e) w
  | None =>
      match ctl_new_text (text_read w) new_rt with
      | Raise e => add_event (ctl_warning e) w
      | Ok text =>
          match io_write (env_io w) with
          | WriteOk =>
              add_event
                (EvStdout "Note: refresh token rotated and saved to .env")
                (written text w)
          | OpenRefused => add_event (ctl_warning (OSError "Permission denied")) w
          | WriteFails =>
              add_event (ctl_warning (OSError "No space left on device"))
                        (truncated w)
          end
      end
  end.

(** A credential file whose refresh-token entry is commented out. *)
Definition commented_env : string :=
  ("HUSQ_CLIENT_ID=cid" ++ Py.NL ++ "# HUSQ_REFRESH_TOKEN=" ++ Py.NL)%string.

Definition world_commented : world :=
  Sample.world_with (Some commented_env) true
                    (Sample.net_of (Some "rt-new"%string) Sample.three_mowers).

(** A routine rewrites the credential file in place when every run of it
    either leaves the file alone, or opens it for writing, which empties
    it, and then writes the whole new text, or opens it for writing and
    fails to write, which leaves it empty; so that the states a crash can
    leave are the old file, the empty file and the new file, and the
    states a completed run can leave are the same three. *)
Definition rewrites_in_place (persist : string -> M unit) : Prop :=
  forall new_rt w,
    let w' := snd (persist new_rt w) in
    (file_events (added w w') = [] /\ env_file w' = env_file w)
    \/ (exists text,
          io_write (env_io w) = WriteOk
          /\ file_events (added w w') = [EvTruncate; EvWrite text]
          /\ env_file w' = Some text
          /\ crash_states (env_file w) (file_events (added w w'))
             = [env_file w; Some ""%string; Some text])
    \/ (io_write (env_io w) = WriteFails
        /\ file_events (added w w') = [EvTruncate]
        /\ env_file w' = Some ""%string).

(** What the resume operation owes to its caller, for a run that posts the
    [primary] request first and may post the [fallback] request: [post]
    sends one request and [run fallback_start] is the operation. *)
Record resume_contract (post : json -> M unit) (run : bool -> M unit)
       (primary_rq fallback_rq : request) : Prop := {
  (** the primary action succeeds: it is the only request *)
  primary_ok :
    forall fb w w1,
      post (Ctl.action "ResumeSchedule") w = (Ok tt, w1) ->
      run fb w = (Ok tt, add_event (EvStdout "OK: mower resumed") w1)
      /\ requests_of (added w (snd (run fb w))) = [primary_rq];
  (** it fails and the fallback was asked for: the run goes on as one post
      of the fallback action from where the primary left off, and the
      error of the primary is dropped *)
  fallback_once :
    forall e w w1,
      post (Ctl.action "ResumeSchedule") w = (Raise e, w1) ->
      is_Exception e = true ->
      run true w
      = bind (post (Ctl.action "Start"))
             (fun _ => print "OK: mower resumed") w1
      /\ requests_of (added w (snd (run true w))) = [primary_rq; fallback_rq];
  (** it fails and the fallback was not asked for: the same error goes up
      and nothing else is sent *)
  no_fallback :
    forall e w w1,
      post (Ctl.action "ResumeSchedule") w = (Raise e, w1) ->
      run false w = (Raise e, w1)
      /\ requests_of (added w (snd (run false w))) = [primary_rq];
  (** in every run the primary request goes first *)
  primary_first :
    forall fb w,
      exists rest, requests_of (added w (snd (run fb w))) = primary_rq :: rest
}.

(** The shape both CLIs give to the resume operation, over the routine
    [post] that sends one action. *)
Definition resume_pattern (post : json -> M unit) (fallback_start : bool)
  : M unit :=
  bind (try_except
          (post (Ctl.action "ResumeSchedule"))
          (fun e =>
             if fallback_start then post (Ctl.action "Start") else raise e))
       (fun _ => print "OK: mower resumed").

(** The records logged at level [ERROR], in order. *)
Definition errors_logged (tr : list event) : list (string * list log_arg) :=
  omap (fun e => match e with
                 | EvLog ERROR fmt args => Some (fmt, args)
                 | _ => None
                 end) tr.






(** ** Further observations *)

(** The lines written to the standard output, in order. *)
Definition stdout_of (tr : list event) : list string :=
  omap (fun e => match e with EvStdout s => Some s | _ => None end) tr.

(** No character of the text passes [p]. *)
Fixpoint free_of (p : ascii -> bool) (s : string) : bool :=
  match s with
  | EmptyString => true
  | String c rest => negb (p c) && free_of p rest
  end.

(** Nothing but actions for one device, sent with one token and key. *)
Definition only_actions_for (access key : string) (mid : option string)
           (e : event) : bool :=
  match e with
  | EvRequest (PostAction a k m _) =>
      String.eqb a access && String.eqb k key && bool_decide (m = mid)
  | EvRequest _ => false
  | _ => true
  end.

(** The keys the CLIs need and the ones a process environment leaves
    without a value (missing, empty or blank). *)
Definition required_keys : list string :=
  ["HUSQ_CLIENT_ID"; "HUSQ_CLIENT_SECRET"; "HUSQ_APP_KEY";
   "HUSQ_REFRESH_TOKEN"]%string.

Definition env_value (w : world) (k : string) : string :=
  Py.strip (default ""%string (environ w !! k)).

Definition missing_keys (w : world) : list string :=
  List.filter (fun k => negb (Py.truthy_str (env_value w k))) required_keys.

(** The attribute of the configuration object that holds a key. *)
Definition field_of (k : string) : string :=
  if String.eqb k "HUSQ_CLIENT_ID" then "client_id"
  else if String.eqb k "HUSQ_CLIENT_SECRET" then "client_secret"
  else if String.eqb k "HUSQ_APP_KEY" then "app_key"
  else "refresh_token".

Definition world_without (keys : list string) : world :=
  {| env_file := None;
     env_io := {| io_read := ReadOk; io_write := WriteOk |};
     environ := foldr delete (environ Sample.world0) keys;
     clock := 0%Q; net := Sample.net_of None Sample.three_mowers;
     auth := Main.StaticAuth_init "" "" "" ""; trace := [] |}.


(** A mower with three work areas, one of them named like the id of
    another. *)
Definition yard_mower : Api.mower :=
  {| Api.m_id := Some "m-1";
     Api.m_attributes :=
       Some {| Api.at_system :=
                 Some {| Api.sys_name := Some "Roope";
                         Api.sys_model := Some "430X" |};
               Api.at_capabilities :=
                 Some {| Api.cap_headlights := Some true;
                         Api.cap_canConfirmError := Some true;
                         Api.cap_workAreas := Some true |};
               Api.at_workAreas :=
                 Some [ {| Api.wa_name := Some "Front";
                           Api.wa_workAreaId := Some 2 |};
                        {| Api.wa_name := Some "2";
                           Api.wa_workAreaId := Some 7 |};
                        {| Api.wa_name := Some "Back";
                           Api.wa_workAreaId := Some 3 |} ];
               Api.at_mower := None;
               Api.at_battery_batteryPercent := None;
               Api.at_positions := None;
               Api.at_settings_cuttingHeight := None;
               Api.at_cutting_height := None;
               Api.at_metadata_connected := None |} |}.

Definition ctl_cfg : Ctl.Config :=
  {| Ctl.cfg_client_id := "cid"; Ctl.cfg_client_secret := "secret";
     Ctl.cfg_app_key := "key"; Ctl.cfg_refresh_token := "rt-old" |}.

Definition ctl_args (c : Ctl.command) : Ctl.args :=
  {| Ctl.arg_mower_id := None; Ctl.arg_mower_name := None; Ctl.arg_cmd := c |}.

(** The attributes of a [Start] request. *)
Definition start_attrs (work_area_id duration : option Z)
  : list (string * json) :=
  match work_area_id with Some n => [("workAreaId", JInt n)] | None => [] end
  ++ match duration with Some n => [("duration", JInt n)] | None => [] end.

(** Any event at all. *)
Definition any_event (e : event) : bool := true.











(** No write to the metrics store. *)
Definition not_influx (e : event) : bool :=
  match e with EvRequest (InfluxWrite _ _) => false | _ => true end.

(** The test [all([cfg.client_id, cfg.client_secret, cfg.api_key,
    cfg.refresh_token])] of the poller. *)
Definition complete (cfg : Main.Config) : bool :=
  Py.truthy_str (Main.cfg_client_id cfg)
  && Py.truthy_str (Main.cfg_client_secret cfg)
  && Py.truthy_str (Main.cfg_api_key cfg)
  && Py.truthy_str (Main.cfg_refresh_token cfg).

(** What [run_once] logs for one device. *)
Definition poll_log (item : Api.mower) : list event :=
  [EvLog INFO "%s"
         [ASummary (Main._summary_line
                      (Py.or_else (Api.name_of item) (Api.m_id item))
                      (Api.attrs_of item))];
   EvLog DEBUG "Raw mower item: %r" [AItem item]].

(** A remote side that refuses the token exchange. *)
Definition net_refusing (tr : list event) (r : request) : outcome :=
  match r with
  | PostToken _ _ _ => Responded 401 "invalid_grant" BodyOther
  | _ => Sample.net_of None Sample.three_mowers tr r
  end.

(** The write [run_once] makes for one device at the time [now]. *)
Definition point_request (influx : Main.InfluxWriter) (now : Q)
           (item : Api.mower) : request :=
  InfluxWrite (Main.influx_bucket (Main.iw_cfg influx))
    (plain_point (Main.iw_cfg influx)
       (Py.or_str (Api.m_id item) "unknown")
       (Py.or_else (Api.name_of item) (Api.m_id item))
       (Main.fields_of (Api.attrs_of item)) now).

(** The device reports whether it is connected: its [metadata] object has
    a [connected] member that is not null, which [run_once] turns into a
    truth value among the fields. *)
Definition reports_connected (item : Api.mower) : bool :=
  match Api.at_metadata_connected (Api.attrs_of item) with
  | Some _ => true
  | None => false
  end.

(** A device that reports being connected, after one that does not. *)
Definition online_mower : Api.mower :=
  {| Api.m_id := Some "9";
     Api.m_attributes :=
       Some {| Api.at_system := None; Api.at_capabilities := None;
               Api.at_workAreas := None; Api.at_mower := None;
               Api.at_battery_batteryPercent := None;
               Api.at_positions := None;
               Api.at_settings_cuttingHeight := None;
               Api.at_cutting_height := None;
               Api.at_metadata_connected := Some true |} |}.

Definition world_online : world :=
  Sample.world_with (Some Sample.env_text) true
    (Sample.net_of None
       [Sample.named "1" "A" None; online_mower; Sample.named "3" "C" None]).

(** The metrics store accepts every write. *)
Definition store_accepts (w : world) : Prop :=
  forall tr bucket p,
    exists status txt b,
      net w tr (InfluxWrite bucket p) = Responded status txt b
      /\ status < 400.

Definition with_influx (cfg : Main.Config) : Main.InfluxWriter :=
  {| Main.enabled := true; Main.iw_cfg := cfg |}.

(** Every pause lasts [secs] seconds. *)
Definition sleeps_only (secs : Z) (e : event) : bool :=
  match e with EvSleep s => s =? secs | _ => true end.

Definition cli_args (once : bool) (seconds : option Z) : MainCli.args :=
  {| MainCli.arg_debug := false; MainCli.arg_trace := false;
     MainCli.arg_once := once; MainCli.arg_poll_seconds := seconds |}.

Definition not_stdout (e : event) : bool :=
  match e with EvStdout _ => false | _ => true end.

Definition is_stdout (e : event) : bool :=
  match e with EvStdout _ => true | _ => false end.

(** A remote side that refuses every action. *)
Definition net_no_actions (tr : list event) (r : request) : outcome :=
  match r with
  | PostAction _ _ _ _ => Responded 403 "forbidden" BodyOther
  | _ => Sample.net_of None Sample.three_mowers tr r
  end.

(** [m] succeeds and prints exactly [n] lines, doing nothing else. *)
Definition prints (n : nat) (m : M unit) : Prop :=
  forall w,
    fst (m w) = Ok tt
    /\ exists evs,
        trace (snd (m w)) = trace w ++ evs
        /\ length evs = n /\ forallb is_stdout evs = true.

(** The remote side answers every action with the same refusal. *)
Definition refuses_actions (w : world) (status : Z) (txt : string) : Prop :=
  400 <= status
  /\ forall tr tok key mid p,
      exists b, net w tr (PostAction tok key mid p) = Responded status txt b.

(** The line [post_action] writes for a refused request. *)
Definition post_error (mid : option string) (status : Z) (txt : string)
  : event :=
  EvStderr ("ERROR: POST /v1/mowers/" ++ Py.str_opt mid ++ "/actions "
            ++ Py.str_int status ++ ": " ++ txt)%string.
(** * Properties *)

(** ** Telemetry encoder and metrics writer *)

Lemma add_fields_spec (fields : gmap string field_value) :
  (bool_free fields ->
   Main.add_fields fields = Ok (omap to_point_value fields))
  /\ (~ bool_free fields -> Main.add_fields fields = Raise no_boolean_field).
Proof.
  unfold Main.add_fields, bool_free.
  apply (map_fold_weak_ind
           (fun r m =>
              (map_Forall (fun _ v => is_bool_field v = false) m ->
               r = Ok (omap to_point_value m))
              /\ (~ map_Forall (fun _ v => is_bool_field v = false) m ->
                  r = Raise no_boolean_field))).
  - split; [by rewrite omap_empty|].
    intros H. exfalso. apply H, map_Forall_empty.
  - intros k v m r Hk [IH1 IH2].
    rewrite map_Forall_insert by done. split.
    + intros [Hv Hm]. rewrite (IH1 Hm), omap_insert.
      destruct v; simpl in *; try done.
      rewrite delete_id; [done|]. by rewrite lookup_omap, Hk.
    + intros Hno.
      destruct (decide (map_Forall (fun _ v => is_bool_field v = false) m))
        as [Hm|Hm].
      * rewrite (IH1 Hm). destruct v; simpl; try done;
          exfalso; apply Hno; by split.
      * by rewrite (IH2 Hm).
Qed.

Lemma build_point_plain cfg mid name fields ts :
  bool_free fields ->
  Main.build_point cfg mid name fields ts
  = Ok (plain_point cfg mid name fields ts).
Proof.
  intros H. unfold Main.build_point.
  by rewrite (proj1 (add_fields_spec fields) H).
Qed.

Lemma build_point_bool cfg mid name fields ts :
  ~ bool_free fields ->
  Main.build_point cfg mid name fields ts = Raise no_boolean_field.
Proof.
  intros H. unfold Main.build_point.
  by rewrite (proj2 (add_fields_spec fields) H).
Qed.

Lemma build_point_inv cfg mid name fields ts p :
  Main.build_point cfg mid name fields ts = Ok p ->
  bool_free fields /\ p = plain_point cfg mid name fields ts.
Proof.
  intros H. destruct (decide (bool_free fields)) as [Hf|Hf].
  - rewrite build_point_plain in H by done. split; [done|congruence].
  - by rewrite build_point_bool in H.
Qed.

Lemma point_field_lookup cfg mid name fields ts k :
  p_fields (plain_point cfg mid name fields ts) !! k
  = fields !! k ≫= to_point_value.
Proof. simpl. by rewrite lookup_omap. Qed.

Lemma fields_of_enum_keys attrs :
  let mower := default Api.no_mower_state (Api.at_mower attrs) in
  Main.fields_of attrs !! "activity_num"
    = Some (Main.opt_int (Main._enum_num (Api.mw_activity mower)))
  /\ Main.fields_of attrs !! "state_num"
    = Some (Main.opt_int (Main._enum_num (Api.mw_state mower)))
  /\ Main.fields_of attrs !! "mode_num"
    = Some (Main.opt_int (Main._enum_num (Api.mw_mode mower))).
Proof. by repeat split. Qed.

(** The one truth value among the fields of a device is [connected]. *)
Lemma fields_of_bool_free attrs :
  bool_free (Main.fields_of attrs) <-> Api.at_metadata_connected attrs = None.
Proof.
  unfold bool_free. split.
  - intros H.
    assert (Hc : Main.fields_of attrs !! "connected"
                 = Some (Main.opt_bool (Api.at_metadata_connected attrs)))
      by reflexivity.
    apply H in Hc. by destruct (Api.at_metadata_connected attrs).
  - intros Hc k v Hk. unfold Main.fields_of in Hk. rewrite Hc in Hk.
    apply elem_of_list_to_map_2 in Hk.
    repeat (apply elem_of_cons in Hk as [Heq|Hk];
            [injection Heq as _ ->;
             first [ reflexivity
                   | match goal with
                     | |- is_bool_field (_ ?o) = false => by destruct o
                     end ]|]).
    by apply elem_of_nil in Hk.
Qed.

Lemma enum_num_some (s : string) :
  Main._enum_num (Some s)
  = Some (match Main.table !! Py.upper s with Some code => code | None => 0 end).
Proof. unfold Main._enum_num. by destruct (Main.table !! Py.upper s). Qed.

Lemma write_enabled cfg mid name fields ts w :
  match Main.build_point cfg mid name fields ts with
  | Ok p =>
      trace (snd (Main.write {| Main.enabled := true; Main.iw_cfg := cfg |}
                             mid name fields ts w))
      = trace w ++ [EvRequest (InfluxWrite (Main.influx_bucket cfg) p)]
  | Raise e =>
      Main.write {| Main.enabled := true; Main.iw_cfg := cfg |}
                 mid name fields ts w
      = (Raise e, w)
  end.
Proof.
  unfold Main.write. cbn [Main.enabled Main.iw_cfg negb].
  destruct (Main.build_point cfg mid name fields ts) as [p|e]; [|done].
  unfold bind, http; simpl.
  destruct (net w (trace w) _) as [status txt b|e]; simpl; [|done].
  by destruct (400 <=? status).
Qed.

(** C10.  The telemetry encoder [_enum_num] answers [None] for a missing
    input and never the unknown-code 0; a present input goes through the
    lookup table, upper-cased, and a text the table does not hold maps to 0.
    The metrics writer leaves every [None]-valued field out of the point it
    emits and keeps every other field, so in the emitted point a missing
    enumeration (no [activity_num] key at all) differs from an unknown one
    ([activity_num] = 0).  A point is emitted exactly when no field holds a
    truth value; for a device that is when it does not report
    [connected].  With a truth value among the fields the writer raises
    [AttributeError] and emits nothing. *)
Theorem enum_missing_differs_from_unknown :
  Main._enum_num None = None
  /\ (forall s code, Main.table !! Py.upper s = Some code ->
        Main._enum_num (Some s) = Some code)
  /\ (forall s, Main.table !! Py.upper s = None ->
        Main._enum_num (Some s) = Some 0)
  /\ (forall cfg mid name fields ts p,
        Main.build_point cfg mid name fields ts = Ok p ->
        forall k,
          p_fields p !! k = None
          <-> fields !! k = None \/ fields !! k = Some FNone)
  /\ (forall cfg mid name fields ts p k v pv,
        Main.build_point cfg mid name fields ts = Ok p ->
        fields !! k = Some v -> to_point_value v = Some pv ->
        p_fields p !! k = Some pv)
  /\ (forall cfg mid name fields ts w,
        let run := Main.write {| Main.enabled := true; Main.iw_cfg := cfg |}
                              mid name fields ts w in
        match Main.build_point cfg mid name fields ts with
        | Ok p =>
            added w (snd run)
            = [EvRequest (InfluxWrite (Main.influx_bucket cfg) p)]
        | Raise e => run = (Raise e, w)
        end)
  /\ (forall cfg mid name fields ts,
        (bool_free fields ->
         exists p, Main.build_point cfg mid name fields ts = Ok p)
        /\ (~ bool_free fields ->
            Main.build_point cfg mid name fields ts = Raise no_boolean_field))
  /\ (forall attrs,
        bool_free (Main.fields_of attrs)
        <-> Api.at_metadata_connected attrs = None)
  /\ (forall cfg mid name ts attrs p,
        Main.build_point cfg mid name (Main.fields_of attrs) ts = Ok p ->
        let activity :=
          Api.mw_activity (default Api.no_mower_state (Api.at_mower attrs)) in
        (activity = None -> p_fields p !! "activity_num" = None)
        /\ (forall s, activity = Some s ->
              p_fields p !! "activity_num"
              = Some (PInt (default 0 (Main.table !! Py.upper s))))).
Proof.
  split; [done|].
  split; [intros s code H; by rewrite enum_num_some, H|].
  split; [intros s H; by rewrite enum_num_some, H|].
  split.
  { intros * Hp k. apply build_point_inv in Hp as [_ ->].
    rewrite point_field_lookup.
    destruct (fields !! k) as [v|] eqn:Hk; simpl.
    - destruct v; simpl; split; intros H; try done;
        try (destruct H as [H|H]; congruence). by right.
    - split; [by left|done]. }
  split.
  { intros * Hp Hk Hv. apply build_point_inv in Hp as [_ ->].
    by rewrite point_field_lookup, Hk. }
  split.
  { intros cfg mid name fields ts w run. subst run.
    pose proof (write_enabled cfg mid name fields ts w) as H.
    destruct (Main.build_point cfg mid name fields ts) as [p|e]; [|done].
    unfold added. rewrite H. by rewrite drop_app_length. }
  split.
  { intros. split; intros H.
    - eexists. by apply build_point_plain.
    - by apply build_point_bool. }
  split; [apply fields_of_bool_free|].
  intros cfg mid name ts attrs p Hp activity.
  apply build_point_inv in Hp as [_ ->].
  destruct (fields_of_enum_keys attrs) as (Ha & _ & _).
  fold activity in Ha.
  split.
  - intros Hnone. rewrite point_field_lookup, Ha, Hnone. done.
  - intros s Hs. rewrite point_field_lookup, Ha, Hs. done.
Qed.

(** ** What a computation can add to the trace *)

Lemma bind_run {A B} (m : M A) (k : A -> M B) w :
  bind m k w
  = match m w with
    | (Ok a, w') => k a w'
    | (Raise e, w') => (Raise e, w')
    end.
Proof. reflexivity. Qed.

Lemma added_app w w' evs : trace w' = trace w ++ evs -> added w w' = evs.
Proof. intros H. unfold added. by rewrite H, drop_app_length. Qed.

Section Effects.

Variable p : event -> bool.

Lemma appends_ret {A} (a : A) : appends p (ret a).
Proof. intros w. exists []. by rewrite app_nil_r. Qed.

Lemma appends_raise {A} e : appends p (@raise A e).
Proof. intros w. exists []. by rewrite app_nil_r. Qed.

Lemma appends_bind {A B} (m : M A) (k : A -> M B) :
  appends p m -> (forall a, appends p (k a)) -> appends p (bind m k).
Proof.
  intros Hm Hk w. unfold bind.
  destruct (Hm w) as (evs & E & F).
  destruct (m w) as [[a|e] w1]; simpl in *.
  - destruct (Hk a w1) as (evs' & E' & F').
    exists (evs ++ evs'). rewrite E', E, app_assoc. split; [done|].
    rewrite forallb_app. by rewrite F, F'.
  - by exists evs.
Qed.

Lemma appends_try_except {A} (m : M A) (h : exn -> M A) :
  appends p m -> (forall e, appends p (h e)) -> appends p (try_except m h).
Proof.
  intros Hm Hh w. unfold try_except.
  destruct (Hm w) as (evs & E & F).
  destruct (m w) as [[a|e] w1]; simpl in *.
  - by exists evs.
  - destruct (is_Exception e); simpl; [|by exists evs].
    destruct (Hh e w1) as (evs' & E' & F').
    exists (evs ++ evs'). rewrite E', E, app_assoc. split; [done|].
    rewrite forallb_app. by rewrite F, F'.
Qed.

Lemma appends_emit e : p e = true -> appends p (emit e).
Proof. intros H w. exists [e]. simpl. by rewrite H. Qed.

Lemma appends_silent {A} (m : M A) :
  (forall w, trace (snd (m w)) = trace w) -> appends p m.
Proof. intros H w. exists []. by rewrite H, app_nil_r. Qed.

Lemma appends_read_text : appends p read_text.
Proof.
  apply appends_silent. intros w. unfold read_text.
  destruct (env_file w); [|done]. by destruct (io_read (env_io w)).
Qed.

Lemma appends_http r : p (EvRequest r) = true -> appends p (http r).
Proof. intros H w. exists [EvRequest r]. simpl. by rewrite H. Qed.

Lemma appends_write_text text :
  p EvTruncate = true -> p (EvWrite text) = true -> appends p (write_text text).
Proof.
  intros H1 H2 w. unfold write_text.
  destruct (io_write (env_io w)); simpl.
  - exists [EvTruncate; EvWrite text]. simpl.
    rewrite <- app_assoc. by rewrite H1, H2.
  - exists []. by rewrite app_nil_r.
  - exists [EvTruncate]. simpl. by rewrite H1.
Qed.

Lemma appends_expiry now secs : appends p (Main.expiry now secs).
Proof.
  unfold Main.expiry. destruct (Py.overflows secs);
    [apply appends_raise|apply appends_ret].
Qed.

Lemma appends_sleep secs : p (EvSleep secs) = true -> appends p (sleep secs).
Proof. intros H w. exists [EvSleep secs]. simpl. by rewrite H. Qed.

Lemma appends_for_each {A} (xs : list A) (body : A -> M unit) :
  (forall x, appends p (body x)) -> appends p (for_each xs body).
Proof.
  intros H. induction xs as [|x xs IH]; simpl.
  - apply appends_ret.
  - apply appends_bind; [apply H|intros _; apply IH].
Qed.

End Effects.

(** Breaks a computation down along its structure. *)
Ltac effects_step :=
  first
    [ apply appends_ret
    | apply appends_raise
    | apply appends_bind; [|intros ?]
    | apply appends_try_except; [|intros ?]
    | apply appends_for_each; intros ?
    | apply appends_read_text
    | apply appends_expiry
    | apply appends_emit; reflexivity
    | apply appends_http; reflexivity
    | apply appends_write_text; reflexivity
    | apply appends_sleep; reflexivity
    | apply appends_silent; intros ?; reflexivity
    | match goal with
      | |- appends _ (if ?b then _ else _) => destruct b
      | |- appends _ (match ?x with _ => _ end) => destruct x
      | |- appends _ (let '(_, _) := ?x in _) => destruct x
      end ].

Ltac effects := repeat effects_step.

Lemma requests_of_app tr evs :
  forallb not_request evs = true -> requests_of (tr ++ evs) = requests_of tr.
Proof.
  intros H. unfold requests_of. rewrite omap_app.
  induction evs as [|e evs IH]; simpl in *; [by rewrite app_nil_r|].
  apply andb_prop in H as [He Hevs]. destruct e; try done; by apply IH.
Qed.

Lemma sleeps_of_app tr evs :
  forallb not_sleep evs = true -> sleeps_of (tr ++ evs) = sleeps_of tr.
Proof.
  intros H. unfold sleeps_of. rewrite omap_app.
  induction evs as [|e evs IH]; simpl in *; [by rewrite app_nil_r|].
  apply andb_prop in H as [He Hevs]. destruct e; try done; by apply IH.
Qed.

Lemma persist_main_no_request new_rt :
  appends not_request (Main._persist_refresh_token_to_env new_rt).
Proof.
  unfold Main._persist_refresh_token_to_env, log.
  effects.
Qed.

Lemma http_then (p : event -> bool) {A} r (k : outcome -> M A) :
  (forall o, appends p (k o)) ->
  forall w, exists evs,
    trace (snd (bind (http r) k w)) = trace w ++ EvRequest r :: evs
    /\ forallb p evs = true.
Proof.
  intros Hk w. unfold bind, http.
  destruct (Hk (net w (trace w) r) (add_event (EvRequest r) w))
    as (evs & E & F).
  exists evs. rewrite E. simpl. by rewrite <- app_assoc.
Qed.

(** ** Token manager: when an exchange is made *)

Lemma token_posts_post tr rt cid cs evs :
  forallb not_request evs = true ->
  token_posts (tr ++ EvRequest (PostToken rt cid cs) :: evs)
  = S (token_posts tr).
Proof.
  intros H. unfold token_posts.
  change (tr ++ EvRequest (PostToken rt cid cs) :: evs)
    with (tr ++ [EvRequest (PostToken rt cid cs)] ++ evs).
  rewrite app_assoc, requests_of_app by done.
  unfold requests_of. rewrite omap_app. simpl.
  rewrite filter_app, length_app. simpl. lia.
Qed.

Lemma refresh_exchange_trace now w :
  exists evs,
    trace (snd (Main.refresh_exchange now w))
    = trace w ++ EvRequest (PostToken (refresh_token (auth w))
                                      (client_id (auth w))
                                      (client_secret (auth w))) :: evs
    /\ forallb not_request evs = true.
Proof.
  unfold Main.refresh_exchange. unfold bind at 1. unfold get_auth at 1.
  apply http_then. intros o.
  unfold Main.handle_rotation, log, get_auth, put_auth.
  repeat first [apply persist_main_no_request | effects_step].
Qed.

Lemma get_access_token_fresh w :
  Main.needs_refresh (auth w) (clock w) = false ->
  Main.async_get_access_token w = (Ok (_access_token (auth w)), w).
Proof.
  intros H. unfold Main.async_get_access_token, bind, time_time, get_auth.
  by rewrite H.
Qed.

Lemma get_access_token_stale w :
  Main.needs_refresh (auth w) (clock w) = true ->
  trace (snd (Main.async_get_access_token w))
  = trace (snd (Main.refresh_exchange (clock w) w)).
Proof.
  intros H. unfold Main.async_get_access_token, bind, time_time, get_auth.
  rewrite H. by destruct (Main.refresh_exchange (clock w) w) as [[[]|e] w1].
Qed.


Lemma posts_of_call w :
  token_posts (trace (snd (Main.async_get_access_token w)))
  = if Main.needs_refresh (auth w) (clock w)
    then S (token_posts (trace w)) else token_posts (trace w).
Proof.
  destruct (Main.needs_refresh (auth w) (clock w)) eqn:H.
  - rewrite get_access_token_stale by done.
    destruct (refresh_exchange_trace (clock w) w) as (evs & -> & F).
    by apply token_posts_post.
  - by rewrite get_access_token_fresh.
Qed.





(** Calls at 1000, 1010 and 2000 seconds share one exchange (the token of
    the first call is good until 4600 - 30); a call at 4569 still uses the
    cached token, a call at 4570 makes the second exchange. *)
Example exchanges_in_sample_run :
  token_posts (trace (calls_at [1000; 1010; 2000]%Q Sample.world0)) = 1%nat
  /\ token_posts (trace (calls_at [1000; 4569]%Q Sample.world0)) = 1%nat
  /\ token_posts (trace (calls_at [1000; 4569; 4570]%Q Sample.world0))
     = 2%nat.
Proof. vm_compute. tauto. Qed.

(** ** Credential file: what the persist routines write *)

Lemma replace_first_spec lines new_rt :
  match Main.replace_first lines new_rt with
  | Some lines' =>
      exists pre ln post,
        lines = pre ++ ln :: post
        /\ Forall (fun l => is_entry_line l = false) pre
        /\ is_entry_line ln = true
        /\ lines' = pre ++ (Main.KEY ++ new_rt)%string :: post
  | None => Forall (fun l => is_entry_line l = false) lines
  end.
Proof.
  induction lines as [|ln lines IH]; simpl; [done|].
  fold (is_entry_line ln).
  destruct (is_entry_line ln) eqn:Hln.
  - by exists [], ln, lines.
  - destruct (Main.replace_first lines new_rt) as [lines'|]; simpl.
    + destruct IH as (pre & l & post & -> & Hpre & Hl & ->).
      exists (ln :: pre), l, post. repeat split; try done.
      by constructor.
    + by constructor.
Qed.

(** The rewrite touches one line: either the first entry line is
    overwritten and the lines before and after it stay, or there is no
    entry line and the new entry goes after the last line. *)
Lemma updated_lines_frame lines new_rt :
  (exists pre ln post,
      lines = pre ++ ln :: post
      /\ Forall (fun l => is_entry_line l = false) pre
      /\ is_entry_line ln = true
      /\ Main.updated_lines lines new_rt
         = pre ++ (Main.KEY ++ new_rt)%string :: post)
  \/ (Forall (fun l => is_entry_line l = false) lines
      /\ Main.updated_lines lines new_rt
         = lines ++ [(Main.KEY ++ new_rt)%string]).
Proof.
  unfold Main.updated_lines.
  pose proof (replace_first_spec lines new_rt) as H.
  destruct (Main.replace_first lines new_rt); [left|right]; done.
Qed.

Lemma updated_lines_has_entry lines new_rt :
  In (Main.KEY ++ new_rt)%string (Main.updated_lines lines new_rt).
Proof.
  destruct (updated_lines_frame lines new_rt)
    as [(pre & ln & post & _ & _ & _ & ->)|[_ ->]];
    apply in_or_app; right; by left.
Qed.

Lemma main_new_text_lines old new_rt :
  main_new_text old new_rt
  = (Py.join Py.NL (main_new_lines old new_rt) ++ Py.NL)%string
  /\ In (Main.KEY ++ new_rt)%string (main_new_lines old new_rt).
Proof.
  destruct old as [text|]; simpl.
  - split; [done|apply updated_lines_has_entry].
  - split; [done|by left].
Qed.

Lemma persist_main_run new_rt w :
  Main._persist_refresh_token_to_env new_rt w
  = (Ok tt, main_persisted new_rt w).
Proof.
  unfold Main._persist_refresh_token_to_env, main_persisted, read_error,
    text_read, try_except, bind, path_exists, read_text, write_text, log,
    emit, written, truncated, persist_warning, persist_warning_of.
  destruct (env_file w) as [text|] eqn:Hf; simpl; rewrite ?Hf; simpl;
    destruct (io_read (env_io w)), (io_write (env_io w)); reflexivity.
Qed.

Lemma main_persisted_auth new_rt w :
  auth (main_persisted new_rt w) = auth w.
Proof.
  unfold main_persisted.
  by destruct (read_error w), (io_write (env_io w)).
Qed.

Lemma main_persisted_clock new_rt w :
  clock (main_persisted new_rt w) = clock w.
Proof.
  unfold main_persisted.
  by destruct (read_error w), (io_write (env_io w)).
Qed.

Lemma env_writable_modes w :
  env_writable w = true
  <-> io_read (env_io w) = ReadOk /\ io_write (env_io w) = WriteOk.
Proof.
  unfold env_writable.
  destruct (io_read (env_io w)), (io_write (env_io w));
    (split; [done|by intros [? ?]]).
Qed.

Lemma persist_main_writable new_rt w :
  env_writable w = true ->
  Main._persist_refresh_token_to_env new_rt w
  = (Ok tt, written (main_new_text (text_read w) new_rt) w).
Proof.
  intros [Hr Hw]%env_writable_modes.
  rewrite persist_main_run. unfold main_persisted, read_error.
  rewrite Hr, Hw. by destruct (env_file w).
Qed.

(** ** Token manager: rotation *)

Lemma exchange_ok w status txt tok at_ :
  Main.needs_refresh (auth w) (clock w) = true ->
  net w (trace w) (PostToken (refresh_token (auth w)) (client_id (auth w))
                             (client_secret (auth w)))
  = Responded status txt (BodyToken tok) ->
  status < 400 ->
  Api.access_token tok = Some at_ ->
  Py.overflows (default 300 (Api.expires_in tok)) = false ->
  Main.async_get_access_token w
  = match Main.handle_rotation (Api.refresh_token tok)
            (exchanged at_ (default 300 (Api.expires_in tok)) w) with
    | (Ok _, w3) => (Ok (_access_token (auth w3)), w3)
    | (Raise e, w3) => (Raise e, w3)
    end.
Proof.
  intros Hstale Hnet Hstatus Hat Hfits.
  assert (Hs : (400 <=? status) = false) by lia.
  unfold Main.async_get_access_token, Main.refresh_exchange, Main.expiry,
    bind, time_time, get_auth, http, put_auth, log, emit, ret.
  cbv beta iota. rewrite Hstale. cbv beta iota. rewrite Hnet, Hs, Hat.
  cbv beta iota zeta. rewrite Hfits.
  reflexivity.
Qed.

(** A lifetime beyond the doubles: the access token is in memory already
    when the sum raises, and the rotation block is not reached. *)
Lemma exchange_overflow w status txt tok at_ :
  Main.needs_refresh (auth w) (clock w) = true ->
  net w (trace w) (PostToken (refresh_token (auth w)) (client_id (auth w))
                             (client_secret (auth w)))
  = Responded status txt (BodyToken tok) ->
  status < 400 ->
  Api.access_token tok = Some at_ ->
  Py.overflows (default 300 (Api.expires_in tok)) = true ->
  Main.async_get_access_token w
  = (Raise (OverflowError "int too large to convert to float"),
     set_auth (Main.set_token at_ (auth w))
       (add_event (EvRequest (PostToken (refresh_token (auth w))
                                        (client_id (auth w))
                                        (client_secret (auth w)))) w)).
Proof.
  intros Hstale Hnet Hstatus Hat Hbig.
  assert (Hs : (400 <=? status) = false) by lia.
  unfold Main.async_get_access_token, Main.refresh_exchange, Main.expiry,
    bind, time_time, get_auth, http, put_auth, log, emit, ret, raise.
  cbv beta iota. rewrite Hstale. cbv beta iota. rewrite Hnet, Hs, Hat.
  cbv beta iota zeta. rewrite Hbig.
  reflexivity.
Qed.

Lemma handle_rotation_skip new_rt w :
  new_rt = None \/ new_rt = Some ""%string
  \/ new_rt = Some (refresh_token (auth w)) ->
  Main.handle_rotation new_rt w = (Ok tt, w).
Proof.
  unfold Main.handle_rotation, bind, get_auth.
  intros [->|[->| ->]]; try done.
  rewrite String.eqb_refl. simpl. by rewrite andb_false_r.
Qed.

Lemma handle_rotation_rotate rt w :
  rt <> ""%string -> rt <> refresh_token (auth w) ->
  Main.handle_rotation (Some rt) w
  = (Ok tt,
     add_event (EvLog DEBUG "Stored rotated refresh token." [])
       (snd (Main._persist_refresh_token_to_env rt
               (set_auth (Main.set_refresh rt (auth w)) w)))).
Proof.
  intros Hne Hdiff.
  unfold Main.handle_rotation, bind, get_auth, put_auth, log, emit.
  assert (Ht : Py.truthy_str rt = true) by (by destruct rt).
  assert (He : String.eqb rt (refresh_token (auth w)) = false)
    by (by apply String.eqb_neq).
  rewrite Ht, He. simpl. by rewrite persist_main_run.
Qed.

Lemma replacement_raises repl e :
  Ctl.replacement repl = Raise e -> is_Exception e = true.
Proof.
  unfold Ctl.replacement.
  destruct (Py.contains "\" repl); [|done].
  destruct (Py.parse_template repl) as [[msg pos|name]|ps]; [| |done];
    by intros [= <-].
Qed.

Lemma persist_ctl_spec new_rt w :
  Ctl._persist_rotated_rt new_rt w = (Ok tt, ctl_persisted new_rt w).
Proof.
  unfold Ctl._persist_rotated_rt, ctl_persisted, ctl_new_text, read_error,
    text_read, try_except, bind, path_exists, read_text, Ctl.re_sub_entry,
    write_text, print, emit, ret, raise, written, truncated, ctl_warning.
  cbv beta iota.
  destruct (env_file w) as [text|] eqn:Hf.
  - rewrite bool_decide_eq_true_2 by (by eexists). cbv beta iota.
    rewrite Hf.
    destruct (io_read (env_io w)); try reflexivity.
    change (default ""%string (Py.universal_newlines <$> Some text))
      with (Py.universal_newlines text).
    destruct (Py.contains Ctl.KEY (Py.universal_newlines text));
      [destruct (Ctl.replacement (Ctl.KEY ++ new_rt)%string) as [by_|e]
         eqn:Hr;
       [|cbv beta iota; by rewrite (replacement_raises _ _ Hr)]|];
      cbv beta iota; destruct (io_write (env_io w)); reflexivity.
  - rewrite bool_decide_eq_false_2 by (by intros [? ?]).
    cbv beta iota. change (default ""%string (_ <$> None)) with ""%string.
    change (Py.contains Ctl.KEY "") with false. cbv beta iota.
    destruct (io_write (env_io w)); reflexivity.
Qed.

Lemma persist_ctl_ok rt w : fst (Ctl._persist_rotated_rt rt w) = Ok tt.
Proof. by rewrite persist_ctl_spec. Qed.

Lemma ctl_main_auth_ok cfg w status txt tok access :
  net w (trace w) (PostToken (Ctl.cfg_refresh_token cfg)
                             (Ctl.cfg_client_id cfg)
                             (Ctl.cfg_client_secret cfg))
  = Responded status txt (BodyToken tok) ->
  status < 400 ->
  Api.access_token tok = Some access ->
  let w1 := add_event (EvRequest (PostToken (Ctl.cfg_refresh_token cfg)
                                            (Ctl.cfg_client_id cfg)
                                            (Ctl.cfg_client_secret cfg))) w in
  (forall rt,
      Api.refresh_token tok = Some rt -> rt <> ""%string ->
      rt <> Ctl.cfg_refresh_token cfg ->
      Ctl.main_auth cfg w
      = (Ok (access, cfg), snd (Ctl._persist_rotated_rt rt w1)))
  /\ (Api.refresh_token tok = None \/ Api.refresh_token tok = Some ""%string
      \/ Api.refresh_token tok = Some (Ctl.cfg_refresh_token cfg) ->
      Ctl.main_auth cfg w = (Ok (access, cfg), w1)).
Proof.
  intros Hnet Hstatus Hat w1.
  assert (Hs : (400 <=? status) = false) by lia.
  assert (Hget : Ctl.get_access_token cfg w
                 = (Ok (access, Api.refresh_token tok,
                        default 300 (Api.expires_in tok)), w1)).
  { unfold Ctl.get_access_token, bind, http, ret. cbv beta iota.
    by rewrite Hnet, Hs, Hat. }
  split.
  - intros rt Hrt Hne Hdiff.
    unfold Ctl.main_auth, bind. rewrite Hget, Hrt. cbv beta iota.
    assert (Ht : Py.truthy_str rt = true) by (by destruct rt).
    assert (He : String.eqb rt (Ctl.cfg_refresh_token cfg) = false)
      by (by apply String.eqb_neq).
    rewrite Ht, He. cbn [andb negb].
    pose proof (persist_ctl_ok rt w1) as Hok.
    destruct (Ctl._persist_rotated_rt rt w1) as [r w2]. simpl in Hok.
    by rewrite Hok.
  - intros Hskip. unfold Ctl.main_auth, bind. rewrite Hget. cbv beta iota.
    destruct Hskip as [->|[->| ->]]; try done.
    rewrite String.eqb_refl. by rewrite andb_false_r.
Qed.

(** C1, as the code has it.  In the poller's token manager, after a
    successful exchange whose lifetime fits a double and whose response
    carries a refresh token that is not empty and differs from the one in
    memory, the token in memory is replaced and the persist routine runs
    before the access token is returned; the access token is returned
    whatever the routine meets.  When the credential file can be read and
    written, the file is rewritten with the new entry among its lines.
    When the file cannot be read, or cannot be opened for writing, the
    failure is logged as a warning and the file stays as it was.  When the
    file was opened for writing and the write then failed, the failure is
    logged as a warning and the file is left empty.  When the response
    carries no refresh token, an empty one, or the one already in memory,
    nothing is written.  When the lifetime is beyond the doubles the call
    raises before the rotation block: the refresh token in memory and the
    file stay as they were.  The one-shot CLI runs its persist routine
    under the same test and leaves its loaded configuration as it is. *)
Theorem rotated_token_written_before_return :
  (forall w status txt tok at_,
      Main.needs_refresh (auth w) (clock w) = true ->
      net w (trace w) (PostToken (refresh_token (auth w))
                                 (client_id (auth w))
                                 (client_secret (auth w)))
      = Responded status txt (BodyToken tok) ->
      status < 400 ->
      Api.access_token tok = Some at_ ->
      (Py.overflows (default 300 (Api.expires_in tok)) = false ->
       (forall rt,
           Api.refresh_token tok = Some rt -> rt <> ""%string ->
           rt <> refresh_token (auth w) ->
           exists w',
             Main.async_get_access_token w = (Ok (Some at_), w')
             /\ refresh_token (auth w') = rt
             /\ (env_writable w = true ->
                 exists lines,
                   In (Main.KEY ++ rt)%string lines
                   /\ env_file w'
                      = Some (Py.join Py.NL lines ++ Py.NL)%string
                   /\ file_events (added w w')
                      = [EvTruncate;
                         EvWrite (Py.join Py.NL lines ++ Py.NL)%string])
             /\ (forall e,
                   read_error w = Some e ->
                   env_file w' = env_file w
                   /\ file_events (added w w') = []
                   /\ In (persist_warning_of e) (added w w'))
             /\ (read_error w = None ->
                 io_write (env_io w) = OpenRefused ->
                 env_file w' = env_file w
                 /\ file_events (added w w') = []
                 /\ In persist_warning (added w w'))
             /\ (read_error w = None ->
                 io_write (env_io w) = WriteFails ->
                 env_file w' = Some ""%string
                 /\ file_events (added w w') = [EvTruncate]
                 /\ In (persist_warning_of
                          (OSError "No space left on device"))
                       (added w w')))
       /\ (Api.refresh_token tok = None
           \/ Api.refresh_token tok = Some ""%string
           \/ Api.refresh_token tok = Some (refresh_token (auth w)) ->
           exists w',
             Main.async_get_access_token w = (Ok (Some at_), w')
             /\ refresh_token (auth w') = refresh_token (auth w)
             /\ env_file w' = env_file w
             /\ file_events (added w w') = []))
      /\ (Py.overflows (default 300 (Api.expires_in tok)) = true ->
          exists w',
            Main.async_get_access_token w
            = (Raise (OverflowError "int too large to convert to float"),
               w')
            /\ refresh_token (auth w') = refresh_token (auth w)
            /\ env_file w' = env_file w
            /\ file_events (added w w') = []))
  /\ (forall cfg w status txt tok access,
        net w (trace w) (PostToken (Ctl.cfg_refresh_token cfg)
                                   (Ctl.cfg_client_id cfg)
                                   (Ctl.cfg_client_secret cfg))
        = Responded status txt (BodyToken tok) ->
        status < 400 ->
        Api.access_token tok = Some access ->
        let w1 :=
          add_event (EvRequest (PostToken (Ctl.cfg_refresh_token cfg)
                                          (Ctl.cfg_client_id cfg)
                                          (Ctl.cfg_client_secret cfg))) w in
        (forall rt,
            Api.refresh_token tok = Some rt -> rt <> ""%string ->
            rt <> Ctl.cfg_refresh_token cfg ->
            Ctl.main_auth cfg w
            = (Ok (access, cfg), snd (Ctl._persist_rotated_rt rt w1)))
        /\ (Api.refresh_token tok = None
            \/ Api.refresh_token tok = Some ""%string
            \/ Api.refresh_token tok = Some (Ctl.cfg_refresh_token cfg) ->
            Ctl.main_auth cfg w = (Ok (access, cfg), w1))).
Proof.
  split; [|apply ctl_main_auth_ok].
  intros w status txt tok at_ Hstale Hnet Hstatus Hat.
  split; [intros Hfits|intros Hbig].
  2:{ rewrite (exchange_overflow w status txt tok at_) by done.
      eexists. split; [reflexivity|]. split; [done|]. split; [done|].
      erewrite added_app; [|reflexivity]. reflexivity. }
  rewrite (exchange_ok w status txt tok at_) by done.
  set (w2 := exchanged at_ (default 300 (Api.expires_in tok)) w).
  assert (Htr2 : trace w2 = trace w ++ [EvRequest (PostToken
                   (refresh_token (auth w)) (client_id (auth w))
                   (client_secret (auth w)));
                 EvLog DEBUG "Refreshed access token; expires_in=%ss"
                       [AInt (default 300 (Api.expires_in tok))]]).
  { subst w2. unfold exchanged. simpl. by rewrite <- app_assoc. }
  split.
  - intros rt Hrt Hne Hdiff.
    rewrite Hrt, handle_rotation_rotate, persist_main_run by done.
    cbn [snd].
    pose proof (main_persisted_auth rt
                  (set_auth (Main.set_refresh rt (auth w2)) w2)) as Hauth.
    eexists.
    split; [change (auth (add_event ?e ?x)) with (auth x); rewrite Hauth;
            reflexivity|].
    split; [change (auth (add_event ?e ?x)) with (auth x); by rewrite Hauth|].
    clear Hauth. unfold main_persisted.
    change (read_error (set_auth _ w2)) with (read_error w).
    change (text_read (set_auth _ w2)) with (text_read w).
    change (env_io (set_auth _ w2)) with (env_io w).
    split; [|split; [|split]].
    + intros [Hr Hw]%env_writable_modes.
      assert (Hre : read_error w = None).
      { unfold read_error. rewrite Hr. by destruct (env_file w). }
      rewrite Hre, Hw.
      destruct (main_new_text_lines (text_read w) rt) as [Htext Hin].
      exists (main_new_lines (text_read w) rt).
      split; [done|]. split; [simpl; by rewrite Htext|].
      rewrite <- Htext.
      erewrite added_app;
        [|subst w2; unfold exchanged, written; simpl;
          rewrite <- !app_assoc; reflexivity].
      reflexivity.
    + intros e He. rewrite He.
      split; [done|].
      erewrite added_app;
        [|subst w2; unfold exchanged; simpl;
          rewrite <- !app_assoc; reflexivity].
      split; [reflexivity|]. simpl. tauto.
    + intros Hre Hw. rewrite Hre, Hw.
      split; [done|].
      erewrite added_app;
        [|subst w2; unfold exchanged; simpl;
          rewrite <- !app_assoc; reflexivity].
      split; [reflexivity|]. simpl. tauto.
    + intros Hre Hw. rewrite Hre, Hw.
      split; [done|].
      erewrite added_app;
        [|subst w2; unfold exchanged, truncated; simpl;
          rewrite <- !app_assoc; reflexivity].
      split; [reflexivity|]. simpl. tauto.
  - intros Hskip. rewrite handle_rotation_skip by done.
    eexists. split; [reflexivity|].
    split; [done|]. split; [done|].
    erewrite added_app; [|apply Htr2]. reflexivity.
Qed.

Lemma rotated_token_written_before_return_witness :
  exists w',
    Main.async_get_access_token Sample.world0 = (Ok (Some "access-1"), w')
    /\ refresh_token (auth w') = "rt-new"
    /\ exists lines,
         In "HUSQ_REFRESH_TOKEN=rt-new" lines
         /\ env_file w' = Some (Py.join Py.NL lines ++ Py.NL)%string.
Proof.
  destruct (proj1 (proj1 (proj1 rotated_token_written_before_return
                            Sample.world0 200 ""%string
                            (Sample.token_body (Some "rt-new"%string))
                            "access-1"%string
                            eq_refl eq_refl eq_refl eq_refl)
                         eq_refl)
                  "rt-new"%string eq_refl
                  ltac:(discriminate) ltac:(discriminate))
    as (w' & Hret & Hmem & Hfile & _).
  destruct (Hfile eq_refl) as (lines & Hin & Htext & _).
  exists w'. split; [exact Hret|]. split; [exact Hmem|].
  exists lines. split; [exact Hin|exact Htext].
Defined.

(** The text the poller leaves in the sample credential file. *)
Example rotated_token_in_sample_file :
  env_file (snd (Main.async_get_access_token Sample.world0))
  = Some ("HUSQ_CLIENT_ID=cid" ++ Py.NL ++ "HUSQ_REFRESH_TOKEN=rt-new"
          ++ Py.NL ++ "HUSQ_APP_KEY=key" ++ Py.NL)%string.
Proof. reflexivity. Qed.

(** C1, as stated, fails when the credential file cannot be opened for
    writing: the exchange succeeds and rotates the refresh token from
    [rt-old] to [rt-new], the access token is returned and the token in
    memory is replaced, yet the credential file still holds its old text,
    in which the new token does not occur; the routine only logs a
    warning. *)
Lemma rotated_token_not_stored_in_read_only_file :
  fst (Main.async_get_access_token Sample.world_read_only)
  = Ok (Some "access-1"%string)
  /\ refresh_token
       (auth (snd (Main.async_get_access_token Sample.world_read_only)))
     = "rt-new"%string
  /\ env_file (snd (Main.async_get_access_token Sample.world_read_only))
     = Some Sample.env_text
  /\ Py.contains "rt-new" Sample.env_text = false
  /\ In persist_warning
        (trace (snd (Main.async_get_access_token Sample.world_read_only))).
Proof. vm_compute. tauto. Qed.

(** ** Credential file: the CLI routine *)

(** C5, the code at the failing input.  The file has no entry for the key
    (the only line that names it is a comment).  [_persist_rotated_rt] of
    the CLIs finds the key text somewhere in the file, substitutes at line
    starts only, where there is nothing to substitute, and writes the file
    back as it was: the new token is not in the file, although the routine
    reports that it was saved.  [_persist_refresh_token_to_env] of the
    poller appends the entry to the same file. *)
Theorem persist_rotated_rt_loses_the_token :
  env_file (snd (Ctl._persist_rotated_rt "rt-new" world_commented))
  = Some commented_env
  /\ Py.contains "rt-new" commented_env = false
  /\ fst (Ctl._persist_rotated_rt "rt-new" world_commented) = Ok tt
  /\ In (EvStdout "Note: refresh token rotated and saved to .env")
        (trace (snd (Ctl._persist_rotated_rt "rt-new" world_commented)))
  /\ env_file (snd (Main._persist_refresh_token_to_env "rt-new"
                      world_commented))
     = Some (commented_env ++ "HUSQ_REFRESH_TOKEN=rt-new" ++ Py.NL)%string.
Proof. vm_compute. tauto. Qed.

(** Where the CLI routine does what is asked: a file in which the key text
    does not occur at all gets the entry appended, on a line of its own,
    and an absent file is created with the entry alone. *)
Lemma ctl_persisted_writable new_rt w :
  env_writable w = true ->
  ctl_persisted new_rt w
  = match ctl_new_text (text_read w) new_rt with
    | Ok text =>
        add_event (EvStdout "Note: refresh token rotated and saved to .env")
                  (written text w)
    | Raise e => add_event (ctl_warning e) w
    end.
Proof.
  intros [Hr Hw]%env_writable_modes.
  unfold ctl_persisted, read_error. rewrite Hr, Hw.
  by destruct (env_file w).
Qed.

Lemma persist_ctl_appends new_rt w :
  env_writable w = true ->
  Py.contains Ctl.KEY (default ""%string (text_read w)) = false ->
  env_file (snd (Ctl._persist_rotated_rt new_rt w))
  = Some ((match text_read w with
           | None => ""
           | Some text =>
               if Py.truthy_str text && negb (Py.endswith_char "010" text)
               then text ++ Py.NL else text
           end) ++ Ctl.KEY ++ new_rt ++ Py.NL)%string.
Proof.
  intros Hw Hk. rewrite persist_ctl_spec, ctl_persisted_writable by done.
  unfold ctl_new_text. rewrite Hk. simpl. by destruct (text_read w).
Qed.

(** Joining the pieces of [split_lf] with line feeds gives the text back. *)
Lemma split_lf_from_nonempty s cur : Py.split_lf_from cur s <> [].
Proof.
  revert cur. induction s as [|c rest IH]; intros cur; simpl; [done|].
  destruct (Py.is_lf c); [done|apply IH].
Qed.

Lemma is_lf_char c : Py.is_lf c = true -> c = ascii_of_nat 10.
Proof.
  unfold Py.is_lf. intros H. apply Nat.eqb_eq in H.
  by rewrite <- (ascii_nat_embedding c), H.
Qed.

Lemma append_empty (s : string) : (s ++ "")%string = s.
Proof.
  induction s as [|a s IH]; [reflexivity|].
  change (String a (s ++ "")%string = String a s). by rewrite IH.
Qed.

Lemma append_char (s t : string) (c : ascii) :
  ((s ++ String c "") ++ t)%string = (s ++ String c t)%string.
Proof.
  induction s as [|a s IH]; [reflexivity|].
  change (String a ((s ++ String c "") ++ t)%string
          = String a (s ++ String c t)%string).
  by rewrite IH.
Qed.

Lemma join_split_lf_from s :
  forall cur, Py.join Py.NL (Py.split_lf_from cur s) = (cur ++ s)%string.
Proof.
  induction s as [|c rest IH]; intros cur; simpl.
  - unfold Py.join. simpl. by rewrite append_empty.
  - destruct (Py.is_lf c) eqn:Hc.
    + pose proof (split_lf_from_nonempty rest ""%string) as Hne.
      specialize (IH ""%string). unfold Py.join in *.
      destruct (Py.split_lf_from "" rest) as [|x xs] eqn:Hs; [done|].
      change (String.concat Py.NL (cur :: x :: xs))
        with (cur ++ Py.NL ++ String.concat Py.NL (x :: xs))%string.
      rewrite IH. by rewrite (is_lf_char c Hc).
    + rewrite IH. apply append_char.
Qed.

Lemma join_split_lf text : Py.join Py.NL (Py.split_lf text) = text.
Proof. apply (join_split_lf_from text ""%string). Qed.

(** The CLI routine in general: when the key text occurs somewhere in the
    file but no line starts with it, the file is written back as it was,
    whatever the new token. *)
Lemma persist_ctl_skips text new_rt w :
  text_read w = Some text ->
  env_writable w = true ->
  Py.contains Ctl.KEY text = true ->
  Py.contains "\" (Ctl.KEY ++ new_rt)%string = false ->
  Forall (fun ln => Py.startswith Ctl.KEY ln = false) (Py.split_lf text) ->
  env_file (snd (Ctl._persist_rotated_rt new_rt w)) = Some text.
Proof.
  intros Hf Hw Hk Hb Hlines.
  rewrite persist_ctl_spec, ctl_persisted_writable by done.
  unfold ctl_new_text, Ctl.replacement.
  rewrite Hf. change (default ""%string (Some text)) with text.
  rewrite Hk, Hb. simpl. f_equal.
  rewrite <- (join_split_lf text) at 2. f_equal.
  induction Hlines as [|ln lines Hln _ IH]; simpl; [done|].
  by rewrite Hln, IH.
Qed.

(** ** Credential file: how it is written *)

Lemma written_in_place (mode : write_mode) text w w' :
  mode = WriteOk ->
  env_file w' = Some text ->
  (exists evs, trace w' = trace w ++ evs
               /\ file_events evs = [EvTruncate; EvWrite text]) ->
  exists text,
    mode = WriteOk
    /\ file_events (added w w') = [EvTruncate; EvWrite text]
    /\ env_file w' = Some text
    /\ crash_states (env_file w) (file_events (added w w'))
       = [env_file w; Some ""%string; Some text].
Proof.
  intros Hw Hf (evs & Htr & Hev). exists text.
  rewrite (added_app _ _ _ Htr), Hev. done.
Qed.

Lemma persist_main_in_place :
  rewrites_in_place Main._persist_refresh_token_to_env.
Proof.
  intros new_rt w w'. subst w'. rewrite persist_main_run. cbn [snd].
  unfold main_persisted.
  destruct (read_error w) as [e|].
  { left. split; [|done]. erewrite added_app; [|reflexivity]. done. }
  destruct (io_write (env_io w)) eqn:Hw.
  - right. left. eapply written_in_place; [done|reflexivity|].
    eexists. split; [unfold written; simpl; rewrite <- !app_assoc;
                     reflexivity|done].
  - left. split; [|done]. erewrite added_app; [|reflexivity]. done.
  - right. right. split; [done|]. split; [|done].
    erewrite added_app;
      [|unfold truncated; simpl; rewrite <- !app_assoc; reflexivity].
    done.
Qed.

Lemma persist_ctl_in_place : rewrites_in_place Ctl._persist_rotated_rt.
Proof.
  intros new_rt w w'. subst w'. rewrite persist_ctl_spec. cbn [snd].
  unfold ctl_persisted.
  destruct (read_error w) as [e|].
  { left. split; [|done]. erewrite added_app; [|reflexivity]. done. }
  destruct (ctl_new_text (text_read w) new_rt) as [text|e].
  2:{ left. split; [|done]. erewrite added_app; [|reflexivity]. done. }
  destruct (io_write (env_io w)) eqn:Hw.
  - right. left. eapply written_in_place; [done|reflexivity|].
    eexists. split; [unfold written; simpl; rewrite <- !app_assoc;
                     reflexivity|done].
  - left. split; [|done]. erewrite added_app; [|reflexivity]. done.
  - right. right. split; [done|]. split; [|done].
    erewrite added_app;
      [|unfold truncated; simpl; rewrite <- !app_assoc; reflexivity].
    done.
Qed.

(** C6, as the code has it.  The persist routines of the poller and of both
    CLIs rewrite the credential file in place: a run either does not touch
    the file, or opens it for writing, which empties it, and then writes
    the whole new text, or opens it for writing and fails to write.  There
    is no temporary file and no replace step.  A crash between the two
    operations leaves the credential file empty; a run that completes
    leaves the old file, the new text, or, when the write failed after the
    opening, an empty file, which the poller's routine does on a full disk
    while returning normally. *)
Theorem persist_rewrites_in_place :
  rewrites_in_place Main._persist_refresh_token_to_env
  /\ rewrites_in_place Ctl._persist_rotated_rt
  /\ rewrites_in_place Amc._persist_rotated_rt
  /\ (forall new_rt w,
        read_error w = None -> io_write (env_io w) = WriteFails ->
        fst (Main._persist_refresh_token_to_env new_rt w) = Ok tt
        /\ env_file (snd (Main._persist_refresh_token_to_env new_rt w))
           = Some ""%string).
Proof.
  split; [apply persist_main_in_place|].
  split; [apply persist_ctl_in_place|].
  split; [apply persist_ctl_in_place|].
  intros new_rt w Hr Hw. rewrite persist_main_run. unfold main_persisted.
  by rewrite Hr, Hw.
Qed.

(** On the sample file the poller's routine runs the two operations. *)
Example persist_sample_file_events :
  file_events (added Sample.world0
                 (snd (Main._persist_refresh_token_to_env "rt-new"
                         Sample.world0)))
  = [EvTruncate;
     EvWrite ("HUSQ_CLIENT_ID=cid" ++ Py.NL ++ "HUSQ_REFRESH_TOKEN=rt-new"
              ++ Py.NL ++ "HUSQ_APP_KEY=key" ++ Py.NL)%string].
Proof. reflexivity. Qed.

(** On a full disk the poller's routine returns normally, has logged a
    warning, and the sample file is empty. *)
Example persist_on_full_disk :
  let out := Main._persist_refresh_token_to_env "rt-new"
               Sample.world_disk_full in
  fst out = Ok tt
  /\ env_file (snd out) = Some ""%string
  /\ trace (snd out)
     = [EvTruncate;
        persist_warning_of (OSError "No space left on device")].
Proof. vm_compute. tauto. Qed.

(** C6, as stated, fails: a crash of the poller's persist routine after its
    first file operation leaves the sample credential file empty, and the
    unrelated entries (client id, application key) are gone with it. *)
Lemma crash_mid_write_empties_the_file :
  nth_error
    (crash_states (env_file Sample.world0)
       (file_events
          (added Sample.world0
             (snd (Main._persist_refresh_token_to_env "rt-new"
                     Sample.world0)))))
    1
  = Some (Some ""%string)
  /\ Py.contains "HUSQ_CLIENT_ID=cid" Sample.env_text = true
  /\ Py.contains "HUSQ_CLIENT_ID=cid" "" = false.
Proof. vm_compute. tauto. Qed.

(** ** Action dispatcher *)

Ltac added_simpl :=
  erewrite added_app; [|simpl; rewrite <- ?app_assoc; reflexivity].

Lemma post_action_trace tok key mid payload w :
  exists evs,
    trace (snd (Ctl.post_action tok key mid payload w))
    = trace w ++ EvRequest (PostAction tok key mid payload) :: evs
    /\ forallb not_request evs = true.
Proof.
  unfold Ctl.post_action. apply http_then. intros o.
  unfold eprint. effects.
Qed.

Lemma requests_of_added w w' r evs :
  trace w' = trace w ++ EvRequest r :: evs ->
  forallb not_request evs = true ->
  requests_of (added w w') = [r].
Proof.
  intros E F. erewrite added_app by exact E.
  change (EvRequest r :: evs) with ([EvRequest r] ++ evs).
  by rewrite requests_of_app.
Qed.


Example park_thirty_minutes :
  requests_of
    (trace (snd (Ctl.do_park "access-1" "key" (Some "1"%string) (Some 30)
                             false Sample.world0)))
  = [PostAction "access-1" "key" (Some "1"%string)
       (JObj [("data",
               JObj [("type", JStr "Park");
                     ("attributes", JObj [("duration", JInt 30)])])])].
Proof. reflexivity. Qed.

(** C8.  For a device without the headlights capability (the flag is
    missing or false) the set-headlight operation sends no request, writes
    one line for the user and returns normally; a request goes out only
    when the flag is present and true, and then it is the one headlight
    setting. *)
Theorem headlight_needs_capability :
  forall tok key mower mode w,
    (Api.cap_headlights (Ctl.caps_of mower) <> Some true ->
     Ctl.do_set_headlight tok key mower mode w
     = (Ok tt,
        add_event
          (EvStderr
             ("Model has no headlights capability (headlights=False) for '"
              ++ Py.str_opt (Py.or_else (Api.name_of mower) (Api.m_id mower))
              ++ "'.")%string) w)
     /\ requests_of
          (added w (snd (Ctl.do_set_headlight tok key mower mode w))) = [])
    /\ (Api.cap_headlights (Ctl.caps_of mower) = Some true ->
        requests_of (added w (snd (Ctl.do_set_headlight tok key mower mode w)))
        = [PostAction tok key (Api.m_id mower)
             (JObj [("data",
                     JObj [("type", JStr "settings");
                           ("attributes",
                            JObj [("headlight",
                                   JObj [("mode", JStr mode)])])])])])
    /\ (requests_of
          (added w (snd (Ctl.do_set_headlight tok key mower mode w))) <> [] ->
        Api.cap_headlights (Ctl.caps_of mower) = Some true).
Proof.
  intros tok key mower mode w.
  assert (Hoff : Api.cap_headlights (Ctl.caps_of mower) <> Some true ->
                 Ctl.do_set_headlight tok key mower mode w
                 = (Ok tt,
                    add_event
                      (EvStderr
                         ("Model has no headlights capability (headlights=False) for '"
                          ++ Py.str_opt (Py.or_else (Api.name_of mower)
                                                    (Api.m_id mower))
                          ++ "'.")%string) w)).
  { intros H. unfold Ctl.do_set_headlight.
    destruct (Api.cap_headlights (Ctl.caps_of mower)) as [[|]|]; done. }
  split; [|split].
  - intros H. split; [by apply Hoff|].
    rewrite Hoff by done. by added_simpl.
  - intros H. unfold Ctl.do_set_headlight. rewrite H. simpl.
    destruct (post_action_trace tok key (Api.m_id mower)
                (Ctl.action_with "settings"
                   [("headlight", JObj [("mode", JStr mode)])]) w)
      as (evs & E & F).
    unfold bind, print, emit.
    destruct (Ctl.post_action tok key _ _ w) as [[[]|e] w1]; simpl in *.
    + apply (requests_of_added _ _ _
               (evs ++ [EvStdout ("OK: headlight mode set to " ++ mode)%string])).
      * simpl. by rewrite E, <- app_assoc.
      * rewrite forallb_app. by rewrite F.
    + by apply (requests_of_added _ _ _ evs).
  - intros H.
    destruct (Api.cap_headlights (Ctl.caps_of mower)) as [[|]|] eqn:Hc;
      [done| |]; exfalso; apply H; rewrite Hoff by done; by added_simpl.
Qed.

Lemma headlight_needs_capability_witness :
  Ctl.do_set_headlight "access-1" "key" (Sample.named "3" "C" (Some false))
                       "ALWAYS_ON" Sample.world0
  = (Ok tt,
     add_event
       (EvStderr "Model has no headlights capability (headlights=False) for 'C'.")
       Sample.world0).
Proof.
  exact (proj1 (proj1 (headlight_needs_capability
                         "access-1"%string "key"%string
                         (Sample.named "3" "C" (Some false))
                         "ALWAYS_ON"%string Sample.world0)
                      ltac:(discriminate))).
Defined.

(** ** Resume with fallback *)

Lemma requests_of_quiet evs :
  forallb not_request evs = true -> requests_of evs = [].
Proof. intros H. apply (requests_of_app [] evs H). Qed.

Lemma requests_of_two w w1 w2 r1 r2 evs1 evs2 :
  trace w1 = trace w ++ EvRequest r1 :: evs1 ->
  forallb not_request evs1 = true ->
  trace w2 = trace w1 ++ EvRequest r2 :: evs2 ->
  forallb not_request evs2 = true ->
  requests_of (added w w2) = [r1; r2].
Proof.
  intros E1 F1 E2 F2.
  erewrite added_app; [|rewrite E2, E1, <- app_assoc; reflexivity].
  unfold requests_of. simpl. rewrite omap_app. simpl.
  fold (requests_of evs1). fold (requests_of evs2).
  by rewrite !requests_of_quiet.
Qed.

Section ResumePattern.

Variable post : json -> M unit.
Variable rq : json -> request.

Hypothesis post_trace :
  forall payload w,
    exists evs,
      trace (snd (post payload w)) = trace w ++ EvRequest (rq payload) :: evs
      /\ forallb not_request evs = true.

Lemma resume_pattern_contract :
  resume_contract post (resume_pattern post)
                  (rq (Ctl.action "ResumeSchedule")) (rq (Ctl.action "Start")).
Proof.
  split.
  - intros fb w w1 H.
    destruct (post_trace (Ctl.action "ResumeSchedule") w) as (evs & E & F).
    rewrite H in E. simpl in E.
    unfold resume_pattern, bind, try_except, print, emit. rewrite H.
    split; [done|]. simpl.
    apply (requests_of_added _ _ _ (evs ++ [EvStdout "OK: mower resumed"])).
    + simpl. by rewrite E, <- app_assoc.
    + rewrite forallb_app. by rewrite F.
  - intros e w w1 H He.
    destruct (post_trace (Ctl.action "ResumeSchedule") w) as (evs & E & F).
    rewrite H in E. simpl in E.
    destruct (post_trace (Ctl.action "Start") w1) as (evs2 & E2 & F2).
    assert (Hrun : resume_pattern post true w
                   = bind (post (Ctl.action "Start"))
                          (fun _ => print "OK: mower resumed") w1).
    { unfold resume_pattern, bind, try_except. by rewrite H, He. }
    split; [done|]. rewrite Hrun. unfold bind, print, emit.
    destruct (post (Ctl.action "Start") w1) as [[[]|e2] w2]; simpl in *.
    + apply (requests_of_two w w1 _ _ _ evs
               (evs2 ++ [EvStdout "OK: mower resumed"])); try done.
      * simpl. by rewrite E2, <- app_assoc.
      * rewrite forallb_app. by rewrite F2.
    + by apply (requests_of_two w w1 _ _ _ evs evs2).
  - intros e w w1 H.
    destruct (post_trace (Ctl.action "ResumeSchedule") w) as (evs & E & F).
    rewrite H in E. simpl in E.
    assert (Hrun : resume_pattern post false w = (Raise e, w1)).
    { unfold resume_pattern, bind, try_except, raise. rewrite H.
      by destruct (is_Exception e). }
    split; [done|]. rewrite Hrun. by apply (requests_of_added _ _ _ evs).
  - intros fb w.
    destruct (post_trace (Ctl.action "ResumeSchedule") w) as (evs & E & F).
    assert (Hrest : exists evs', trace (snd (resume_pattern post fb w))
                                 = trace (snd (post (Ctl.action "ResumeSchedule") w))
                                   ++ evs').
    { unfold resume_pattern, bind, try_except, print, emit, raise.
      destruct (post (Ctl.action "ResumeSchedule") w) as [[[]|e] w1]; simpl.
      - by eexists.
      - destruct (is_Exception e); [|exists []; by rewrite app_nil_r].
        destruct fb; [|exists []; by rewrite app_nil_r].
        destruct (post_trace (Ctl.action "Start") w1) as (evs2 & E2 & _).
        destruct (post (Ctl.action "Start") w1) as [[[]|e2] w2]; simpl in *.
        + rewrite E2. rewrite <- app_assoc. by eexists.
        + rewrite E2. by eexists. }
    destruct Hrest as (evs' & E').
    exists (requests_of (evs ++ evs')).
    erewrite added_app; [|rewrite E', E, <- app_assoc; reflexivity].
    reflexivity.
Qed.

End ResumePattern.

Lemma amc_post_action_trace tok key mid payload w :
  exists evs,
    trace (snd (Amc.post_action tok key mid payload w))
    = trace w ++ EvRequest (PostAction tok key (Some mid) payload) :: evs
    /\ forallb not_request evs = true.
Proof.
  unfold Amc.post_action. apply http_then. intros o.
  unfold eprint. effects.
Qed.

(** C4.  In both CLIs the resume operation posts [ResumeSchedule] first.
    If that succeeds nothing else is sent.  If it fails (an [Exception] is
    raised) and the fallback was asked for, the run continues as exactly
    one post of [Start], whose outcome alone decides the result, the error
    of [ResumeSchedule] being dropped; no further request follows.  If it
    fails and the fallback was not asked for, the same error goes up and no
    [Start] is sent.  [Start] is never sent before [ResumeSchedule]. *)
Theorem resume_falls_back_once :
  (forall tok key mid,
      resume_contract (Ctl.post_action tok key mid)
                      (Ctl.do_resume tok key mid)
                      (PostAction tok key mid (Ctl.action "ResumeSchedule"))
                      (PostAction tok key mid (Ctl.action "Start")))
  /\ (forall access key mid,
        resume_contract (Amc.post_action access key mid)
                        (Amc.resume access key mid)
                        (PostAction access key (Some mid)
                                    (Ctl.action "ResumeSchedule"))
                        (PostAction access key (Some mid)
                                    (Ctl.action "Start"))).
Proof.
  split.
  - intros tok key mid.
    apply (resume_pattern_contract (Ctl.post_action tok key mid)
             (PostAction tok key mid)).
    intros payload w. apply post_action_trace.
  - intros access key mid.
    apply (resume_pattern_contract (Amc.post_action access key mid)
             (PostAction access key (Some mid))).
    intros payload w. apply amc_post_action_trace.
Qed.

Lemma resume_falls_back_once_witness :
  Ctl.do_resume "access-1" "key" (Some "1"%string) true Sample.world_no_resume
  = bind (Ctl.post_action "access-1" "key" (Some "1"%string)
                          (Ctl.action "Start"))
         (fun _ => print "OK: mower resumed")
         (snd (Ctl.post_action "access-1" "key" (Some "1"%string)
                               (Ctl.action "ResumeSchedule")
                               Sample.world_no_resume))
  /\ requests_of
       (added Sample.world_no_resume
          (snd (Ctl.do_resume "access-1" "key" (Some "1"%string) true
                              Sample.world_no_resume)))
     = [PostAction "access-1" "key" (Some "1"%string)
                   (Ctl.action "ResumeSchedule");
        PostAction "access-1" "key" (Some "1"%string) (Ctl.action "Start")].
Proof.
  exact (fallback_once _ _ _ _
           (proj1 resume_falls_back_once
                  "access-1"%string "key"%string (Some "1"%string))
           (ClientResponseError 409
              (Ctl.action_url (Some "1"%string)))
           Sample.world_no_resume
           (snd (Ctl.post_action "access-1" "key" (Some "1"%string)
                                 (Ctl.action "ResumeSchedule")
                                 Sample.world_no_resume))
           eq_refl eq_refl).
Defined.

Example resume_with_fallback_sample :
  fst (Ctl.do_resume "access-1" "key" (Some "1"%string) true
                     Sample.world_no_resume) = Ok tt
  /\ requests_of
       (trace (snd (Ctl.do_resume "access-1" "key" (Some "1"%string) true
                                  Sample.world_no_resume)))
     = [PostAction "access-1" "key" (Some "1"%string)
                   (Ctl.action "ResumeSchedule");
        PostAction "access-1" "key" (Some "1"%string) (Ctl.action "Start")].
Proof. split; reflexivity. Qed.

Example resume_without_fallback_sample :
  fst (Ctl.do_resume "access-1" "key" (Some "1"%string) false
                     Sample.world_no_resume)
  = Raise (ClientResponseError 409 (Ctl.action_url (Some "1"%string)))
  /\ requests_of
       (trace (snd (Ctl.do_resume "access-1" "key" (Some "1"%string) false
                                  Sample.world_no_resume)))
     = [PostAction "access-1" "key" (Some "1"%string)
                   (Ctl.action "ResumeSchedule")].
Proof. split; reflexivity. Qed.

(** ** Polling loop *)

Lemma persist_main_no_sleep new_rt :
  appends not_sleep (Main._persist_refresh_token_to_env new_rt).
Proof. unfold Main._persist_refresh_token_to_env, log. effects. Qed.

Lemma run_once_no_sleep cfg influx :
  appends not_sleep (Main.run_once cfg influx).
Proof.
  unfold Main.run_once, Main.fetch_mowers, Main.async_get_access_token,
    Main.refresh_exchange, Main.handle_rotation, Main.poll_item, Main.write,
    log, time_time, get_auth, put_auth.
  repeat first [apply persist_main_no_sleep | effects_step].
Qed.

(** One turn, by what [run_once] did. *)
Lemma loop_turn_cases cfg influx w :
  match Main.run_once cfg influx w with
  | (Ok _, w1) =>
      Main.loop_turn cfg influx w = sleep (Z.max 1 (Main.poll_seconds cfg)) w1
  | (Raise e, w1) =>
      if is_Exception e
      then Main.loop_turn cfg influx w
           = sleep (Z.max 1 (Main.poll_seconds cfg))
                   (add_event (EvLog ERROR "Polling error: %s" [AExn e]) w1)
      else Main.loop_turn cfg influx w = (Raise e, w1)
  end.
Proof.
  unfold Main.loop_turn, bind, try_except, log, emit, ret.
  destruct (Main.run_once cfg influx w) as [[code|e] w1]; [done|].
  by destruct (is_Exception e).
Qed.

Lemma loop_turn_sleeps cfg influx w :
  match Main.loop_turn cfg influx w with
  | (Ok _, w') =>
      sleeps_of (trace w')
      = sleeps_of (trace w) ++ [Z.max 1 (Main.poll_seconds cfg)]
  | (Raise e, _) => is_Exception e = false
  end.
Proof.
  pose proof (loop_turn_cases cfg influx w) as H.
  destruct (run_once_no_sleep cfg influx w) as (evs & E & F).
  destruct (Main.run_once cfg influx w) as [[code|e] w1]; simpl in E.
  - rewrite H. simpl. unfold sleeps_of at 1. rewrite omap_app. simpl.
    fold (sleeps_of (trace w1)). by rewrite E, sleeps_of_app.
  - destruct (is_Exception e) eqn:He; rewrite H; [|done]. simpl.
    unfold sleeps_of at 1. rewrite !omap_app. simpl.
    fold (sleeps_of (trace w1)). rewrite app_nil_r.
    by rewrite E, sleeps_of_app.
Qed.


(** Three turns against a device list that cannot be reached, with a
    configured interval of zero: three errors logged, three sleeps of one
    second, and the loop is still going. *)
Example polling_sample_errors :
  let w := Sample.world_with None true Sample.net_down in
  let cfg := Sample.poll_cfg 0 in
  fst (Main.run_loop 3 cfg (Sample.no_influx cfg) w) = Ok tt
  /\ sleeps_of (trace (snd (Main.run_loop 3 cfg (Sample.no_influx cfg) w)))
     = [1; 1; 1]
  /\ errors_logged
       (trace (snd (Main.run_loop 3 cfg (Sample.no_influx cfg) w)))
     = replicate 3 ("Polling error: %s"%string,
                    [AExn (ClientConnectionError "connection refused")]).
Proof. vm_compute. tauto. Qed.

(** An interrupt is not caught. *)
Example polling_sample_interrupt :
  let w := Sample.world_with None true Sample.net_interrupted in
  let cfg := Sample.poll_cfg 30 in
  fst (Main.run_loop 3 cfg (Sample.no_influx cfg) w) = Raise KeyboardInterrupt.
Proof. reflexivity. Qed.

(** ** Device directory *)




Lemma find_first {A} (f : A -> bool) (l : list A) :
  match List.find f l with
  | Some x => In x l /\ f x = true
  | None => forall x, In x l -> f x = false
  end.
Proof.
  destruct (List.find f l) as [x|] eqn:H.
  - by apply find_some in H.
  - intros x Hx. by apply (find_none f l H).
Qed.










(** The cases the specification lists for three devices A, B, C with ids
    1, 2, 3, and for a single device. *)
Example resolve_by_id :
  fst (Ctl.pick_mower {| Api.data := Some Sample.three_mowers |}
                      (Some "2"%string) None Sample.world0)
  = Ok (Sample.named "2" "B" (Some true)).
Proof. reflexivity. Qed.

Example resolve_by_name :
  fst (Amc.pick_mower {| Api.data := Some Sample.three_mowers |}
                      None (Some "C"%string) Sample.world0)
  = Ok "3"%string.
Proof. reflexivity. Qed.

Example resolve_the_only_one :
  fst (Ctl.pick_mower {| Api.data := Some [Sample.named "7" "G" None] |}
                      None None Sample.world0)
  = Ok (Sample.named "7" "G" None).
Proof. reflexivity. Qed.


(** * Further properties of the code *)

(** ** Work areas *)

Lemma find_skips {A} (f : A -> bool) pre x post :
  Forall (fun a => f a = false) pre -> f x = true ->
  List.find f (pre ++ x :: post) = Some x.
Proof.
  intros Hpre Hx. induction Hpre as [|a pre Ha _ IH]; simpl.
  - by rewrite Hx.
  - by rewrite Ha.
Qed.

Lemma find_work_area_id_silent mower q w :
  snd (Ctl.find_work_area_id mower q w) = w.
Proof.
  unfold Ctl.find_work_area_id, Ctl.int_of_area, ret, raise.
  repeat (match goal with
          | |- context [match ?x with _ => _ end] => destruct x
          end; simpl; try done).
Qed.

(** X1.  Work-area lookup takes the first area whose name is the given text and
    only then the first area whose id, written in decimal, is the given
    text: a name wins over an id, whatever the order of the areas.  An
    answer is always the id of an area of this mower that matches in one of
    the two ways; when no area matches in either way the run stops with the
    not-found message; the lookup itself has no effect. *)
Theorem work_area_by_name_before_id :
  forall mower q w,
    let areas := default [] (Api.at_workAreas (Api.attrs_of mower)) in
    (forall n,
        fst (Ctl.find_work_area_id mower q w) = Ok n ->
        exists wa,
          In wa areas /\ Api.wa_workAreaId wa = Some n
          /\ (Api.wa_name wa = Some q \/ Py.str_int n = q))
    /\ (forall pre wa post n,
          areas = pre ++ wa :: post ->
          Forall (fun a => Api.wa_name a <> Some q) pre ->
          Api.wa_name wa = Some q ->
          Api.wa_workAreaId wa = Some n ->
          Ctl.find_work_area_id mower q w = (Ok n, w))
    /\ (forall pre wa post n,
          areas = pre ++ wa :: post ->
          Forall (fun a => Api.wa_name a <> Some q) areas ->
          Forall (fun a => Ctl.str_opt_int (Api.wa_workAreaId a) <> q) pre ->
          Api.wa_workAreaId wa = Some n ->
          Py.str_int n = q ->
          Ctl.find_work_area_id mower q w = (Ok n, w))
    /\ ((forall a, In a areas ->
           Api.wa_name a <> Some q
           /\ Ctl.str_opt_int (Api.wa_workAreaId a) <> q) ->
        Ctl.find_work_area_id mower q w
        = (Raise (SystemExit
                    (ExitMsg ("Work area '" ++ q
                              ++ "' not found on this mower.")%string)), w))
    /\ snd (Ctl.find_work_area_id mower q w) = w.
Proof.
  intros mower q w areas.
  set (by_name := fun wa : Api.work_area =>
                    bool_decide (Api.wa_name wa = Some q)).
  set (by_id := fun wa : Api.work_area =>
                  String.eqb (Ctl.str_opt_int (Api.wa_workAreaId wa)) q).
  assert (Hrun : Ctl.find_work_area_id mower q w
                 = match List.find by_name areas with
                   | Some wa => Ctl.int_of_area wa w
                   | None =>
                       match List.find by_id areas with
                       | Some wa => Ctl.int_of_area wa w
                       | None =>
                           (Raise (SystemExit
                                     (ExitMsg ("Work area '" ++ q
                                               ++ "' not found on this mower.")%string)), w)
                       end
                   end).
  { unfold Ctl.find_work_area_id. fold areas. fold by_name. fold by_id.
    destruct (List.find by_name areas); [done|].
    by destruct (List.find by_id areas). }
  assert (Hname : forall l, Forall (fun a => Api.wa_name a <> Some q) l ->
                            Forall (fun a => by_name a = false) l).
  { intros l Hl. eapply Forall_impl; [exact Hl|].
    intros a Ha. by apply bool_decide_eq_false. }
  split; [|split; [|split; [|split]]].
  - intros n. rewrite Hrun.
    pose proof (find_first by_name areas) as Hn.
    pose proof (find_first by_id areas) as Hi.
    destruct (List.find by_name areas) as [wa|].
    + destruct Hn as [Hin Hm]. apply bool_decide_eq_true in Hm.
      unfold Ctl.int_of_area.
      destruct (Api.wa_workAreaId wa) as [k|] eqn:Hk; simpl; [|done].
      intros [= <-]. exists wa. auto.
    + destruct (List.find by_id areas) as [wa|]; [|done].
      destruct Hi as [Hin Hm]. apply String.eqb_eq in Hm.
      unfold Ctl.int_of_area.
      destruct (Api.wa_workAreaId wa) as [k|] eqn:Hk; simpl; [|done].
      intros [= <-]. exists wa. simpl in Hm. auto.
  - intros pre wa post n Hareas Hpre Hwa Hid. rewrite Hrun, Hareas.
    rewrite (find_skips by_name pre wa post);
      [|by apply Hname|by apply bool_decide_eq_true].
    unfold Ctl.int_of_area. by rewrite Hid.
  - intros pre wa post n Hareas Hall Hpre Hid Hstr. rewrite Hrun.
    pose proof (find_first by_name areas) as Hn.
    destruct (List.find by_name areas) as [wa'|].
    { destruct Hn as [Hin Hm]. apply bool_decide_eq_true in Hm.
      rewrite List.Forall_forall in Hall. by destruct (Hall wa' Hin). }
    rewrite Hareas, (find_skips by_id pre wa post).
    + unfold Ctl.int_of_area. by rewrite Hid.
    + eapply Forall_impl; [exact Hpre|].
      intros a Ha. by apply String.eqb_neq.
    + unfold by_id. rewrite Hid. simpl. by apply String.eqb_eq.
  - intros Hnone. rewrite Hrun.
    pose proof (find_first by_name areas) as Hn.
    pose proof (find_first by_id areas) as Hi.
    destruct (List.find by_name areas) as [wa|].
    { destruct Hn as [Hin Hm]. apply bool_decide_eq_true in Hm.
      by destruct (Hnone wa Hin). }
    destruct (List.find by_id areas) as [wa|]; [|done].
    destruct Hi as [Hin Hm]. apply String.eqb_eq in Hm.
    by destruct (Hnone wa Hin).
  - apply find_work_area_id_silent.
Qed.

(** ** The start command *)

Lemma bind_after_request (p : event -> bool) {A B} r (m : M A) (k : A -> M B) :
  (forall w, exists evs,
      trace (snd (m w)) = trace w ++ EvRequest r :: evs
      /\ forallb p evs = true) ->
  (forall a, appends p (k a)) ->
  forall w, exists evs,
    trace (snd (bind m k w)) = trace w ++ EvRequest r :: evs
    /\ forallb p evs = true.
Proof.
  intros Hm Hk w. unfold bind.
  destruct (Hm w) as (evs & E & F).
  destruct (m w) as [[a|e] w1]; simpl in *; [|by exists evs].
  destruct (Hk a w1) as (evs' & E' & F').
  exists (evs ++ evs'). rewrite E', E, <- app_assoc. split; [done|].
  rewrite forallb_app. by rewrite F, F'.
Qed.

Lemma do_start_trace tok key mid wa d w :
  exists evs,
    trace (snd (Ctl.do_start tok key mid wa d w))
    = trace w ++ EvRequest (PostAction tok key mid
                              (match start_attrs wa d with
                               | [] => Ctl.action "Start"
                               | _ => Ctl.action_with "Start" (start_attrs wa d)
                               end)) :: evs
    /\ forallb not_request evs = true.
Proof.
  unfold Ctl.do_start, start_attrs.
  apply bind_after_request.
  - intros w0. apply post_action_trace.
  - intros _. unfold print. effects.
Qed.

Lemma reporting_adds_no_request (body : M unit) w :
  exists evs,
    trace (snd (Ctl.reporting_http_errors body w))
    = trace (snd (body w)) ++ evs
    /\ forallb not_request evs = true.
Proof.
  unfold Ctl.reporting_http_errors.
  destruct (body w) as [[[]|e] w1]; simpl; [exists []; by rewrite app_nil_r|].
  destruct e; simpl; try (exists []; by rewrite app_nil_r).
  by eexists [_].
Qed.

Lemma reporting_requests (body : M unit) w :
  (exists evs, trace (snd (body w)) = trace w ++ evs) ->
  requests_of (added w (snd (Ctl.reporting_http_errors body w)))
  = requests_of (added w (snd (body w))).
Proof.
  intros (evs & E).
  destruct (reporting_adds_no_request body w) as (evs' & E' & F').
  erewrite (added_app w (snd (Ctl.reporting_http_errors body w)))
    by (rewrite E', E, <- app_assoc; reflexivity).
  erewrite (added_app w (snd (body w))) by exact E.
  by rewrite requests_of_app.
Qed.

(** X2.  The start command of the action CLI.  An empty [--work-area] counts
    as none: the request is a plain [Start], or [Start] with the duration
    alone.  A work area is looked up before anything is sent: when the
    lookup fails the command fails with the lookup's error and no request
    has gone out; when it succeeds the single request carries the id found,
    before the duration. *)
Theorem start_looks_up_the_area_first :
  forall a access cfg mower wa d w,
    Ctl.arg_cmd a = Ctl.CmdStart wa d ->
    let run := Ctl.reporting_http_errors (Ctl.dispatch a access cfg mower) in
    let sent attrs :=
      [PostAction access (Ctl.cfg_app_key cfg) (Api.m_id mower)
         (match attrs with
          | [] => JObj [("data", JObj [("type", JStr "Start")])]
          | _ => JObj [("data", JObj [("type", JStr "Start");
                                      ("attributes", JObj attrs)])]
          end)] in
    if Py.truthy wa then
      match fst (Ctl.find_work_area_id mower (default ""%string wa) w) with
      | Ok n =>
          requests_of (added w (snd (run w)))
          = sent (("workAreaId"%string, JInt n)
                    :: match d with
                       | Some k => [("duration"%string, JInt k)]
                       | None => []
                       end)
      | Raise e => run w = (Raise e, w)
      end
    else
      requests_of (added w (snd (run w)))
      = sent (match d with
              | Some k => [("duration"%string, JInt k)]
              | None => []
              end).
Proof.
  intros a access cfg mower wa d w Hcmd run sent.
  assert (Hstart : forall o,
             requests_of
               (added w (snd (Ctl.reporting_http_errors
                                (Ctl.do_start access (Ctl.cfg_app_key cfg)
                                              (Api.m_id mower) o d) w)))
             = sent (start_attrs o d)).
  { intros o.
    destruct (do_start_trace access (Ctl.cfg_app_key cfg) (Api.m_id mower)
                             o d w) as (evs & E & F).
    rewrite reporting_requests by eauto.
    rewrite (requests_of_added _ _ _ _ E F). unfold sent.
    by destruct (start_attrs o d). }
  unfold run, Ctl.dispatch. rewrite Hcmd.
  destruct (Py.truthy wa) eqn:Hwa.
  - pose proof (find_work_area_id_silent mower (default ""%string wa) w) as Hs.
    destruct (Ctl.find_work_area_id mower (default ""%string wa) w)
      as [[n|e] w1] eqn:Hfind; simpl in Hs; subst w1; simpl.
    + replace (Ctl.reporting_http_errors _ w)
        with (Ctl.reporting_http_errors
                (Ctl.do_start access (Ctl.cfg_app_key cfg) (Api.m_id mower)
                              (Some n) d) w).
      { apply (Hstart (Some n)). }
      unfold Ctl.reporting_http_errors, bind, ret. by rewrite Hfind.
    + unfold Ctl.reporting_http_errors, bind, ret. rewrite Hfind.
      revert Hfind. unfold Ctl.find_work_area_id, Ctl.int_of_area, raise, ret.
      repeat (match goal with
              | |- context [match ?x with _ => _ end] => destruct x
              end; try done); by intros [= <-].
  - apply (Hstart None).
Qed.

Lemma start_looks_up_the_area_first_witness :
  requests_of
    (added Sample.world0
       (snd (Ctl.reporting_http_errors
               (Ctl.dispatch (ctl_args (Ctl.CmdStart (Some "2"%string) (Some 45)))
                             "tok" ctl_cfg yard_mower) Sample.world0)))
  = [PostAction "tok" "key" (Some "m-1"%string)
       (JObj [("data"%string,
               JObj [("type"%string, JStr "Start");
                     ("attributes"%string,
                      JObj [("workAreaId"%string, JInt 7);
                            ("duration"%string, JInt 45)])])])].
Proof.
  exact (start_looks_up_the_area_first
           (ctl_args (Ctl.CmdStart (Some "2"%string) (Some 45)))
           "tok" ctl_cfg yard_mower (Some "2"%string) (Some 45)
           Sample.world0 eq_refl).
Defined.

(** ** Incomplete configuration *)

Lemma ctl_read_cfg_run w :
  Ctl.read_cfg w
  = match missing_keys w with
    | [] =>
        (Ok {| Ctl.cfg_client_id := env_value w "HUSQ_CLIENT_ID";
               Ctl.cfg_client_secret := env_value w "HUSQ_CLIENT_SECRET";
               Ctl.cfg_app_key := env_value w "HUSQ_APP_KEY";
               Ctl.cfg_refresh_token := env_value w "HUSQ_REFRESH_TOKEN" |}, w)
    | missing =>
        (Raise (SystemExit (ExitMsg ("Missing env vars in .env: "
                                     ++ Py.join ", " missing)%string)), w)
    end.
Proof.
  unfold Ctl.read_cfg, Ctl.g, bind, get_world, ret, missing_keys, required_keys.
  cbv beta iota. cbn [List.filter].
  change (Py.strip (default ""%string (environ w !! "HUSQ_CLIENT_ID"%string)))
    with (env_value w "HUSQ_CLIENT_ID").
  change (Py.strip (default ""%string (environ w !! "HUSQ_CLIENT_SECRET"%string)))
    with (env_value w "HUSQ_CLIENT_SECRET").
  change (Py.strip (default ""%string (environ w !! "HUSQ_APP_KEY"%string)))
    with (env_value w "HUSQ_APP_KEY").
  change (Py.strip (default ""%string (environ w !! "HUSQ_REFRESH_TOKEN"%string)))
    with (env_value w "HUSQ_REFRESH_TOKEN").
  destruct (env_value w "HUSQ_CLIENT_ID"), (env_value w "HUSQ_CLIENT_SECRET"),
    (env_value w "HUSQ_APP_KEY"), (env_value w "HUSQ_REFRESH_TOKEN");
    reflexivity.
Qed.

Lemma persist_ctl_quiet (p : event -> bool) new_rt :
  (forall e, not_request e = true -> not_sleep e = true -> p e = true) ->
  appends p (Ctl._persist_rotated_rt new_rt).
Proof.
  intros Hp.
  unfold Ctl._persist_rotated_rt, Ctl.re_sub_entry, path_exists, print.
  repeat first [ apply appends_emit; by apply Hp
               | apply appends_write_text; by apply Hp
               | effects_step ].
Qed.

Lemma ctl_main_auth_trace cfg w :
  exists evs,
    trace (snd (Ctl.main_auth cfg w))
    = trace w ++ EvRequest (PostToken (Ctl.cfg_refresh_token cfg)
                                      (Ctl.cfg_client_id cfg)
                                      (Ctl.cfg_client_secret cfg)) :: evs
    /\ forallb not_request evs = true.
Proof.
  unfold Ctl.main_auth.
  apply bind_after_request.
  - intros w0. unfold Ctl.get_access_token. apply http_then. intros o.
    unfold eprint. destruct o as [status txt b|e]; [|effects].
    apply appends_bind; [effects|intros _].
    destruct b as [js| |]; [|effects..].
    destruct (Api.access_token js); effects.
  - intros [[access rotated] ex].
    apply appends_bind; [|intros _; effects].
    destruct rotated as [new_rt|]; [|effects].
    destruct (_ && _); [|effects].
    by apply persist_ctl_quiet.
Qed.

Lemma ctl_get_mowers_trace access key w :
  exists evs,
    trace (snd (Ctl.get_mowers access key w))
    = trace w ++ EvRequest (GetMowers (Some access) key) :: evs
    /\ forallb not_request evs = true.
Proof.
  unfold Ctl.get_mowers. apply http_then. intros o.
  unfold eprint. destruct o as [status txt b|e]; [|effects].
  apply appends_bind; [effects|intros _].
  destruct b; effects.
Qed.

Lemma ctl_pick_mower_quiet mowers mid name :
  appends not_request (Ctl.pick_mower mowers mid name).
Proof.
  unfold Ctl.pick_mower, eprint.
  destruct (default [] (Api.data mowers)) as [|first others]; [effects|].
  destruct (Py.truthy mid).
  { destruct (List.find _ _); effects. }
  destruct (Py.truthy name).
  { destruct (List.find _ _); effects. }
  effects.
Qed.


Lemma appends_weaken (p q : event -> bool) {A} (m : M A) :
  (forall e, p e = true -> q e = true) -> appends p m -> appends q m.
Proof.
  intros Hpq Hm w. destruct (Hm w) as (evs & E & F).
  exists evs. split; [done|].
  rewrite forallb_forall in F. apply forallb_forall. auto.
Qed.

Lemma forallb_any evs : forallb any_event evs = true.
Proof. by induction evs. Qed.

Lemma appends_grows (p : event -> bool) {A} (m : M A) :
  appends p m -> appends any_event m.
Proof. by apply appends_weaken. Qed.




Lemma appends_reporting (p : event -> bool) (body : M unit) :
  (forall s, p (EvStderr s) = true) ->
  appends p body -> appends p (Ctl.reporting_http_errors body).
Proof.
  intros Hp Hb w. destruct (Hb w) as (evs & E & F).
  unfold Ctl.reporting_http_errors.
  destruct (body w) as [[[]|e] w1]; simpl in *; [by exists evs|].
  destruct e; try (by exists evs).
  eexists (evs ++ [_]). simpl. rewrite E, <- app_assoc. split; [done|].
  rewrite forallb_app, F. simpl. by rewrite Hp.
Qed.

Lemma post_action_only tok key mid payload :
  appends (only_actions_for tok key mid) (Ctl.post_action tok key mid payload).
Proof.
  unfold Ctl.post_action, eprint.
  apply appends_bind.
  - apply appends_http. simpl. rewrite !String.eqb_refl.
    by rewrite bool_decide_true.
  - intros o. destruct o; effects.
Qed.

Lemma dispatch_only a access cfg mower :
  appends (only_actions_for access (Ctl.cfg_app_key cfg) (Api.m_id mower))
          (Ctl.dispatch a access cfg mower).
Proof.
  unfold Ctl.dispatch.
  destruct (Ctl.arg_cmd a) as [| |fb|wa d|d u| |h|mode].
  - unfold Ctl.print_list_actions, print. effects.
  - unfold Ctl.do_pause, print.
    repeat first [apply post_action_only | effects_step].
  - unfold Ctl.do_resume, print.
    repeat first [apply post_action_only | effects_step].
  - apply appends_bind.
    + destruct (Py.truthy wa); [|effects].
      apply appends_bind; [|intros n; effects].
      apply appends_silent. intros w.
      by rewrite find_work_area_id_silent.
    + intros o. unfold Ctl.do_start, print.
      repeat first [apply post_action_only | effects_step].
  - unfold Ctl.do_park, print.
    repeat first [apply post_action_only | effects_step].
  - unfold Ctl.do_confirm_error, print.
    repeat first [apply post_action_only | effects_step].
  - unfold Ctl.do_set_cutting_height, print.
    repeat first [apply post_action_only | effects_step].
  - unfold Ctl.do_set_headlight, print, eprint.
    repeat first [apply post_action_only | effects_step].
Qed.


Lemma ctl_dispatch_grows a access cfg mower :
  appends any_event
    (Ctl.reporting_http_errors (Ctl.dispatch a access cfg mower)).
Proof.
  apply appends_reporting; [done|]. eapply appends_grows, dispatch_only.
Qed.

Lemma ctl_pick_grows a access cfg mowers :
  appends any_event
    (let* mower := Ctl.pick_mower mowers (Ctl.arg_mower_id a)
                                  (Ctl.arg_mower_name a) in
     Ctl.reporting_http_errors (Ctl.dispatch a access cfg mower)).
Proof.
  apply appends_bind; [|intros; apply ctl_dispatch_grows].
  eapply appends_grows, ctl_pick_mower_quiet.
Qed.

Lemma ctl_get_mowers_grows access key :
  appends any_event (Ctl.get_mowers access key).
Proof.
  intros w0. destruct (ctl_get_mowers_trace access key w0) as (evs & E & _).
  exists (EvRequest (GetMowers (Some access) key) :: evs).
  split; [exact E|apply forallb_any].
Qed.


Lemma run_script_trace (main : M unit) w :
  exists evs, trace (snd (run_script main w)) = trace (snd (main w)) ++ evs.
Proof.
  unfold run_script.
  destruct (main w) as [[[]|e] w1]; simpl; [exists []; by rewrite app_nil_r|].
  destruct e as [| | | | | | | | | | | |[msg|n]|]; simpl;
    first [by eexists [_] | exists []; by rewrite app_nil_r].
Qed.

(** X3.  The action CLI reads its four settings from the process
    environment, each stripped of surrounding blanks.  When one of them is
    missing, empty or blank the process ends with status 1 after one line
    on the error channel that names every such key, in the order client id,
    client secret, application key, refresh token; nothing else has
    happened, no request in particular.  When all four have a value the
    first thing the program does is the token exchange with exactly these
    stripped values. *)
Theorem ctl_refuses_incomplete_settings :
  forall a w,
    (missing_keys w <> [] ->
     run_script (Ctl.main a) w
     = (Exit 1,
        add_event (EvStderr ("Missing env vars in .env: "
                             ++ Py.join ", " (missing_keys w))%string) w))
    /\ (missing_keys w = [] ->
        exists evs,
          trace (snd (run_script (Ctl.main a) w))
          = trace w
              ++ EvRequest (PostToken (env_value w "HUSQ_REFRESH_TOKEN")
                                      (env_value w "HUSQ_CLIENT_ID")
                                      (env_value w "HUSQ_CLIENT_SECRET"))
              :: evs).
Proof.
  intros a w. split.
  - intros Hm. unfold run_script, Ctl.main. unfold bind at 1.
    rewrite ctl_read_cfg_run. by destruct (missing_keys w).
  - intros Hm.
    destruct (run_script_trace (Ctl.main a) w) as (evs' & E').
    assert (H : exists evs,
               trace (snd (Ctl.main a w))
               = trace w
                   ++ EvRequest (PostToken (env_value w "HUSQ_REFRESH_TOKEN")
                                           (env_value w "HUSQ_CLIENT_ID")
                                           (env_value w "HUSQ_CLIENT_SECRET"))
                   :: evs
               /\ forallb any_event evs = true).
    { unfold Ctl.main. unfold bind at 1. rewrite ctl_read_cfg_run, Hm.
      apply (bind_after_request any_event).
      - intros w0. destruct (ctl_main_auth_trace
                               {| Ctl.cfg_client_id := env_value w "HUSQ_CLIENT_ID";
                                  Ctl.cfg_client_secret := env_value w "HUSQ_CLIENT_SECRET";
                                  Ctl.cfg_app_key := env_value w "HUSQ_APP_KEY";
                                  Ctl.cfg_refresh_token := env_value w "HUSQ_REFRESH_TOKEN" |}
                               w0) as (evs & E & _).
        exists evs. split; [exact E|apply forallb_any].
      - intros ac. apply appends_bind; [apply ctl_get_mowers_grows|].
        intros mowers. apply ctl_pick_grows. }
    destruct H as (evs & E & _).
    exists (evs ++ evs'). by rewrite E', E, <- app_assoc.
Qed.




(** ** The small CLI *)

(** X5.  The small CLI reports every setting that is missing, empty or
    blank on the error channel while it reads the environment, one line
    for each, naming the environment variable; after that it ends with
    status 1 and a line that lists the same settings again, this time by
    the names of the configuration attributes.  Nothing has been sent. *)
Theorem amc_reports_each_missing_setting :
  forall a w,
    missing_keys w <> [] ->
    let end_ := run_script (Amc.main a) w in
    fst end_ = Exit 1
    /\ added w (snd end_)
       = map (fun k => EvStderr ("Missing " ++ k ++ " in .env")%string)
             (missing_keys w)
         ++ [EvStderr ("Missing env vars in .env: "
                       ++ Py.join ", " (map field_of (missing_keys w)))%string].
Proof.
  intros a w. unfold missing_keys, required_keys. cbn [List.filter].
  unfold run_script, Amc.main, Amc.read_cfg. unfold bind at 1.
  unfold Amc.g, bind, get_world, ret, eprint, emit, raise.
  cbv beta iota zeta.
  change (Py.strip (default ""%string (environ w !! "HUSQ_CLIENT_ID"%string)))
    with (env_value w "HUSQ_CLIENT_ID").
  destruct (env_value w "HUSQ_CLIENT_ID");
    cbv beta iota; cbn [negb Py.truthy_str environ add_event];
    (change (Py.strip (default ""%string (environ w !! "HUSQ_CLIENT_SECRET"%string)))
       with (env_value w "HUSQ_CLIENT_SECRET"));
    (destruct (env_value w "HUSQ_CLIENT_SECRET"));
    cbv beta iota; cbn [negb Py.truthy_str environ add_event];
    (change (Py.strip (default ""%string (environ w !! "HUSQ_APP_KEY"%string)))
       with (env_value w "HUSQ_APP_KEY"));
    (destruct (env_value w "HUSQ_APP_KEY"));
    cbv beta iota; cbn [negb Py.truthy_str environ add_event];
    (change (Py.strip (default ""%string (environ w !! "HUSQ_REFRESH_TOKEN"%string)))
       with (env_value w "HUSQ_REFRESH_TOKEN"));
    (destruct (env_value w "HUSQ_REFRESH_TOKEN"));
    intros Hm; try done; simpl;
    (split; [reflexivity|]);
    (apply added_app; simpl; by rewrite <- ?app_assoc).
Qed.

Lemma amc_reports_each_missing_setting_witness :
  let w := world_without ["HUSQ_CLIENT_SECRET"; "HUSQ_REFRESH_TOKEN"]%string in
  let end_ := run_script
                (Amc.main {| Amc.arg_mower_id := None; Amc.arg_mower_name := None;
                             Amc.arg_cmd := Amc.CmdPause |}) w in
  fst end_ = Exit 1
  /\ added w (snd end_)
     = [EvStderr "Missing HUSQ_CLIENT_SECRET in .env";
        EvStderr "Missing HUSQ_REFRESH_TOKEN in .env";
        EvStderr "Missing env vars in .env: client_secret, refresh_token"].
Proof.
  apply (amc_reports_each_missing_setting
           {| Amc.arg_mower_id := None; Amc.arg_mower_name := None;
              Amc.arg_cmd := Amc.CmdPause |}
           (world_without ["HUSQ_CLIENT_SECRET"; "HUSQ_REFRESH_TOKEN"]%string)).
  by vm_compute.
Defined.


















(** ** The park command *)



(** A run of the small CLI that parks the second sample device for thirty
    minutes, and one that names no device among the three. *)
Example amc_park_sample :
  let a := {| Amc.arg_mower_id := Some "2"%string;
              Amc.arg_mower_name := None;
              Amc.arg_cmd := Amc.CmdPark (Some 30) |} in
  fst (Amc.main a Sample.world0) = Ok tt
  /\ requests_of (trace (snd (Amc.main a Sample.world0)))
     = [PostToken "rt-old" "cid" "secret";
        GetMowers (Some "access-1"%string) "key";
        PostAction "access-1" "key" (Some "2"%string)
          (JObj [("data"%string,
                  JObj [("type"%string, JStr "Park");
                        ("attributes"%string,
                         JObj [("duration"%string, JInt 30)])])])].
Proof. vm_compute. tauto. Qed.

Example amc_park_ambiguous_sample :
  let a := {| Amc.arg_mower_id := None; Amc.arg_mower_name := None;
              Amc.arg_cmd := Amc.CmdPark None |} in
  fst (run_script (Amc.main a) Sample.world0) = Exit 2
  /\ requests_of (trace (snd (Amc.main a Sample.world0)))
     = [PostToken "rt-old" "cid" "secret";
        GetMowers (Some "access-1"%string) "key"]
  /\ stderr_of (trace (snd (Amc.main a Sample.world0)))
     = ["Multiple mowers found; use --mower-id or --mower-name:"%string;
        "- A (1)"%string; "- B (2)"%string; "- C (3)"%string].
Proof. vm_compute. tauto. Qed.

(** ** One round of the poller *)

Lemma not_request_not_influx e : not_request e = true -> not_influx e = true.
Proof. by destruct e. Qed.

Lemma fetch_mowers_not_influx key : appends not_influx (Main.fetch_mowers key).
Proof.
  unfold Main.fetch_mowers, Main.async_get_access_token,
    Main.refresh_exchange, Main.handle_rotation, log, time_time, get_auth,
    put_auth.
  repeat first
    [ apply (appends_weaken not_request not_influx);
      [apply not_request_not_influx|apply persist_main_no_request]
    | effects_step ].
Qed.

(** X7.  The result of one polling round.  With one of the four
    credentials of the configuration empty the round is one error line in
    the log and the result 2: nothing is asked of the remote side.  With
    all four present the device list is fetched: a failure of the fetch is
    the failure of the round; an account that lists no device (no [data]
    member, a null or an empty list) gives a warning and the result 1, and
    nothing has been written to the metrics store; a list with devices is
    gone through device by device, and the round gives 0 when that loop
    goes through and the failure of the loop otherwise.  So the result is
    2, 1 or 0, it is 2 only for an incomplete configuration, 1 only for an
    account without devices and 0 only for an account with devices. *)
Theorem polling_round_result :
  forall cfg influx w,
    let out := Main.run_once cfg influx w in
    let fetched := Main.fetch_mowers (Main.cfg_api_key cfg) w in
    (complete cfg = false ->
     out = (Ok 2,
            add_event
              (EvLog ERROR
                 "Missing required env vars (HUSQ_CLIENT_ID/SECRET/APP_KEY/REFRESH_TOKEN)."
                 []) w))
    /\ (complete cfg = true ->
        match fetched with
        | (Raise e, w1) => out = (Raise e, w1)
        | (Ok payload, w1) =>
            match default [] (Api.data payload) with
            | [] =>
                out = (Ok 1,
                       add_event
                         (EvLog WARNING
                            "No mowers returned. Is this Husqvarna account linked to any mowers?"
                            []) w1)
                /\ forallb not_influx (added w (snd out)) = true
            | items =>
                out = match for_each items
                              (Main.poll_item influx (clock w1)) w1 with
                      | (Ok _, w2) => (Ok 0, w2)
                      | (Raise e, w2) => (Raise e, w2)
                      end
            end
        end)
    /\ (forall code,
          fst out = Ok code ->
          (code = 2 /\ complete cfg = false)
          \/ (code = 1 /\ complete cfg = true
              /\ exists payload,
                  fst fetched = Ok payload
                  /\ default [] (Api.data payload) = [])
          \/ (code = 0 /\ complete cfg = true
              /\ exists payload,
                  fst fetched = Ok payload
                  /\ default [] (Api.data payload) <> [])).
Proof.
  intros cfg influx w out fetched. subst out fetched. unfold Main.run_once.
  fold (complete cfg).
  destruct (complete cfg) eqn:Hc; cbn [negb].
  2:{ split; [done|]. split; [done|].
      intros code [= <-]. by left. }
  split; [done|].
  rewrite bind_run.
  destruct (fetch_mowers_not_influx (Main.cfg_api_key cfg) w) as (evs & E & F).
  destruct (Main.fetch_mowers (Main.cfg_api_key cfg) w) as [[payload|e] w1];
    [|by split].
  simpl in E.
  destruct (default [] (Api.data payload)) as [|item items] eqn:Hdata.
  - split.
    + intros _. split; [done|].
      erewrite added_app
        by (unfold log, emit, bind, ret; simpl; rewrite E, <- app_assoc;
            reflexivity).
      rewrite forallb_app, F. done.
    + intros code [= <-]. right. left. repeat split.
      exists payload. by split.
  - rewrite bind_run. unfold time_time. rewrite bind_run.
    split.
    + intros _. by destruct (for_each _ _ w1) as [[[]|e] w2].
    + destruct (for_each _ _ w1) as [[[]|e] w2]; [|done].
      intros code [= <-]. right. right. repeat split.
      exists payload. split; [done|]. by rewrite Hdata.
Qed.

Lemma poll_items_disabled influx now items :
  Main.enabled influx = false ->
  forall w,
    fst (for_each items (Main.poll_item influx now) w) = Ok tt
    /\ trace (snd (for_each items (Main.poll_item influx now) w))
       = trace w ++ flat_map poll_log items.
Proof.
  intros Hd. induction items as [|item items IH]; intros w; simpl.
  - by rewrite app_nil_r.
  - assert (Hitem : Main.poll_item influx now item w
                    = (Ok tt,
                       add_event (EvLog DEBUG "Raw mower item: %r" [AItem item])
                         (add_event
                            (EvLog INFO "%s"
                               [ASummary
                                  (Main._summary_line
                                     (Py.or_else (Api.name_of item) (Api.m_id item))
                                     (Api.attrs_of item))]) w))).
    { unfold Main.poll_item, Main.write. by rewrite Hd. }
    rewrite bind_run, Hitem.
    destruct (IH (add_event (EvLog DEBUG "Raw mower item: %r" [AItem item])
                    (add_event
                       (EvLog INFO "%s"
                          [ASummary (Main._summary_line
                                       (Py.or_else (Api.name_of item) (Api.m_id item))
                                       (Api.attrs_of item))]) w)))
      as [IH1 IH2].
    split; [exact IH1|]. rewrite IH2. simpl. by rewrite <- !app_assoc.
Qed.

(** X8.  With the metrics writer disabled (no token configured, or the
    client library not installed) a polling round over a non-empty device
    list succeeds with 0 and, after the device list was fetched, does
    nothing but log: one summary line and one raw-item line for each
    device, in the order of the list.  It never writes to the metrics
    store. *)
Theorem disabled_writer_only_logs :
  forall cfg influx w payload w1,
    complete cfg = true ->
    Main.enabled influx = false ->
    Main.fetch_mowers (Main.cfg_api_key cfg) w = (Ok payload, w1) ->
    default [] (Api.data payload) <> [] ->
    let out := Main.run_once cfg influx w in
    fst out = Ok 0
    /\ added w1 (snd out) = flat_map poll_log (default [] (Api.data payload))
    /\ forallb not_influx (added w (snd out)) = true.
Proof.
  intros cfg influx w payload w1 Hc Hd Hf Hne out. subst out.
  unfold Main.run_once. fold (complete cfg). rewrite Hc. cbn [negb].
  rewrite bind_run, Hf.
  destruct (fetch_mowers_not_influx (Main.cfg_api_key cfg) w) as (evs & E & F).
  rewrite Hf in E. simpl in E.
  destruct (default [] (Api.data payload)) as [|item items] eqn:Hdata; [done|].
  rewrite bind_run. unfold time_time. rewrite bind_run.
  destruct (poll_items_disabled influx (clock w1) (item :: items) Hd w1)
    as [H1 H2].
  destruct (for_each (item :: items) _ w1) as [[[]|e] w2]; [|done].
  simpl in H2 |- *. split; [done|]. split.
  - by apply added_app.
  - erewrite added_app by (rewrite H2, E, <- app_assoc; reflexivity).
    rewrite forallb_app, F. simpl.
    clear. induction items as [|it items IH]; [done|]. simpl. exact IH.
Qed.

Lemma disabled_writer_only_logs_witness :
  let cfg := Sample.poll_cfg 30 in
  let out := Main.run_once cfg (Sample.no_influx cfg) Sample.world0 in
  fst out = Ok 0
  /\ added (snd (Main.fetch_mowers "key" Sample.world0)) (snd out)
     = flat_map poll_log Sample.three_mowers
  /\ forallb not_influx (added Sample.world0 (snd out)) = true.
Proof.
  apply (disabled_writer_only_logs
           (Sample.poll_cfg 30) (Sample.no_influx (Sample.poll_cfg 30))
           Sample.world0 {| Api.data := Some Sample.three_mowers |}
           (snd (Main.fetch_mowers "key" Sample.world0)));
    [reflexivity|reflexivity|by vm_compute|done].
Defined.

Lemma reports_connected_fields item :
  reports_connected item = false
  <-> bool_free (Main.fields_of (Api.attrs_of item)).
Proof.
  rewrite fields_of_bool_free. unfold reports_connected.
  destruct (Api.at_metadata_connected (Api.attrs_of item)); naive_solver.
Qed.

Lemma poll_item_enabled influx now item w :
  Main.enabled influx = true ->
  store_accepts w ->
  let w1 := add_event (EvLog DEBUG "Raw mower item: %r" [AItem item])
              (add_event
                 (EvLog INFO "%s"
                    [ASummary
                       (Main._summary_line
                          (Py.or_else (Api.name_of item) (Api.m_id item))
                          (Api.attrs_of item))]) w) in
  Main.poll_item influx now item w
  = if reports_connected item
    then (Raise no_boolean_field, w1)
    else (Ok tt, add_event (EvRequest (point_request influx now item)) w1).
Proof.
  intros He Hnet w1.
  unfold Main.poll_item, Main.write. rewrite He. cbn [negb].
  unfold log, emit. rewrite !bind_run. fold w1.
  destruct (reports_connected item) eqn:Hc.
  - rewrite build_point_bool; [done|].
    intros Hfree%reports_connected_fields. congruence.
  - rewrite build_point_plain by (by apply reports_connected_fields).
    unfold http. rewrite bind_run. fold (point_request influx now item).
    destruct (Hnet (trace w1) (Main.influx_bucket (Main.iw_cfg influx))
                (plain_point (Main.iw_cfg influx)
                   (Py.or_str (Api.m_id item) "unknown")
                   (Py.or_else (Api.name_of item) (Api.m_id item))
                   (Main.fields_of (Api.attrs_of item)) now))
      as (status & txt & b & Hr & Hlt).
    change (net w1) with (net w). unfold point_request. rewrite Hr.
    apply Z.leb_gt in Hlt. by rewrite Hlt.
Qed.

Lemma poll_items_enabled influx now items :
  Main.enabled influx = true ->
  Forall (fun it => reports_connected it = false) items ->
  forall w,
    store_accepts w ->
    fst (for_each items (Main.poll_item influx now) w) = Ok tt
    /\ requests_of (added w (snd (for_each items (Main.poll_item influx now) w)))
       = map (point_request influx now) items
    /\ exists evs,
        trace (snd (for_each items (Main.poll_item influx now) w))
        = trace w ++ evs.
Proof.
  intros He Hall.
  induction Hall as [|item items Hc _ IH]; intros w Hnet; simpl.
  - split; [done|]. rewrite (added_app w w []) by (by rewrite app_nil_r).
    split; [done|]. exists []. by rewrite app_nil_r.
  - rewrite bind_run, poll_item_enabled, Hc by done.
    match goal with |- context [for_each items _ ?x] => set (w2 := x) end.
    destruct (IH w2 Hnet) as (IH1 & IH2 & evs & IH3).
    split; [exact IH1|]. split.
    + erewrite added_app
        by (rewrite IH3; unfold w2; simpl; rewrite <- !app_assoc;
            reflexivity).
      rewrite (added_app _ _ _ IH3) in IH2.
      simpl. by rewrite IH2.
    + eexists. rewrite IH3. unfold w2. simpl. rewrite <- !app_assoc.
      reflexivity.
Qed.

Lemma poll_items_stop influx now pre item post :
  Main.enabled influx = true ->
  Forall (fun it => reports_connected it = false) pre ->
  reports_connected item = true ->
  forall w,
    store_accepts w ->
    fst (for_each (pre ++ item :: post) (Main.poll_item influx now) w)
    = Raise no_boolean_field
    /\ requests_of
         (added w (snd (for_each (pre ++ item :: post)
                          (Main.poll_item influx now) w)))
       = map (point_request influx now) pre
    /\ exists evs,
        trace (snd (for_each (pre ++ item :: post)
                      (Main.poll_item influx now) w))
        = trace w ++ evs.
Proof.
  intros He Hall Hitem.
  induction Hall as [|it pre Hc _ IH]; intros w Hnet; simpl.
  - rewrite bind_run, poll_item_enabled, Hitem by done.
    split; [done|].
    split; [|eexists; simpl; rewrite <- !app_assoc; reflexivity].
    erewrite added_app; [|simpl; rewrite <- !app_assoc; reflexivity].
    done.
  - rewrite bind_run, poll_item_enabled, Hc by done.
    match goal with
    | |- context [for_each (pre ++ item :: post) _ ?x] => set (w2 := x)
    end.
    destruct (IH w2 Hnet) as (IH1 & IH2 & evs & IH3).
    split; [exact IH1|]. split.
    + erewrite added_app
        by (rewrite IH3; unfold w2; simpl; rewrite <- !app_assoc;
            reflexivity).
      rewrite (added_app _ _ _ IH3) in IH2.
      simpl. by rewrite IH2.
    + eexists. rewrite IH3. unfold w2. simpl. rewrite <- !app_assoc.
      reflexivity.
Qed.

(** X9.  With the metrics writer enabled and a store that accepts every
    write, a polling round over a non-empty device list writes one point
    for each device up to the first one that reports whether it is
    connected, in the order of the list and to the configured bucket:
    tagged with the device id (the word unknown when the id is missing or
    empty) and the name (the id when there is no name), holding the
    device's fields, and all stamped with the one time read before the
    first device.  When no device reports whether it is connected the round
    succeeds with 0.  At the first device that does, the round raises the
    attribute error of the missing [boolean_field] method: nothing is
    written for that device nor for the devices after it. *)
Theorem every_device_written_once :
  forall cfg influx w payload w1,
    complete cfg = true ->
    Main.enabled influx = true ->
    Main.fetch_mowers (Main.cfg_api_key cfg) w = (Ok payload, w1) ->
    default [] (Api.data payload) <> [] ->
    store_accepts w1 ->
    let out := Main.run_once cfg influx w in
    (Forall (fun it => reports_connected it = false)
            (default [] (Api.data payload)) ->
     fst out = Ok 0
     /\ requests_of (added w1 (snd out))
        = map (point_request influx (clock w1))
              (default [] (Api.data payload)))
    /\ (forall pre item post,
          default [] (Api.data payload) = pre ++ item :: post ->
          Forall (fun it => reports_connected it = false) pre ->
          reports_connected item = true ->
          fst out = Raise no_boolean_field
          /\ requests_of (added w1 (snd out))
             = map (point_request influx (clock w1)) pre).
Proof.
  intros cfg influx w payload w1 Hc He Hf Hne Hnet out. subst out.
  unfold Main.run_once. fold (complete cfg). rewrite Hc. cbn [negb].
  rewrite bind_run, Hf.
  destruct (default [] (Api.data payload)) as [|item items] eqn:Hdata; [done|].
  rewrite bind_run. unfold time_time. rewrite bind_run.
  split.
  - intros Hall.
    destruct (poll_items_enabled influx (clock w1) (item :: items) He Hall
                w1 Hnet) as (H1 & H2 & _).
    destruct (for_each (item :: items) _ w1) as [[[]|e] w2]; [|done].
    by split.
  - intros pre it post -> Hall Hit.
    destruct (poll_items_stop influx (clock w1) pre it post He Hall Hit
                w1 Hnet) as (H1 & H2 & _).
    destruct (for_each (pre ++ it :: post) _ w1) as [[[]|e] w2]; [done|].
    simpl in H1. by injection H1 as ->.
Qed.

Lemma every_device_written_once_witness :
  let cfg := Sample.poll_cfg 30 in
  let out := Main.run_once cfg (with_influx cfg) Sample.world0 in
  let w1 := snd (Main.fetch_mowers "key" Sample.world0) in
  fst out = Ok 0
  /\ requests_of (added w1 (snd out))
     = map (point_request (with_influx cfg) (clock w1)) Sample.three_mowers.
Proof.
  apply (every_device_written_once
           (Sample.poll_cfg 30) (with_influx (Sample.poll_cfg 30))
           Sample.world0 {| Api.data := Some Sample.three_mowers |}
           (snd (Main.fetch_mowers "key" Sample.world0)));
    [reflexivity|reflexivity|by vm_compute|done| |].
  - intros tr bucket p. by exists 204, ""%string, BodyOther.
  - repeat constructor.
Defined.

(** On a list whose second device reports being connected, the round
    writes the point of the first device and raises. *)
Example polling_stops_at_connected_device :
  let cfg := Sample.poll_cfg 30 in
  let out := Main.run_once cfg (with_influx cfg) world_online in
  fst out = Raise no_boolean_field
  /\ map (fun r => match r with
                   | InfluxWrite _ p => p_tags p
                   | _ => []
                   end)
         (filter (fun r => negb (is_token_post r))
                 (requests_of (trace (snd out))))
     = [[]; [("mower_id"%string, Some "1"%string);
             ("name"%string, Some "A"%string)]].
Proof. vm_compute. tauto. Qed.

(** ** The token manager: failures and lifetimes *)

Lemma handle_rotation_keeps new_rt w :
  let w' := snd (Main.handle_rotation new_rt w) in
  fst (Main.handle_rotation new_rt w) = Ok tt
  /\ _access_token (auth w') = _access_token (auth w)
  /\ _expires_at (auth w') = _expires_at (auth w)
  /\ clock w' = clock w.
Proof.
  intros w'. subst w'.
  destruct new_rt as [rt|]; [|by rewrite handle_rotation_skip by auto].
  destruct (decide (rt = ""%string)) as [->|Hne];
    [by rewrite handle_rotation_skip by auto|].
  destruct (decide (rt = refresh_token (auth w))) as [->|Hdiff];
    [by rewrite handle_rotation_skip by auto|].
  rewrite handle_rotation_rotate, persist_main_run by done.
  cbn [fst snd].
  change (auth (add_event ?e ?x)) with (auth x).
  change (clock (add_event ?e ?x)) with (clock x).
  by rewrite main_persisted_auth, main_persisted_clock.
Qed.

Lemma exchange_run w :
  Main.needs_refresh (auth w) (clock w) = true ->
  let r := PostToken (refresh_token (auth w)) (client_id (auth w))
                     (client_secret (auth w)) in
  let w1 := add_event (EvRequest r) w in
  Main.async_get_access_token w
  = match net w (trace w) r with
    | Failed e => (Raise e, w1)
    | Responded status txt b =>
        if 400 <=? status
        then (Raise (ClientResponseError status AUTH_TOKEN_URL),
              add_event (EvLog ERROR "Token refresh failed %s: %s"
                               [AInt status; AStr txt]) w1)
        else match b with
             | BodyToken tok =>
                 match Api.access_token tok with
                 | None => (Raise (KeyError "access_token"), w1)
                 | Some at_ =>
                     if Py.overflows (default 300 (Api.expires_in tok))
                     then (Raise lifetime_overflow,
                           set_auth (Main.set_token at_ (auth w)) w1)
                     else
                       match Main.handle_rotation (Api.refresh_token tok)
                               (exchanged at_
                                  (default 300 (Api.expires_in tok)) w)
                       with
                       | (Ok _, w3) => (Ok (_access_token (auth w3)), w3)
                       | (Raise e, w3) => (Raise e, w3)
                       end
                 end
             | _ => (Raise ContentTypeError, w1)
             end
    end.
Proof.
  intros Hstale r w1. subst r w1.
  unfold Main.async_get_access_token, Main.refresh_exchange, Main.expiry,
    bind, time_time, get_auth, http, put_auth, log, emit, ret, raise.
  cbv beta iota. rewrite Hstale. cbv beta iota.
  destruct (net w (trace w) _) as [status txt b|e]; [|reflexivity].
  destruct (400 <=? status); [reflexivity|].
  destruct b as [tok| |]; try reflexivity.
  destruct (Api.access_token tok); [|reflexivity].
  cbv beta iota zeta.
  destruct (Py.overflows (default 300 (Api.expires_in tok))); reflexivity.
Qed.

(** X10.  A call of the token manager that fails has made exactly one
    exchange; the refresh token in memory and the stored expiry are as
    before, and the credential file was not touched.  The cached access
    token is as before too, so that the next call finds the manager as
    stale as this one did and tries the exchange again, with one exception:
    when the response was good and reported a lifetime beyond the doubles,
    the access token of the response is in memory already when the sum
    [now + int(expires_in)] raises, under the expiry of its predecessor.
    (The response body is typed as in [Api.token_response]: [expires_in],
    when present, is an integer.) *)
Theorem failed_exchange_changes_nothing :
  forall w e,
    fst (Main.async_get_access_token w) = Raise e ->
    let w' := snd (Main.async_get_access_token w) in
    refresh_token (auth w') = refresh_token (auth w)
    /\ _expires_at (auth w') = _expires_at (auth w)
    /\ env_file w' = env_file w
    /\ file_events (added w w') = []
    /\ token_posts (trace w') = S (token_posts (trace w))
    /\ ((auth w' = auth w
         /\ Main.needs_refresh (auth w') (clock w') = true)
        \/ (exists status txt tok at_,
              net w (trace w) (PostToken (refresh_token (auth w))
                                         (client_id (auth w))
                                         (client_secret (auth w)))
              = Responded status txt (BodyToken tok)
              /\ status < 400
              /\ Api.access_token tok = Some at_
              /\ Py.overflows (default 300 (Api.expires_in tok)) = true
              /\ e = lifetime_overflow
              /\ auth w' = Main.set_token at_ (auth w))).
Proof.
  intros w e Hfail w'. subst w'. revert Hfail.
  rewrite posts_of_call.
  destruct (Main.needs_refresh (auth w) (clock w)) eqn:Hstale;
    [|by rewrite get_access_token_fresh].
  rewrite exchange_run by done.
  destruct (net w (trace w) _) as [status txt b|e0] eqn:Hnet.
  2:{ intros _. simpl. repeat split; try done; [|by left].
      erewrite added_app by reflexivity. done. }
  destruct (400 <=? status) eqn:Hs.
  { intros _. simpl. repeat split; try done; [|by left].
    erewrite added_app by (simpl; rewrite <- app_assoc; reflexivity). done. }
  destruct b as [tok| |];
    try (intros _; simpl; repeat split; try done; [|by left];
         erewrite added_app by reflexivity; done).
  destruct (Api.access_token tok) as [at_|] eqn:Hat;
    [|intros _; simpl; repeat split; try done; [|by left];
      erewrite added_app by reflexivity; done].
  destruct (Py.overflows (default 300 (Api.expires_in tok))) eqn:Hbig.
  - intros [= <-]. simpl. repeat split; try done.
    + erewrite added_app by reflexivity. done.
    + right. exists status, txt, tok, at_.
      apply Z.leb_gt in Hs. by repeat split.
  - pose proof (handle_rotation_keeps (Api.refresh_token tok)
                  (exchanged at_ (default 300 (Api.expires_in tok)) w))
      as (Hok & _).
    destruct (Main.handle_rotation _ _) as [[[]|e1] w3]; done.
Qed.

Lemma failed_exchange_changes_nothing_witness :
  let w := Sample.world_with (Some Sample.env_text) true net_refusing in
  let w' := snd (Main.async_get_access_token w) in
  refresh_token (auth w') = refresh_token (auth w)
  /\ _expires_at (auth w') = _expires_at (auth w)
  /\ env_file w' = env_file w
  /\ file_events (added w w') = []
  /\ token_posts (trace w') = S (token_posts (trace w)).
Proof.
  pose proof (failed_exchange_changes_nothing
                (Sample.world_with (Some Sample.env_text) true net_refusing)
                (ClientResponseError 401 AUTH_TOKEN_URL) eq_refl)
    as (H1 & H2 & H3 & H4 & H5 & _).
  cbv zeta. by repeat split.
Defined.

(** A good response that reports a lifetime of [2^1024] seconds and
    rotates the refresh token: the call raises, the access token of the
    response is cached, and the rotated refresh token is neither in memory
    nor in the file. *)
Example exchange_with_lifetime_beyond_doubles :
  let w' := snd (Main.async_get_access_token world_long_lived) in
  fst (Main.async_get_access_token world_long_lived)
  = Raise lifetime_overflow
  /\ _access_token (auth w') = Some "access-1"%string
  /\ refresh_token (auth w') = "rt-old"%string
  /\ env_file w' = Some Sample.env_text.
Proof. vm_compute. tauto. Qed.



(** At the clock reading that is the double nearest to one tenth, a token
    reported to live 30 seconds gets an expiry above 30.1 seconds, and a
    second call at the same clock reading reuses it. *)
Example short_lived_token_reused :
  let w' := snd (Main.async_get_access_token world_tenth) in
  clock world_tenth = Py.float_round (1 # 10)
  /\ fst (Main.async_get_access_token world_tenth)
     = Ok (Some "access-1"%string)
  /\ _expires_at (auth w') = (4236198399495373 # 140737488355328)%Q
  /\ Main.needs_refresh (auth w') (clock world_tenth) = false
  /\ token_posts (trace (snd (Main.async_get_access_token w'))) = 1%nat.
Proof. vm_compute. tauto. Qed.

(** ** The credential file: reading back what was written *)

Lemma append_cons (a : ascii) (s t : string) :
  (String a s ++ t)%string = String a (s ++ t)%string.
Proof. reflexivity. Qed.

Lemma append_assoc (s t u : string) :
  ((s ++ t) ++ u)%string = (s ++ (t ++ u))%string.
Proof.
  induction s as [|a s IH]; [reflexivity|].
  by rewrite !append_cons, IH.
Qed.

Lemma free_of_app p (s t : string) :
  free_of p (s ++ t)%string = free_of p s && free_of p t.
Proof.
  induction s as [|a s IH]; [reflexivity|].
  rewrite append_cons. simpl. rewrite IH. by rewrite andb_assoc.
Qed.

Lemma splitlines_from_app s :
  forall cur rest,
    free_of Py.is_linebreak s = true ->
    Py.splitlines_from cur (s ++ rest)%string
    = Py.splitlines_from (cur ++ s)%string rest.
Proof.
  induction s as [|c s IH]; intros cur rest Hs.
  - by rewrite append_empty.
  - simpl in Hs. apply andb_prop in Hs as [Hc Hs].
    apply negb_true_iff in Hc.
    rewrite append_cons. simpl. rewrite Hc.
    rewrite IH by done. by rewrite append_char.
Qed.

Lemma splitlines_from_nl cur rest :
  Py.splitlines_from cur (Py.NL ++ rest)%string
  = cur :: Py.splitlines_from ""%string rest.
Proof. by destruct rest. Qed.

Lemma join_cons sep (x y : string) l :
  Py.join sep (x :: y :: l) = (x ++ sep ++ Py.join sep (y :: l))%string.
Proof. reflexivity. Qed.

(** Text written as lines joined by line feeds, with one more line feed at
    the end, reads back as the same lines. *)
Lemma splitlines_join l :
  l <> [] ->
  Forall (fun ln => free_of Py.is_linebreak ln = true) l ->
  Py.splitlines (Py.join Py.NL l ++ Py.NL)%string = l.
Proof.
  unfold Py.splitlines. induction l as [|x l IH]; [done|].
  intros _ Hl. apply Forall_cons in Hl as [Hx Hl].
  destruct l as [|y l].
  - change (Py.join Py.NL [x]) with x.
    rewrite splitlines_from_app by done.
    change Py.NL with (Py.NL ++ "")%string at 1.
    by rewrite splitlines_from_nl.
  - rewrite join_cons, !append_assoc.
    rewrite splitlines_from_app by done.
    rewrite splitlines_from_nl. simpl. f_equal. by apply IH.
Qed.

Lemma splitlines_from_free_upto n :
  forall s cur,
    (String.length s <= n)%nat ->
    free_of Py.is_linebreak cur = true ->
    Forall (fun ln => free_of Py.is_linebreak ln = true)
           (Py.splitlines_from cur s).
Proof.
  induction n as [|n IH]; intros s cur Hlen Hcur.
  - destruct s; [|simpl in Hlen; lia]. simpl.
    destruct (Py.truthy_str cur); by repeat constructor.
  - destruct s as [|c s]; simpl.
    { destruct (Py.truthy_str cur); by repeat constructor. }
    simpl in Hlen.
    destruct (Py.is_linebreak c) eqn:Hc.
    + destruct s as [|c2 s2].
      * by repeat constructor.
      * simpl in Hlen.
        destruct (Py.is_cr c && Py.is_lf c2);
          (constructor; [done|]); apply IH; simpl; try done; lia.
    + apply IH; [lia|]. rewrite free_of_app, Hcur. simpl. by rewrite Hc.
Qed.

Lemma splitlines_free text :
  Forall (fun ln => free_of Py.is_linebreak ln = true) (Py.splitlines text).
Proof. by apply (splitlines_from_free_upto (String.length text)). Qed.

Lemma rstrip_nonspace c s :
  Py.isspace c = false -> Py.rstrip (String c s) = String c (Py.rstrip s).
Proof. intros Hc. simpl. rewrite Hc. by destruct (Py.rstrip s). Qed.

Lemma is_entry_line_key rt : is_entry_line (Main.KEY ++ rt)%string = true.
Proof.
  unfold is_entry_line, Py.strip, Main.KEY.
  rewrite !append_cons. cbn [Py.lstrip].
  change (Py.isspace "H") with false. cbv iota.
  rewrite !rstrip_nonspace by reflexivity.
  unfold Py.startswith. simpl.
  repeat (rewrite Ascii.eqb_refl || simpl). 
  by destruct (Py.rstrip _).
Qed.

(** The loop of [update_dotenv], written with an index, and the loop of the
    poller's routine pick the same line. *)
Lemma find_insert_updated lines rt :
  match list_find (fun line => Py.startswith Grt.KEY (Py.strip line) = true)
                  lines with
  | Some (i, _) => <[i := (Grt.KEY ++ rt)%string]> lines
  | None => lines ++ [(Grt.KEY ++ rt)%string]
  end
  = Main.updated_lines lines rt.
Proof.
  unfold Main.updated_lines.
  induction lines as [|ln lines IH]; [done|].
  cbn [list_find Main.replace_first].
  change Grt.KEY with Main.KEY in *.
  destruct (decide (Py.startswith Main.KEY (Py.strip ln) = true)) as [H|H].
  - by rewrite H.
  - apply not_true_is_false in H. rewrite H.
    destruct (list_find _ lines) as [[i x]|];
      destruct (Main.replace_first lines rt) as [lines'|]; simpl in *;
      congruence.
Qed.

Lemma update_dotenv_run rt w :
  Grt.update_dotenv rt w
  = match read_error w with
    | Some e => (Raise e, w)
    | None =>
        match io_write (env_io w) with
        | WriteOk => (Ok tt, written (main_new_text (text_read w) rt) w)
        | OpenRefused => (Raise (OSError "Permission denied"), w)
        | WriteFails =>
            (Raise (OSError "No space left on device"), truncated w)
        end
    end.
Proof.
  unfold Grt.update_dotenv, read_error, text_read, path_exists, read_text,
    write_text, written, truncated.
  rewrite !bind_run. cbv beta iota.
  destruct (env_file w) as [text|] eqn:Hf.
  - rewrite bool_decide_eq_true_2 by (by eexists). cbn [negb].
    rewrite bind_run, Hf. cbv beta iota zeta.
    destruct (io_read (env_io w)); try reflexivity.
    rewrite find_insert_updated.
    destruct (io_write (env_io w)); reflexivity.
  - rewrite bool_decide_eq_false_2 by (by intros [? ?]). cbn [negb].
    cbv beta iota. destruct (io_write (env_io w)); reflexivity.
Qed.

(** X12.  The poller's [_persist_refresh_token_to_env] is [update_dotenv]
    of the first-login script run under a handler: where the script
    returns, the routine returns from the same world, and where the script
    raises, the routine logs that exception as a warning over the world
    the script left and returns.  When the file can be read and written
    both leave the same text behind, after the same two file operations.
    When the file cannot be read, or cannot be opened for writing, the
    script raises with the file as it was; when the write fails after the
    opening, it raises over an empty file. *)
Theorem update_dotenv_agrees_with_poller :
  forall rt w,
    Main._persist_refresh_token_to_env rt w
    = match Grt.update_dotenv rt w with
      | (Ok _, w') => (Ok tt, w')
      | (Raise e, w') => (Ok tt, add_event (persist_warning_of e) w')
      end
    /\ (env_writable w = true ->
        Grt.update_dotenv rt w
        = (Ok tt, written (main_new_text (text_read w) rt) w))
    /\ (forall e,
          read_error w = Some e -> Grt.update_dotenv rt w = (Raise e, w))
    /\ (read_error w = None -> io_write (env_io w) = OpenRefused ->
        Grt.update_dotenv rt w = (Raise (OSError "Permission denied"), w))
    /\ (read_error w = None -> io_write (env_io w) = WriteFails ->
        Grt.update_dotenv rt w
        = (Raise (OSError "No space left on device"), truncated w)).
Proof.
  intros rt w. rewrite persist_main_run, update_dotenv_run.
  unfold main_persisted.
  split; [by destruct (read_error w), (io_write (env_io w))|].
  split.
  { intros [Hr Hw]%env_writable_modes.
    assert (Hre : read_error w = None).
    { unfold read_error. rewrite Hr. by destruct (env_file w). }
    by rewrite Hre, Hw. }
  split; [by intros e ->|].
  split; by intros -> ->.
Qed.

Lemma updated_lines_fixed pre post rt :
  Forall (fun l => is_entry_line l = false) pre ->
  Main.updated_lines (pre ++ (Main.KEY ++ rt)%string :: post) rt
  = pre ++ (Main.KEY ++ rt)%string :: post.
Proof.
  intros Hpre. unfold Main.updated_lines.
  assert (H : Main.replace_first (pre ++ (Main.KEY ++ rt)%string :: post) rt
              = Some (pre ++ (Main.KEY ++ rt)%string :: post)).
  { induction Hpre as [|ln pre Hln _ IH]; simpl.
    - fold (is_entry_line (Main.KEY ++ rt)%string).
      by rewrite is_entry_line_key.
    - fold (is_entry_line ln). by rewrite Hln, IH. }
  by rewrite H.
Qed.

(** The lines the poller writes, split at the entry it set. *)
Lemma main_new_lines_frame old rt :
  exists pre post,
    main_new_lines old rt = pre ++ (Main.KEY ++ rt)%string :: post
    /\ Forall (fun l => is_entry_line l = false) pre
    /\ forall ln, In ln (pre ++ post) ->
                  exists text, old = Some text /\ In ln (Py.splitlines text).
Proof.
  destruct old as [text|]; simpl.
  - destruct (updated_lines_frame (Py.splitlines text) rt)
      as [(pre & ln & post & Hl & Hpre & _ & ->)|[Hall ->]].
    + exists pre, post. repeat split; [done|].
      intros l Hin. exists text. split; [done|]. rewrite Hl.
      apply in_app_or in Hin as [Hin|Hin]; apply in_or_app; auto.
      right. by right.
    + exists (Py.splitlines text), []. repeat split; [done|].
      intros l Hin. rewrite app_nil_r in Hin. by exists text.
  - exists [], []. by repeat split.
Qed.

Lemma splitlines_from_break cur c rest :
  Py.is_linebreak c = true -> Py.is_cr c = false ->
  Py.splitlines_from cur (String c rest)
  = cur :: Py.splitlines_from "" rest.
Proof.
  intros Hb Hc. simpl. rewrite Hb, Hc. by destruct rest.
Qed.

Lemma is_cr_linebreak c : Py.is_cr c = true -> Py.is_linebreak c = true.
Proof.
  unfold Py.is_cr, Py.is_linebreak. intros H%Nat.eqb_eq. by rewrite H.
Qed.

(** Reading with universal newlines does not change the lines of a text. *)
Lemma splitlines_from_universal n :
  forall s cur,
    (String.length s <= n)%nat ->
    Py.splitlines_from cur (Py.universal_newlines s)
    = Py.splitlines_from cur s.
Proof.
  induction n as [|n IH]; intros s cur Hlen.
  - destruct s; [done|simpl in Hlen; lia].
  - destruct s as [|c rest]; [done|]. simpl in Hlen.
    cbn [Py.universal_newlines].
    destruct (Py.is_cr c) eqn:Hcr.
    + pose proof (is_cr_linebreak c Hcr) as Hb.
      destruct rest as [|c2 rest2].
      * simpl. by rewrite Hb.
      * cbn [Py.splitlines_from]. rewrite Hb, Hcr. cbn [andb].
        simpl in Hlen.
        destruct (Py.is_lf c2);
          rewrite splitlines_from_break by reflexivity;
          f_equal; apply IH; simpl; lia.
    + destruct (Py.is_linebreak c) eqn:Hb.
      * rewrite !splitlines_from_break by done.
        f_equal. apply IH. lia.
      * cbn [Py.splitlines_from]. rewrite Hb. apply IH. lia.
Qed.

Lemma splitlines_universal text :
  Py.splitlines (Py.universal_newlines text) = Py.splitlines text.
Proof. by apply (splitlines_from_universal (String.length text)). Qed.

(** X13.  What the poller writes to the credential file reads back as it
    was meant, for a token without line-break characters: split into lines
    the new file is exactly the list of lines the routine built, the first
    refresh-token entry among them holds the new token, and persisting the
    same token once more leaves the file as it is. *)
Theorem poller_persist_reads_back :
  forall rt w,
    env_writable w = true ->
    free_of Py.is_linebreak rt = true ->
    let w1 := snd (Main._persist_refresh_token_to_env rt w) in
    (exists text pre post,
        env_file w1 = Some text
        /\ Py.splitlines text = pre ++ (Main.KEY ++ rt)%string :: post
        /\ Forall (fun l => is_entry_line l = false) pre)
    /\ env_file (snd (Main._persist_refresh_token_to_env rt w1)) = env_file w1.
Proof.
  intros rt w Hw Hrt w1. subst w1.
  rewrite persist_main_writable by done.
  set (old := text_read w).
  destruct (main_new_text_lines old rt) as [Htext _].
  destruct (main_new_lines_frame old rt) as (pre & post & Hlines & Hpre & Hin).
  assert (Hfree : Forall (fun ln => free_of Py.is_linebreak ln = true)
                         (main_new_lines old rt)).
  { rewrite Hlines. apply List.Forall_forall. intros ln Hln.
    apply in_app_or in Hln as [Hln|[<-|Hln]].
    - destruct (Hin ln) as (text & _ & Ht); [apply in_or_app; by left|].
      pose proof (splitlines_free text) as Hall.
      rewrite List.Forall_forall in Hall. by apply Hall.
    - rewrite free_of_app, Hrt. reflexivity.
    - destruct (Hin ln) as (text & _ & Ht); [apply in_or_app; by right|].
      pose proof (splitlines_free text) as Hall.
      rewrite List.Forall_forall in Hall. by apply Hall. }
  assert (Hback : Py.splitlines (main_new_text old rt) = main_new_lines old rt).
  { rewrite Htext. apply splitlines_join; [|done].
    rewrite Hlines. by destruct pre. }
  split.
  - exists (main_new_text old rt), pre, post. cbn [snd].
    split; [done|]. by rewrite Hback, Hlines.
  - rewrite persist_main_writable by done. cbn [snd].
    change (env_file (written ?t ?x)) with (Some t).
    change (text_read (written ?t ?x)) with (Some (Py.universal_newlines t)).
    f_equal. cbn [main_new_text].
    rewrite splitlines_universal, Hback, Hlines, updated_lines_fixed by done.
    by rewrite Htext, Hlines.
Qed.

Lemma poller_persist_reads_back_witness :
  let w1 := snd (Main._persist_refresh_token_to_env "rt-new" Sample.world0) in
  (exists text pre post,
      env_file w1 = Some text
      /\ Py.splitlines text = pre ++ (Main.KEY ++ "rt-new")%string :: post
      /\ Forall (fun l => is_entry_line l = false) pre)
  /\ env_file (snd (Main._persist_refresh_token_to_env "rt-new" w1))
     = env_file w1.
Proof.
  apply (poller_persist_reads_back "rt-new" Sample.world0);
    reflexivity.
Defined.

(** ** The credential file: the substitution of the CLIs *)

Lemma split_lf_from_app s :
  forall cur rest,
    free_of Py.is_lf s = true ->
    Py.split_lf_from cur (s ++ rest)%string
    = Py.split_lf_from (cur ++ s)%string rest.
Proof.
  induction s as [|c s IH]; intros cur rest Hs.
  - by rewrite append_empty.
  - simpl in Hs. apply andb_prop in Hs as [Hc Hs].
    apply negb_true_iff in Hc.
    rewrite append_cons. simpl. rewrite Hc.
    rewrite IH by done. by rewrite append_char.
Qed.

Lemma split_lf_join l :
  l <> [] ->
  Forall (fun ln => free_of Py.is_lf ln = true) l ->
  Py.split_lf (Py.join Py.NL l) = l.
Proof.
  unfold Py.split_lf. induction l as [|x l IH]; [done|].
  intros _ Hl. apply Forall_cons in Hl as [Hx Hl].
  destruct l as [|y l].
  - change (Py.join Py.NL [x]) with x.
    rewrite <- (append_empty x) at 1.
    rewrite split_lf_from_app by done. reflexivity.
  - rewrite join_cons.
    rewrite split_lf_from_app by done.
    change (Py.split_lf_from ("" ++ x) (Py.NL ++ Py.join Py.NL (y :: l)))
      with (x :: Py.split_lf_from "" (Py.join Py.NL (y :: l))).
    f_equal. by apply IH.
Qed.

Lemma split_lf_from_free s :
  forall cur,
    free_of Py.is_lf cur = true ->
    Forall (fun ln => free_of Py.is_lf ln = true) (Py.split_lf_from cur s).
Proof.
  induction s as [|c s IH]; intros cur Hcur; simpl.
  - by repeat constructor.
  - destruct (Py.is_lf c) eqn:Hc.
    + constructor; [done|]. by apply IH.
    + apply IH. rewrite free_of_app, Hcur. simpl. by rewrite Hc.
Qed.

(** X14.  The substitution branch of [_persist_rotated_rt], taken when the
    key text occurs in the file as it is read, that is in text mode, with
    CR LF and lone CR turned into LF: for a token without backslash and
    line feed, the file written has as many lines as the text read, every
    line of the text read that starts with the key becomes the new entry
    (all of them, where the poller's routine rewrites the first only), and
    every other line of the text read is kept as it is. *)
Theorem cli_persist_rewrites_every_entry :
  forall rt raw w,
    env_file w = Some raw ->
    env_writable w = true ->
    Py.contains Ctl.KEY (Py.universal_newlines raw) = true ->
    Py.contains "\" (Ctl.KEY ++ rt)%string = false ->
    free_of Py.is_lf rt = true ->
    exists text',
      env_file (snd (Ctl._persist_rotated_rt rt w)) = Some text'
      /\ Py.split_lf text'
         = map (fun ln => if Py.startswith Ctl.KEY ln
                          then (Ctl.KEY ++ rt)%string else ln)
               (Py.split_lf (Py.universal_newlines raw)).
Proof.
  intros rt raw w Hf Hw Hk Hb Hrt.
  rewrite persist_ctl_spec, ctl_persisted_writable by done.
  unfold ctl_new_text, Ctl.replacement, text_read.
  rewrite Hf. set (text := Py.universal_newlines raw) in *.
  change (default ""%string (Py.universal_newlines <$> Some raw)) with text.
  rewrite Hk, Hb. eexists. split; [reflexivity|].
  apply split_lf_join.
  - pose proof (split_lf_from_nonempty text ""%string) as Hne.
    unfold Py.split_lf. by destruct (Py.split_lf_from "" text).
  - pose proof (split_lf_from_free text ""%string eq_refl) as Hall.
    unfold Py.split_lf. apply List.Forall_forall. intros ln Hln.
    apply in_map_iff in Hln as (l0 & <- & Hl0).
    rewrite List.Forall_forall in Hall.
    destruct (Py.startswith Ctl.KEY l0); [|by apply Hall].
    rewrite free_of_app, Hrt. reflexivity.
Qed.

Lemma cli_persist_rewrites_every_entry_witness :
  exists text',
    env_file (snd (Ctl._persist_rotated_rt "rt-new" Sample.world0))
    = Some text'
    /\ Py.split_lf text'
       = map (fun ln => if Py.startswith Ctl.KEY ln
                        then (Ctl.KEY ++ "rt-new")%string else ln)
             (Py.split_lf Sample.env_text).
Proof.
  apply (cli_persist_rewrites_every_entry "rt-new" Sample.env_text
                                          Sample.world0);
    reflexivity.
Defined.

(** ** The command line of the poller *)

Lemma appends_on_interrupt (p : event -> bool) {A} (body handler : M A) :
  appends p body -> appends p handler ->
  appends p (MainCli.on_interrupt body handler).
Proof.
  intros Hb Hh w. unfold MainCli.on_interrupt.
  destruct (Hb w) as (evs & E & F).
  destruct (body w) as [[a|e] w1]; simpl in *; [by exists evs|].
  destruct e; try (by exists evs).
  destruct (Hh w1) as (evs' & E' & F').
  exists (evs ++ evs'). rewrite E', E, app_assoc. split; [done|].
  rewrite forallb_app. by rewrite F, F'.
Qed.

Lemma not_sleep_sleeps_only secs e :
  not_sleep e = true -> sleeps_only secs e = true.
Proof. by destruct e. Qed.

Lemma run_loop_sleeps_only turns cfg influx :
  appends (sleeps_only (Z.max 1 (Main.poll_seconds cfg)))
          (Main.run_loop turns cfg influx).
Proof.
  induction turns as [|n IH]; simpl; [effects|].
  apply appends_bind; [|intros _; exact IH].
  unfold Main.loop_turn, log.
  apply appends_bind.
  - apply appends_try_except; [|intros e; effects].
    apply appends_bind; [|intros; effects].
    eapply appends_weaken; [|apply run_once_no_sleep].
    apply not_sleep_sleeps_only.
  - intros _. apply appends_sleep. simpl. apply Z.eqb_refl.
Qed.

Lemma run_loop_no_exception turns cfg influx w e :
  fst (Main.run_loop turns cfg influx w) = Raise e -> is_Exception e = false.
Proof.
  revert w. induction turns as [|n IH]; intros w; simpl; [done|].
  rewrite bind_run.
  pose proof (loop_turn_sleeps cfg influx w) as Hturn.
  destruct (Main.loop_turn cfg influx w) as [[[]|e1] w1].
  - apply IH.
  - simpl. by intros [= <-].
Qed.

Lemma run_once_code cfg influx w code :
  fst (Main.run_once cfg influx w) = Ok code ->
  code = 0 \/ code = 1 \/ code = 2.
Proof.
  unfold Main.run_once.
  destruct (negb _); [unfold log, emit; rewrite bind_run; simpl; intros [= <-]; auto|].
  rewrite bind_run.
  destruct (Main.fetch_mowers _ w) as [[payload|e] w1]; [|done].
  destruct (default [] (Api.data payload)) as [|item items].
  - unfold log, emit. rewrite bind_run. simpl. intros [= <-]. auto.
  - rewrite bind_run. unfold time_time. rewrite bind_run.
    destruct (for_each _ _ w1) as [[[]|e] w2]; [|done].
    simpl. intros [= <-]. auto.
Qed.

(** [main] after its prelude: the guarded part, started in some world. *)
Lemma cli_main_run read_config installed turns a w cfg0 w1 :
  read_config w = (Ok cfg0, w1) ->
  let cfg := match MainCli.arg_poll_seconds a with
             | Some n => MainCli.with_poll_seconds n cfg0
             | None => cfg0
             end in
  let influx := {| Main.enabled :=
                     Py.truthy_str (Main.influx_token cfg) && installed;
                   Main.iw_cfg := cfg |} in
  exists w2,
    MainCli.main read_config installed turns a w
    = MainCli.on_interrupt
        (if MainCli.arg_once a
         then let* code := Main.run_once cfg influx in ret (Some code)
         else Main.run_loop turns cfg influx ;; ret None)
        (log INFO "Interrupted by user." [] ;; ret (Some 130)) w2.
Proof.
  intros Hrc cfg influx. unfold MainCli.main. rewrite bind_run, Hrc.
  fold cfg. unfold Main.InfluxWriter_init, put_auth, log, emit.
  rewrite !bind_run. fold influx.
  destruct (negb _); eexists; reflexivity.
Qed.

(** X15.  The poller's [main] once the configuration is read.  An
    interrupt never leaves it as an exception: it is logged and becomes
    the answer 130, and 130 is answered in no other way.  With [--once]
    the answer is the result of the one round.  Without it no [Exception]
    ever ends the program: as long as nothing interrupts it the loop is
    still going after any number of turns. *)
Theorem interrupt_becomes_130 :
  forall read_config installed turns a w cfg0 w1,
    read_config w = (Ok cfg0, w1) ->
    let out := MainCli.main read_config installed turns a w in
    fst out <> Raise KeyboardInterrupt
    /\ (fst out = Ok (Some 130) ->
        exists tr,
          trace (snd out) = tr ++ [EvLog INFO "Interrupted by user." []])
    /\ (MainCli.arg_once a = true ->
        forall code, fst out = Ok (Some code) ->
                     code = 0 \/ code = 1 \/ code = 2 \/ code = 130)
    /\ (MainCli.arg_once a = false ->
        fst out = Ok None \/ fst out = Ok (Some 130)
        \/ exists e, fst out = Raise e /\ is_Exception e = false).
Proof.
  intros rc installed turns a w cfg0 w1 Hrc out. subst out.
  destruct (cli_main_run rc installed turns a w cfg0 w1 Hrc) as (w2 & ->).
  set (cfg := match MainCli.arg_poll_seconds a with
              | Some n => MainCli.with_poll_seconds n cfg0
              | None => cfg0
              end).
  set (influx := {| Main.enabled := _; Main.iw_cfg := cfg |}).
  set (body := if MainCli.arg_once a then _ else _).
  unfold MainCli.on_interrupt.
  destruct (MainCli.arg_once a) eqn:Honce.
  - subst body. rewrite bind_run.
    pose proof (run_once_code cfg influx w2) as Hcode.
    destruct (Main.run_once cfg influx w2) as [[code|e] w3].
    + simpl. split; [done|]. split.
      { intros [= ->]. destruct (Hcode 130 eq_refl) as [?|[?|?]]; lia. }
      split; [|done]. intros _ c [= <-].
      destruct (Hcode code eq_refl) as [?|[?|?]]; auto.
    + destruct e; simpl; try (repeat split; try done).
      * intros _. by eexists.
      * intros _ c [= <-]. auto.
  - subst body. rewrite bind_run.
    pose proof (run_loop_no_exception turns cfg influx w2) as Hexn.
    destruct (Main.run_loop turns cfg influx w2) as [[[]|e] w3].
    + simpl. repeat split; try done. intros _. by left.
    + specialize (Hexn e eq_refl).
      destruct e; simpl; try done.
      * repeat split; try done. intros _. right. right. by eexists.
      * repeat split; try done.
        -- intros _. by eexists.
        -- intros _. right. by left.
Qed.

Lemma interrupt_becomes_130_witness :
  let w := Sample.world_with None true Sample.net_interrupted in
  let out := MainCli.main (ret (Sample.poll_cfg 30)) false 3
                          (cli_args false None) w in
  fst out <> Raise KeyboardInterrupt
  /\ (fst out = Ok (Some 130) ->
      exists tr,
        trace (snd out) = tr ++ [EvLog INFO "Interrupted by user." []])
  /\ (false = true ->
      forall code, fst out = Ok (Some code) ->
                   code = 0 \/ code = 1 \/ code = 2 \/ code = 130)
  /\ (false = false ->
      fst out = Ok None \/ fst out = Ok (Some 130)
      \/ exists e, fst out = Raise e /\ is_Exception e = false).
Proof.
  apply (interrupt_becomes_130
           (ret (Sample.poll_cfg 30)) false 3 (cli_args false None)
           (Sample.world_with None true Sample.net_interrupted)
           (Sample.poll_cfg 30)
           (Sample.world_with None true Sample.net_interrupted)).
  reflexivity.
Defined.

(** X16.  [--poll-seconds N] replaces the interval of the configuration:
    whatever the environment said, every pause of the loop lasts
    [max(1, N)] seconds, so [--poll-seconds 0] polls once a second. *)
Theorem poll_seconds_option_sets_every_pause :
  forall read_config installed turns a n w cfg0 w1,
    read_config w = (Ok cfg0, w1) ->
    MainCli.arg_poll_seconds a = Some n ->
    Forall (fun s => s = Z.max 1 n)
           (sleeps_of
              (added w1 (snd (MainCli.main read_config installed turns a w)))).
Proof.
  intros rc installed turns a n w cfg0 w1 Hrc Hn.
  unfold MainCli.main. rewrite bind_run, Hrc, Hn.
  set (cfg := MainCli.with_poll_seconds n cfg0).
  assert (H : appends (sleeps_only (Z.max 1 n))
                (let* influx := Main.InfluxWriter_init installed cfg in
                 put_auth (Main.StaticAuth_init (Main.cfg_client_id cfg)
                                                (Main.cfg_client_secret cfg)
                                                (Main.cfg_api_key cfg)
                                                (Main.cfg_refresh_token cfg)) ;;
                 log DEBUG "Config: %r" [] ;;
                 MainCli.on_interrupt
                   (if MainCli.arg_once a
                    then let* code := Main.run_once cfg influx in
                         ret (Some code)
                    else Main.run_loop turns cfg influx ;; ret None)
                   (log INFO "Interrupted by user." [] ;; ret (Some 130)))).
  { unfold Main.InfluxWriter_init, put_auth, log.
    apply appends_bind; [effects|intros influx].
    apply appends_bind; [effects|intros _].
    apply appends_bind; [effects|intros _].
    apply appends_on_interrupt; [|effects].
    destruct (MainCli.arg_once a).
    - apply appends_bind; [|intros; effects].
      eapply appends_weaken; [|apply run_once_no_sleep].
      apply not_sleep_sleeps_only.
    - apply appends_bind; [|intros; effects].
      apply (run_loop_sleeps_only turns cfg influx). }
  destruct (H w1) as (evs & E & F). rewrite (added_app _ _ _ E).
  clear E. induction evs as [|e evs IH]; [constructor|].
  simpl in F. apply andb_prop in F as [He F]. specialize (IH F).
  destruct e; try exact IH.
  simpl. constructor; [|exact IH]. by apply Z.eqb_eq in He.
Qed.

Lemma poll_seconds_option_sets_every_pause_witness :
  Forall (fun s => s = Z.max 1 0)
         (sleeps_of
            (added Sample.world0
               (snd (MainCli.main (ret (Sample.poll_cfg 30)) false 3
                                  (cli_args false (Some 0)) Sample.world0)))).
Proof.
  apply (poll_seconds_option_sets_every_pause
           (ret (Sample.poll_cfg 30)) false 3 (cli_args false (Some 0)) 0
           Sample.world0 (Sample.poll_cfg 30) Sample.world0);
    reflexivity.
Defined.

(** ** What the action CLI prints *)

Lemma stdout_of_app tr evs :
  stdout_of (tr ++ evs) = stdout_of tr ++ stdout_of evs.
Proof. unfold stdout_of. by rewrite omap_app. Qed.

Lemma stdout_of_quiet evs :
  forallb not_stdout evs = true -> stdout_of evs = [].
Proof.
  intros H. induction evs as [|e evs IH]; [done|]. simpl in H.
  apply andb_prop in H as [He Hevs]. destruct e; try done; by apply IH.
Qed.

Lemma prints_print line : prints 1 (print line).
Proof. intros w. split; [done|]. by exists [EvStdout line]. Qed.

Lemma prints_ret : prints 0 (ret tt).
Proof. intros w. split; [done|]. exists []. by rewrite app_nil_r. Qed.

Lemma prints_bind n k (m m' : M unit) :
  prints n m -> prints k m' -> prints (n + k) (m ;; m').
Proof.
  intros Hm Hm' w. rewrite bind_run.
  destruct (Hm w) as (Hok & evs & E & L & F).
  destruct (m w) as [[[]|e] w1]; [|done]. simpl in E.
  destruct (Hm' w1) as (Hok' & evs' & E' & L' & F').
  split; [done|]. exists (evs ++ evs').
  rewrite E', E, <- app_assoc, length_app, forallb_app, L, L', F, F'.
  done.
Qed.

Lemma prints_eq n n' (m : M unit) : prints n m -> n = n' -> prints n' m.
Proof. by intros H <-. Qed.

Lemma prints_for_each {A} (xs : list A) (body : A -> M unit) :
  (forall x, prints 1 (body x)) -> prints (length xs) (for_each xs body).
Proof.
  intros H. induction xs as [|x xs IH]; simpl; [apply prints_ret|].
  by apply (prints_bind 1 (length xs)).
Qed.

Lemma prints_if (b : bool) n k (m m' : M unit) :
  prints n m -> prints k m' ->
  prints (if b then n else k) (if b then m else m').
Proof. by destruct b. Qed.

Lemma list_actions_prints mower :
  prints (12 + if default false (Api.cap_workAreas (Ctl.caps_of mower))
               then 2 + length (default [] (Api.at_workAreas (Api.attrs_of mower)))
               else 0)
         (Ctl.print_list_actions mower).
Proof.
  unfold Ctl.print_list_actions.
  eapply prints_eq.
  - repeat first [ apply prints_print
                 | apply prints_ret
                 | apply prints_for_each; intros ?
                 | apply prints_if
                 | eapply prints_bind ].
  - destruct (default false (Api.cap_canConfirmError (Ctl.caps_of mower)));
      destruct (default false (Api.cap_workAreas (Ctl.caps_of mower)));
      destruct (default false (Api.cap_headlights (Ctl.caps_of mower)));
      simpl; lia.
Qed.

Lemma list_actions_ok mower w :
  fst (Ctl.print_list_actions mower w) = Ok tt
  /\ exists evs, trace (snd (Ctl.print_list_actions mower w)) = trace w ++ evs.
Proof.
  destruct (list_actions_prints mower w) as (Hok & evs & E & _).
  split; [done|]. by exists evs.
Qed.

(** X17.  [list-actions] only prints: whatever the device object holds or
    lacks, the listing succeeds and every event of it is a line on the
    standard output, so it sends nothing and writes no file.  It prints
    twelve lines, and two more plus one for each work area when the device
    reports the work-area capability. *)
Theorem list_actions_only_prints :
  forall mower w,
    let out := Ctl.print_list_actions mower w in
    let areas := default [] (Api.at_workAreas (Api.attrs_of mower)) in
    fst out = Ok tt
    /\ forallb is_stdout (added w (snd out)) = true
    /\ length (added w (snd out))
       = (12 + if default false (Api.cap_workAreas (Ctl.caps_of mower))
               then 2 + length areas else 0)%nat.
Proof.
  intros mower w out areas. subst out.
  pose proof (list_actions_prints mower) as H. fold areas in H.
  destruct (H w) as (Hok & evs & E & L & F).
  rewrite (added_app _ _ _ E). by rewrite L.
Qed.

Lemma stdout_kept {A} (m : M A) w :
  appends not_stdout m ->
  stdout_of (trace (snd (m w))) = stdout_of (trace w).
Proof.
  intros Hm. destruct (Hm w) as (evs & E & F).
  by rewrite E, stdout_of_app, (stdout_of_quiet evs F), app_nil_r.
Qed.

(** When [m ;; k] fails it has printed nothing, if [m] prints nothing and
    [k] prints nothing when it fails. *)
Lemma quiet_bind {A B} (m : M A) (k : A -> M B) :
  appends not_stdout m ->
  (forall a w e, fst (k a w) = Raise e ->
                 stdout_of (trace (snd (k a w))) = stdout_of (trace w)) ->
  forall w e, fst (bind m k w) = Raise e ->
              stdout_of (trace (snd (bind m k w))) = stdout_of (trace w).
Proof.
  intros Hm Hk w e. rewrite bind_run.
  pose proof (stdout_kept m w Hm) as Hw.
  destruct (m w) as [[a|e1] w1]; simpl in *; [|done].
  intros Hfail. by rewrite (Hk a w1 e Hfail).
Qed.

Lemma post_action_not_stdout tok key mid payload :
  appends not_stdout (Ctl.post_action tok key mid payload).
Proof.
  unfold Ctl.post_action, eprint.
  apply appends_bind; [effects|]. intros o. destruct o; effects.
Qed.

(** X18.  The action CLI never reports success for a command that failed:
    when the command ends with an error, whatever it is, nothing was
    printed on the standard output, no [OK: ...] line in particular. *)
Theorem failed_command_prints_nothing :
  forall a access cfg mower w e,
    fst (Ctl.reporting_http_errors (Ctl.dispatch a access cfg mower) w)
    = Raise e ->
    stdout_of
      (added w (snd (Ctl.reporting_http_errors
                       (Ctl.dispatch a access cfg mower) w)))
    = [].
Proof.
  intros a access cfg mower w e Hfail.
  assert (Hd : fst (Ctl.dispatch a access cfg mower w) = Raise e
               /\ stdout_of (trace (snd (Ctl.reporting_http_errors
                                           (Ctl.dispatch a access cfg mower) w)))
                  = stdout_of (trace (snd (Ctl.dispatch a access cfg mower w)))).
  { revert Hfail. unfold Ctl.reporting_http_errors.
    destruct (Ctl.dispatch a access cfg mower w) as [[[]|e1] w1]; [done|].
    destruct e1; simpl; intros [= <-]; split; try done.
    by rewrite stdout_of_app, app_nil_r. }
  destruct Hd as [Hd Hsame].
  assert (Hq : stdout_of (trace (snd (Ctl.dispatch a access cfg mower w)))
               = stdout_of (trace w)).
  { revert Hd. unfold Ctl.dispatch.
    destruct (Ctl.arg_cmd a) as [| |fb|wa d|d u| |h|mode].
    - intros Hd. destruct (list_actions_ok mower w) as [Hok _].
      by rewrite Hok in Hd.
    - apply quiet_bind; [apply post_action_not_stdout|done].
    - apply quiet_bind; [|done].
      apply appends_try_except; [apply post_action_not_stdout|].
      intros e0. destruct fb; [apply post_action_not_stdout|effects].
    - apply quiet_bind.
      + destruct (Py.truthy wa); [|effects].
        apply appends_bind; [|intros; effects].
        apply appends_silent. intros w0.
        by rewrite find_work_area_id_silent.
      + intros o. apply quiet_bind; [apply post_action_not_stdout|done].
    - apply quiet_bind; [apply post_action_not_stdout|].
      intros _ w0 e0. by destruct u, d.
    - apply quiet_bind; [apply post_action_not_stdout|done].
    - apply quiet_bind; [apply post_action_not_stdout|done].
    - unfold Ctl.do_set_headlight.
      destruct (negb _); [done|].
      apply quiet_bind; [apply post_action_not_stdout|done]. }
  destruct (ctl_dispatch_grows a access cfg mower w) as (evs & E & _).
  rewrite (added_app _ _ _ E).
  rewrite Hq, E, stdout_of_app in Hsame.
  rewrite <- (app_nil_r (stdout_of (trace w))) in Hsame at 2.
  by apply app_inv_head in Hsame.
Qed.

Lemma failed_command_prints_nothing_witness :
  let w := Sample.world_with None true net_no_actions in
  stdout_of
    (added w (snd (Ctl.reporting_http_errors
                     (Ctl.dispatch (ctl_args (Ctl.CmdResume true)) "tok"
                                   ctl_cfg yard_mower) w)))
  = [].
Proof.
  apply (failed_command_prints_nothing
           (ctl_args (Ctl.CmdResume true)) "tok" ctl_cfg yard_mower
           (Sample.world_with None true net_no_actions)
           (ClientResponseError 403 (Ctl.action_url (Some "m-1"%string)))).
  reflexivity.
Defined.

(** ** A refused action *)

Lemma post_action_refused tok key mid p w0 status txt :
  (forall tr, exists b,
      net w0 tr (PostAction tok key mid p) = Responded status txt b) ->
  400 <= status ->
  Ctl.post_action tok key mid p w0
  = (Raise (ClientResponseError status (Ctl.action_url mid)),
     add_event (post_error mid status txt)
               (add_event (EvRequest (PostAction tok key mid p)) w0)).
Proof.
  intros Hnet Hs. unfold Ctl.post_action, http. rewrite bind_run.
  destruct (Hnet (trace w0)) as (b & ->).
  apply Z.leb_le in Hs. rewrite Hs.
  reflexivity.
Qed.

Lemma refused_chain (m : M unit) w w1 status url :
  m w = (Raise (ClientResponseError status url), w1) ->
  run_script (Ctl.reporting_http_errors m) w
  = (Exit 1,
     add_event (EvStderrExn "ERROR: " (ClientResponseError status url))
       (add_event (EvStderr ("HTTP " ++ Py.str_int status ++ " on " ++ url)%string)
                  w1)).
Proof.
  intros H. unfold run_script, Ctl.reporting_http_errors. by rewrite H.
Qed.

Lemma refused_then (k : unit -> M unit) tok key mid p w status txt :
  refuses_actions w status txt ->
  exists w1,
    (Ctl.post_action tok key mid p ;; k tt) w
    = (Raise (ClientResponseError status (Ctl.action_url mid)), w1)
    /\ trace w1
       = trace w ++ [EvRequest (PostAction tok key mid p)]
                 ++ [post_error mid status txt].
Proof.
  intros [Hs Hnet]. eexists. rewrite bind_run.
  rewrite (post_action_refused tok key mid p w status txt) by auto.
  split; [reflexivity|]. simpl. by rewrite <- app_assoc.
Qed.

(** X19.  A refused action, from the request to the end of the process.
    When the remote side refuses the actions with a status of 400 or more,
    a command that sends anything ends the process with status 1, and its
    last three lines on the error channel are the line of [post_action]
    with the status and the response text, the line of [main] with the
    status and the address, and the line of the script's last handler with
    the error itself. *)
Theorem refused_action_is_reported :
  forall a access cfg mower w status txt,
    refuses_actions w status txt ->
    let main := Ctl.reporting_http_errors (Ctl.dispatch a access cfg mower) in
    requests_of (added w (snd (main w))) <> [] ->
    fst (run_script main w) = Exit 1
    /\ exists evs,
        added w (snd (run_script main w))
        = evs ++ [post_error (Api.m_id mower) status txt;
                  EvStderr ("HTTP " ++ Py.str_int status ++ " on "
                            ++ Ctl.action_url (Api.m_id mower))%string;
                  EvStderrExn "ERROR: "
                    (ClientResponseError status
                                         (Ctl.action_url (Api.m_id mower)))].
Proof.
  intros a access cfg mower w status txt Href main Hsent.
  assert (Hrun : exists evs w1,
             Ctl.dispatch a access cfg mower w
             = (Raise (ClientResponseError status
                                           (Ctl.action_url (Api.m_id mower))), w1)
             /\ trace w1 = trace w ++ evs ++ [post_error (Api.m_id mower) status txt]).
  { subst main. revert Hsent. unfold Ctl.dispatch.
    destruct (Ctl.arg_cmd a) as [| |fb|wa d|d u| |h|mode]; intros Hsent.
    - exfalso. apply Hsent.
      destruct (list_actions_prints mower w) as (_ & evs & E & _ & F).
      destruct (reporting_adds_no_request (Ctl.print_list_actions mower) w)
        as (evs' & E' & F').
      erewrite added_app by (rewrite E', E, <- app_assoc; reflexivity).
      apply requests_of_quiet. rewrite forallb_app, F'.
      rewrite andb_true_r. clear -F.
      induction evs as [|x evs IH]; [done|]. simpl in F.
      apply andb_prop in F as [Hx F]. simpl. rewrite (IH F).
      by destruct x.
    - destruct (refused_then (fun _ => print "OK: mower paused") access
                  (Ctl.cfg_app_key cfg) (Api.m_id mower) (Ctl.action "Pause")
                  w status txt Href) as (w1 & H1 & H2).
      by exists [EvRequest (PostAction access (Ctl.cfg_app_key cfg)
                           (Api.m_id mower) (Ctl.action "Pause"))], w1.
    - destruct Href as [Hs Hnet].
      unfold Ctl.do_resume, try_except. rewrite bind_run.
      rewrite (post_action_refused access (Ctl.cfg_app_key cfg) (Api.m_id mower)
                 (Ctl.action "ResumeSchedule") w status txt) by auto.
      cbn [is_Exception]. destruct fb.
      + rewrite (post_action_refused access (Ctl.cfg_app_key cfg)
                   (Api.m_id mower) (Ctl.action "Start") _ status txt)
          by (try done; intros tr; apply Hnet).
        eexists [_; _; _], _. split; [reflexivity|]. simpl.
        by rewrite <- !app_assoc.
      + eexists [_], _. split; [reflexivity|]. simpl.
        by rewrite <- !app_assoc.
    - rewrite bind_run.
      assert (Hstart : forall o,
                 exists evs w1,
                   Ctl.do_start access (Ctl.cfg_app_key cfg) (Api.m_id mower)
                                o d w
                   = (Raise (ClientResponseError status
                               (Ctl.action_url (Api.m_id mower))), w1)
                   /\ trace w1
                      = trace w ++ evs
                          ++ [post_error (Api.m_id mower) status txt]).
      { intros o. unfold Ctl.do_start.
        match goal with
        | |- context [Ctl.post_action ?t ?k ?m ?p] =>
            destruct (refused_then (fun _ => ret tt) t k m p w status txt Href)
              as (w1 & H1 & H2);
            exists [EvRequest (PostAction t k m p)], w1
        end.
        split; [|exact H2].
        revert H1. rewrite !bind_run.
        by destruct (Ctl.post_action _ _ _ _ w) as [[[]|e] w2]. }
      destruct (Py.truthy wa).
      + rewrite bind_run.
        pose proof (find_work_area_id_silent mower (default ""%string wa) w)
          as Hsil.
        destruct (Ctl.find_work_area_id mower (default ""%string wa) w)
          as [[n|e] w0] eqn:Hfind; simpl in Hsil; subst w0.
        * apply Hstart.
        * exfalso. apply Hsent.
          destruct (reporting_adds_no_request
                      (let* wa_id := (let* n := Ctl.find_work_area_id mower
                                                  (default ""%string wa) in
                                      ret (Some n)) in
                       Ctl.do_start access (Ctl.cfg_app_key cfg)
                                    (Api.m_id mower) wa_id d) w)
            as (evs' & E' & F').
          rewrite !bind_run, Hfind in E'. simpl in E'.
          rewrite (added_app _ _ _ E'). by apply requests_of_quiet.
      + apply Hstart.
    - unfold Ctl.do_park.
      match goal with
      | |- context [Ctl.post_action ?t ?k ?m ?p] =>
          destruct (refused_then (fun _ => ret tt) t k m p w status txt Href)
            as (w1 & H1 & H2);
          exists [EvRequest (PostAction t k m p)], w1
      end.
      split; [|exact H2].
      revert H1. rewrite !bind_run.
      by destruct (Ctl.post_action _ _ _ _ w) as [[[]|e] w2].
    - unfold Ctl.do_confirm_error.
      match goal with
      | |- context [Ctl.post_action ?t ?k ?m ?p] =>
          destruct (refused_then (fun _ => ret tt) t k m p w status txt Href)
            as (w1 & H1 & H2);
          exists [EvRequest (PostAction t k m p)], w1
      end.
      split; [|exact H2].
      revert H1. rewrite !bind_run.
      by destruct (Ctl.post_action _ _ _ _ w) as [[[]|e] w2].
    - unfold Ctl.do_set_cutting_height.
      match goal with
      | |- context [Ctl.post_action ?t ?k ?m ?p] =>
          destruct (refused_then (fun _ => ret tt) t k m p w status txt Href)
            as (w1 & H1 & H2);
          exists [EvRequest (PostAction t k m p)], w1
      end.
      split; [|exact H2].
      revert H1. rewrite !bind_run.
      by destruct (Ctl.post_action _ _ _ _ w) as [[[]|e] w2].
    - revert Hsent. unfold Ctl.do_set_headlight.
      destruct (negb _).
      + intros Hsent. exfalso. apply Hsent.
        by erewrite added_app by reflexivity.
      + intros _.
        match goal with
        | |- context [Ctl.post_action ?t ?k ?m ?p] =>
            destruct (refused_then (fun _ => ret tt) t k m p w status txt Href)
              as (w1 & H1 & H2);
            exists [EvRequest (PostAction t k m p)], w1
        end.
        split; [|exact H2].
        revert H1. rewrite !bind_run.
        by destruct (Ctl.post_action _ _ _ _ w) as [[[]|e] w2]. }
  destruct Hrun as (evs & w1 & Hd & Ht).
  subst main. rewrite (refused_chain _ w w1 status _ Hd). split; [done|].
  exists evs. apply added_app. simpl. rewrite Ht, <- !app_assoc. reflexivity.
Qed.

Lemma refused_action_is_reported_witness :
  let w := Sample.world_with None true net_no_actions in
  let main := Ctl.reporting_http_errors
                (Ctl.dispatch (ctl_args Ctl.CmdPause) "tok" ctl_cfg yard_mower) in
  fst (run_script main w) = Exit 1
  /\ exists evs,
      added w (snd (run_script main w))
      = evs ++ [post_error (Some "m-1"%string) 403 "forbidden";
                EvStderr ("HTTP " ++ Py.str_int 403 ++ " on "
                          ++ Ctl.action_url (Some "m-1"%string))%string;
                EvStderrExn "ERROR: "
                  (ClientResponseError 403
                                       (Ctl.action_url (Some "m-1"%string)))].
Proof.
  apply (refused_action_is_reported
           (ctl_args Ctl.CmdPause) "tok" ctl_cfg yard_mower
           (Sample.world_with None true net_no_actions) 403 "forbidden").
  - split; [lia|]. intros tr tok key mid p. by exists BodyOther.
  - by vm_compute.
Defined.

(** X20.  A refused token exchange ends the run of the action CLI at once:
    the one request is followed by the line of [get_access_token] with the
    status and the response text and by the line of the script's last
    handler, the status of the process is 1, and neither the device list
    was asked for nor the credential file touched. *)
Theorem ctl_stops_at_refused_exchange :
  forall a w status txt b,
    missing_keys w = [] ->
    net w (trace w) (PostToken (env_value w "HUSQ_REFRESH_TOKEN")
                               (env_value w "HUSQ_CLIENT_ID")
                               (env_value w "HUSQ_CLIENT_SECRET"))
    = Responded status txt b ->
    400 <= status ->
    fst (run_script (Ctl.main a) w) = Exit 1
    /\ added w (snd (run_script (Ctl.main a) w))
       = [EvRequest (PostToken (env_value w "HUSQ_REFRESH_TOKEN")
                               (env_value w "HUSQ_CLIENT_ID")
                               (env_value w "HUSQ_CLIENT_SECRET"));
          EvStderr ("ERROR: token refresh failed " ++ Py.str_int status
                    ++ ": " ++ txt)%string;
          EvStderrExn "ERROR: " (ClientResponseError status AUTH_TOKEN_URL)]
    /\ env_file (snd (run_script (Ctl.main a) w)) = env_file w.
Proof.
  intros a w status txt b Hm Hnet Hs.
  unfold run_script, Ctl.main. rewrite bind_run, ctl_read_cfg_run, Hm.
  rewrite bind_run. unfold Ctl.main_auth. rewrite bind_run.
  unfold Ctl.get_access_token, http. rewrite bind_run.
  cbn [Ctl.cfg_refresh_token Ctl.cfg_client_id Ctl.cfg_client_secret].
  rewrite Hnet. apply Z.leb_le in Hs. rewrite bind_run, Hs.
  unfold eprint, emit, raise. rewrite bind_run. cbv beta iota.
  split; [done|]. split; [|done].
  apply added_app. simpl. by rewrite <- !app_assoc.
Qed.

Lemma ctl_stops_at_refused_exchange_witness :
  let w := Sample.world_with (Some Sample.env_text) true net_refusing in
  let a := ctl_args Ctl.CmdPause in
  fst (run_script (Ctl.main a) w) = Exit 1
  /\ added w (snd (run_script (Ctl.main a) w))
     = [EvRequest (PostToken "rt-old" "cid" "secret");
        EvStderr ("ERROR: token refresh failed " ++ Py.str_int 401
                  ++ ": " ++ "invalid_grant")%string;
        EvStderrExn "ERROR: " (ClientResponseError 401 AUTH_TOKEN_URL)]
  /\ env_file (snd (run_script (Ctl.main a) w)) = env_file w.
Proof.
  apply (ctl_stops_at_refused_exchange
           (ctl_args Ctl.CmdPause)
           (Sample.world_with (Some Sample.env_text) true net_refusing)
           401 "invalid_grant" BodyOther);
    [reflexivity|reflexivity|lia].
Defined.

(** ** Telemetry: codes, height and position *)

Lemma upper_char_idem c : Py.upper_char (Py.upper_char c) = Py.upper_char c.
Proof. by destruct c as [[] [] [] [] [] [] [] []]. Qed.

Lemma upper_idem s : Py.upper (Py.upper s) = Py.upper s.
Proof.
  induction s as [|c s IH]; [done|]. simpl. by rewrite upper_char_idem, IH.
Qed.

(** X21.  The numeric codes of [_enum_num].  The code of a text does not
    depend on the case of its letters; it lies between 0 and 23; two texts
    with the same code other than 0 are the same word up to case; and the
    code is 0 exactly for the word UNKNOWN and for the texts the table does
    not hold, which the code therefore does not tell apart. *)
Theorem enum_codes_identify_the_word :
  (forall s, Main._enum_num (Some (Py.upper s)) = Main._enum_num (Some s))
  /\ (forall s c, Main._enum_num (Some s) = Some c -> 0 <= c <= 23)
  /\ (forall s1 s2 c,
        c <> 0 ->
        Main._enum_num (Some s1) = Some c ->
        Main._enum_num (Some s2) = Some c ->
        Py.upper s1 = Py.upper s2)
  /\ (forall s,
        Main._enum_num (Some s) = Some 0
        <-> Py.upper s = "UNKNOWN"%string \/ Main.table !! Py.upper s = None).
Proof.
  assert (Hcases : forall k c,
             Main.table !! k = Some c ->
             0 <= c <= 23
             /\ (c = 0 -> k = "UNKNOWN"%string)
             /\ forall k', Main.table !! k' = Some c -> k' = k).
  { intros k c H. apply elem_of_list_to_map_2 in H.
    repeat (apply elem_of_cons in H as [[= -> ->]|H]);
      try (by apply elem_of_nil in H);
      (split; [lia|]); (split; [done|]);
      intros k' H'; apply elem_of_list_to_map_2 in H';
      repeat (apply elem_of_cons in H' as [Heq|H']; [by inversion Heq|]);
      by apply elem_of_nil in H'. }
  split; [|split; [|split]].
  - intros s. by rewrite !enum_num_some, upper_idem.
  - intros s c. rewrite enum_num_some.
    destruct (Main.table !! Py.upper s) as [c'|] eqn:Hk; intros [= E];
      subst c; [|lia].
    by destruct (Hcases _ _ Hk).
  - intros s1 s2 c Hc. rewrite !enum_num_some.
    destruct (Main.table !! Py.upper s1) as [c1|] eqn:H1; intros [= E1];
      [|congruence].
    destruct (Main.table !! Py.upper s2) as [c2|] eqn:H2; intros [= E2];
      [|congruence].
    subst c1 c2.
    destruct (Hcases _ _ H2) as (_ & _ & Hinj). by apply Hinj.
  - intros s. rewrite enum_num_some.
    destruct (Main.table !! Py.upper s) as [c|] eqn:Hk.
    + split.
      * intros [= Hc0]. left. destruct (Hcases _ _ Hk) as (_ & H0 & _); auto.
      * intros [Hu|?]; [|done]. rewrite Hu in Hk. by vm_compute in Hk.
    + split; auto.
Qed.

Lemma last_position_snoc attrs ps p :
  Api.at_positions attrs = Some (ps ++ [p]) -> Main.last_position attrs = p.
Proof.
  unfold Main.last_position. intros ->.
  destruct ps as [|q ps]; [done|].
  change ((q :: ps) ++ [p]) with (q :: (ps ++ [p])). cbv iota.
  by rewrite List.last_last.
Qed.

(** X22.  The point the writer builds for a device.  A point is built
    exactly when the device does not report whether it is connected; when
    it does, building the point raises the attribute error of the missing
    [boolean_field] method and nothing is written.  In the point that is
    built, the cutting height is the one of the settings unless that is
    missing or zero, in which case it is the one of the [cutting] object;
    so a zero height in the settings is recorded only if [cutting] repeats
    it.  Latitude and longitude are those of the last entry of the position
    list, each left out when the entry lacks it, and both left out when
    the list is missing or empty.  The summary line shows a position
    exactly when the point holds both coordinates, and then the same
    two. *)
Theorem point_height_and_position :
  forall cfg mid name ts attrs,
    let built := Main.build_point cfg mid name (Main.fields_of attrs) ts in
    let settings := Api.at_settings_cuttingHeight attrs in
    let cutting := Api.at_cutting_height attrs in
    (Api.at_metadata_connected attrs = None <-> exists p, built = Ok p)
    /\ (Api.at_metadata_connected attrs <> None ->
        built = Raise no_boolean_field)
    /\ (forall p,
          built = Ok p ->
          (forall q, settings = Some q -> ~ (q == 0)%Q ->
                     p_fields p !! "cutting_height" = Some (PFloat q))
          /\ (settings = None \/ (exists q, settings = Some q /\ (q == 0)%Q) ->
              p_fields p !! "cutting_height" = PFloat <$> cutting)
          /\ (forall ps pos,
                Api.at_positions attrs = Some (ps ++ [pos]) ->
                p_fields p !! "lat" = PFloat <$> Api.pos_latitude pos
                /\ p_fields p !! "lng" = PFloat <$> Api.pos_longitude pos)
          /\ (Api.at_positions attrs = None
              \/ Api.at_positions attrs = Some [] ->
              p_fields p !! "lat" = None /\ p_fields p !! "lng" = None)
          /\ (forall label lat lng,
                In (SPos lat lng) (Main._summary_line label attrs)
                <-> p_fields p !! "lat" = Some (PFloat lat)
                    /\ p_fields p !! "lng" = Some (PFloat lng))).
Proof.
  intros cfg mid name ts attrs built settings cutting. subst built.
  split.
  { rewrite <- fields_of_bool_free. split.
    - intros H. eexists. by apply build_point_plain.
    - intros [p Hp]. by apply build_point_inv in Hp as [? _]. }
  split.
  { intros H. apply build_point_bool. by rewrite fields_of_bool_free. }
  intros p [_ ->]%build_point_inv.
  assert (Hh : Main.fields_of attrs !! "cutting_height"
               = Some (Main.opt_float (Main.num_or settings cutting)))
    by reflexivity.
  assert (Hlat : Main.fields_of attrs !! "lat"
                 = Some (Main.opt_float
                           (Api.pos_latitude (Main.last_position attrs))))
    by reflexivity.
  assert (Hlng : Main.fields_of attrs !! "lng"
                 = Some (Main.opt_float
                           (Api.pos_longitude (Main.last_position attrs))))
    by reflexivity.
  assert (Hf : forall o : option Q,
             to_point_value (Main.opt_float o) = PFloat <$> o)
    by (by intros [q|]).
  rewrite !point_field_lookup, Hh, Hlat, Hlng. simpl. rewrite !Hf.
  split; [|split; [|split; [|split]]].
  - intros q Hq Hne. rewrite Hq. simpl.
    destruct (Qeq_bool q 0) eqn:Hz; [|done].
    by apply Qeq_bool_iff in Hz.
  - intros [Hs|(q & Hs & Hz)]; rewrite Hs; simpl; [done|].
    apply Qeq_bool_iff in Hz. by rewrite Hz.
  - intros ps pos Hps. by rewrite (last_position_snoc attrs ps pos Hps).
  - unfold Main.last_position. by intros [->| ->].
  - intros label lat lng. unfold Main._summary_line.
    destruct (Api.pos_latitude (Main.last_position attrs)) as [la|];
      destruct (Api.pos_longitude (Main.last_position attrs)) as [lo|];
      simpl; split;
      try (intros [H|[H|[H|[H|[H|H]]]]]; try done);
      try (by intros [? ?]).
    + destruct H as [[= -> ->]|[]]. done.
    + intros [[= ->] [= ->]]. do 5 right. by left.
Qed.

(** ** The metrics writer and the rotated token in memory *)

Lemma write_disabled_quiet influx mid name fields ts :
  Main.enabled influx = false ->
  appends not_influx (Main.write influx mid name fields ts).
Proof. intros Hd. unfold Main.write. rewrite Hd. effects. Qed.

Lemma run_once_disabled_quiet cfg influx :
  Main.enabled influx = false ->
  appends not_influx (Main.run_once cfg influx).
Proof.
  intros Hd. unfold Main.run_once.
  destruct (negb _); [unfold log; effects|].
  apply appends_bind; [apply fetch_mowers_not_influx|intros payload].
  destruct (default [] (Api.data payload)) as [|item items];
    [unfold log; effects|].
  apply appends_bind; [effects|intros now].
  apply appends_bind; [|intros; effects].
  apply appends_for_each. intros it. unfold Main.poll_item, log.
  apply appends_bind; [effects|intros _].
  apply appends_bind; [effects|intros _].
  by apply write_disabled_quiet.
Qed.

Lemma run_loop_disabled_quiet turns cfg influx :
  Main.enabled influx = false ->
  appends not_influx (Main.run_loop turns cfg influx).
Proof.
  intros Hd. induction turns as [|n IH]; simpl; [effects|].
  apply appends_bind; [|intros _; exact IH].
  unfold Main.loop_turn, log.
  apply appends_bind; [|intros; effects].
  apply appends_try_except; [|intros; effects].
  apply appends_bind; [|intros; effects].
  by apply run_once_disabled_quiet.
Qed.

(** X23.  Without a token for the metrics store, or without the client
    library, the poller never writes to the store: [InfluxWriter.__init__]
    logs that the store is disabled and from then on, for one round as for
    any number of turns of the loop, no write request is made. *)
Theorem no_store_token_no_writes :
  forall read_config installed turns a w cfg0 w1,
    read_config w = (Ok cfg0, w1) ->
    Main.influx_token cfg0 = ""%string \/ installed = false ->
    let w' := snd (MainCli.main read_config installed turns a w) in
    forallb not_influx (added w1 w') = true
    /\ exists evs,
        added w1 w'
        = EvLog INFO "InfluxDB disabled (no token or client not installed)." []
            :: evs.
Proof.
  intros rc installed turns a w cfg0 w1 Hrc Hoff w'.
  assert (Hadd : exists evs,
             added w1 w'
             = EvLog INFO
                     "InfluxDB disabled (no token or client not installed)." []
                 :: evs
             /\ forallb not_influx evs = true);
    [|destruct Hadd as (evs & -> & F); split; [exact F|by exists evs]].
  subst w'.
  unfold MainCli.main. rewrite bind_run, Hrc.
  set (cfg := match MainCli.arg_poll_seconds a with
              | Some n => MainCli.with_poll_seconds n cfg0
              | None => cfg0
              end).
  assert (Htok : Py.truthy_str (Main.influx_token cfg) && installed = false).
  { assert (Hsame : Main.influx_token cfg = Main.influx_token cfg0)
      by (subst cfg; by destruct (MainCli.arg_poll_seconds a)).
    rewrite Hsame. destruct Hoff as [-> | ->]; [done|apply andb_false_r]. }
  unfold Main.InfluxWriter_init. rewrite Htok. cbn [negb].
  set (influx := {| Main.enabled := false; Main.iw_cfg := cfg |}).
  assert (H : appends not_influx
                (put_auth (Main.StaticAuth_init (Main.cfg_client_id cfg)
                                                (Main.cfg_client_secret cfg)
                                                (Main.cfg_api_key cfg)
                                                (Main.cfg_refresh_token cfg)) ;;
                 log DEBUG "Config: %r" [] ;;
                 MainCli.on_interrupt
                   (if MainCli.arg_once a
                    then let* code := Main.run_once cfg influx in
                         ret (Some code)
                    else Main.run_loop turns cfg influx ;; ret None)
                   (log INFO "Interrupted by user." [] ;; ret (Some 130)))).
  { unfold put_auth, log.
    apply appends_bind; [effects|intros _].
    apply appends_bind; [effects|intros _].
    apply appends_on_interrupt; [|effects].
    destruct (MainCli.arg_once a).
    - apply appends_bind; [|intros; effects].
      by apply run_once_disabled_quiet.
    - apply appends_bind; [|intros; effects].
      by apply run_loop_disabled_quiet. }
  unfold log at 1, emit at 1. rewrite !bind_run. cbv beta iota.
  unfold ret at 1. cbv beta iota.
  match goal with
  | |- context [added w1 (snd (?m ?x))] =>
      destruct (H x) as (evs & E & F)
  end.
  simpl in E. exists evs. split; [|exact F].
  apply added_app. by rewrite E, <- app_assoc.
Qed.

Lemma no_store_token_no_writes_witness :
  let w' := snd (MainCli.main (ret (Sample.poll_cfg 30)) true 2
                              (cli_args false None) Sample.world0) in
  forallb not_influx (added Sample.world0 w') = true
  /\ exists evs,
      added Sample.world0 w'
      = EvLog INFO "InfluxDB disabled (no token or client not installed)." []
          :: evs.
Proof.
  apply (no_store_token_no_writes
           (ret (Sample.poll_cfg 30)) true 2 (cli_args false None)
           Sample.world0 (Sample.poll_cfg 30) Sample.world0);
    [reflexivity|by left].
Defined.

Lemma handle_rotation_auth rt w :
  rt <> ""%string -> rt <> refresh_token (auth w) ->
  auth (snd (Main.handle_rotation (Some rt) w))
  = Main.set_refresh rt (auth w).
Proof.
  intros Hne Hdiff.
  rewrite handle_rotation_rotate, persist_main_run by done.
  cbn [snd]. change (auth (add_event ?e ?x)) with (auth x).
  by rewrite main_persisted_auth.
Qed.

(** X24.  The poller keeps a rotated refresh token in memory and uses it:
    after an exchange whose response carried a new refresh token and a
    lifetime that fits a double, the next exchange the manager makes
    presents that new token, with the same client id and secret, whether
    or not the credential file could be written.  (After a lifetime beyond
    the doubles the call has raised before the rotation block, and the
    next exchange presents the old token: see
    [rotated_token_lost_on_overflow].) *)
Theorem next_exchange_presents_rotated_token :
  forall w status txt tok at_ rt t,
    Main.needs_refresh (auth w) (clock w) = true ->
    net w (trace w) (PostToken (refresh_token (auth w)) (client_id (auth w))
                               (client_secret (auth w)))
    = Responded status txt (BodyToken tok) ->
    status < 400 ->
    Api.access_token tok = Some at_ ->
    Py.overflows (default 300 (Api.expires_in tok)) = false ->
    Api.refresh_token tok = Some rt ->
    rt <> ""%string ->
    rt <> refresh_token (auth w) ->
    let w1 := set_clock t (snd (Main.async_get_access_token w)) in
    Main.needs_refresh (auth w1) t = true ->
    exists evs,
      added w1 (snd (Main.async_get_access_token w1))
      = EvRequest (PostToken rt (client_id (auth w)) (client_secret (auth w)))
          :: evs.
Proof.
  intros w status txt tok at_ rt t Hstale Hnet Hs Hat Hfits Hrt Hne Hdiff w1
         Hstale1.
  assert (Hauth : auth w1
                  = Main.set_refresh rt
                      (Main.set_expiry
                         (expiry_of (clock w)
                                    (default 300%Z (Api.expires_in tok)))
                         (Main.set_token at_ (auth w)))).
  { subst w1. simpl.
    rewrite (exchange_ok w status txt tok at_) by done. rewrite Hrt.
    pose proof (handle_rotation_auth rt
                  (exchanged at_ (default 300 (Api.expires_in tok)) w)
                  Hne Hdiff) as Ha.
    destruct (Main.handle_rotation (Some rt) _) as [[[]|e] w3]; exact Ha. }
  destruct (refresh_exchange_trace (clock w1) w1) as (evs & E & _).
  exists evs. apply added_app.
  rewrite get_access_token_stale by exact Hstale1.
  rewrite E, Hauth. reflexivity.
Qed.

Lemma next_exchange_presents_rotated_token_witness :
  let w := Sample.world_read_only in
  let w1 := set_clock 5000%Q (snd (Main.async_get_access_token w)) in
  exists evs,
    added w1 (snd (Main.async_get_access_token w1))
    = EvRequest (PostToken "rt-new" "cid" "secret") :: evs.
Proof.
  apply (next_exchange_presents_rotated_token
           Sample.world_read_only 200 ""%string
           (Sample.token_body (Some "rt-new"%string)) "access-1"%string
           "rt-new"%string 5000%Q);
    [reflexivity|reflexivity|lia|reflexivity|reflexivity|reflexivity|done
    |done|reflexivity].
Defined.

(** After a response that rotates the refresh token and reports a lifetime
    of [2^1024] seconds, the call has raised and the exchange of the next
    call presents the old refresh token. *)
Example rotated_token_lost_on_overflow :
  let w1 := snd (Main.async_get_access_token world_long_lived) in
  fst (Main.async_get_access_token world_long_lived)
  = Raise lifetime_overflow
  /\ Main.needs_refresh (auth w1) (clock w1) = true
  /\ hd_error (added w1 (snd (Main.async_get_access_token w1)))
     = Some (EvRequest (PostToken "rt-old" "cid" "secret")).
Proof. vm_compute. tauto. Qed.
